(** * Ecosystem simulation: organisms, animals and the environment's daily tick

    A shallow embedding of [ecosystem_simulation_system.py].

    - Python numbers are modelled by exact rationals ([Q]); comparisons of
      energies are therefore stated with [==] where arithmetic is involved.
    - Python objects live in a store indexed by references, so that a method
      acting on [self] and on another organism sees the aliasing the source
      has.
    - Methods are computations in a state-and-exception monad over that store;
      the [random] module is an oracle carried by the store. *)

From Stdlib Require Import QArith Lqa Lia List String Ascii Bool Arith.
Import ListNotations.
Open Scope string_scope.
Open Scope list_scope.
Open Scope Q_scope.

(** ** Numbers *)

Definition Qlt_bool (a b : Q) : bool := negb (Qle_bool b a).

(** [max(a, b)]: the second argument replaces the first only when it is
    strictly greater. *)
Definition py_max (a b : Q) : Q := if Qlt_bool a b then b else a.

(** [min(a, b)]: the second argument replaces the first only when it is
    strictly smaller. *)
Definition py_min (a b : Q) : Q := if Qlt_bool b a then b else a.

(** ** Strings *)

Definition lower_ascii (c : ascii) : ascii :=
  let n := nat_of_ascii c in
  if ((65 <=? n) && (n <=? 90))%nat then ascii_of_nat (n + 32) else c.

(** [str.lower()] on text whose letters are ASCII or in the Latin-1
    supplement, read as UTF-8: [A]-[Z] go to [a]-[z]; after the lead byte
    [0xC3], the bytes [0x80]-[0x9E] other than [0x97] (the letters U+00C0 to
    U+00DE without the multiplication sign) go up by [0x20]. The example
    worlds use it; the methods use the [str.lower] of the world they run in,
    whatever it is. *)
Fixpoint latin_lower (s : string) : string :=
  match s with
  | EmptyString => EmptyString
  | String c s' =>
      match s' with
      | String d s'' =>
          let n := nat_of_ascii d in
          if ((nat_of_ascii c =? 195) && (128 <=? n) && (n <=? 158) && negb (n =? 151))%nat
          then String c (String (ascii_of_nat (n + 32)) (latin_lower s''))
          else String (lower_ascii c) (latin_lower s')
      | EmptyString => String (lower_ascii c) EmptyString
      end
  end.

(** ** Dynamically typed values

    Only the constructor's [id] argument and the result of [hunt] need the
    dynamic view; the other attributes are typed after the data model. *)

Inductive pyval : Type :=
| PyNone
| PyBool (b : bool)
| PyInt (z : Z)
| PyFloat (q : Q)
| PyStr (s : string).

(** Truth value of an object, as [if v:] tests it. *)
Definition truthy (v : pyval) : bool :=
  match v with
  | PyNone => false
  | PyBool b => b
  | PyInt z => negb (z =? 0)%Z
  | PyFloat q => negb (Qeq_bool q 0)
  | PyStr s => negb (s =? "")%string
  end.

(** [isinstance(v, str)] *)
Definition is_str (v : pyval) : bool :=
  match v with PyStr _ => true | _ => false end.

(** ** The class hierarchy *)

Inductive pyclass : Type := COrganism | CPlant | CAnimal | CHerbivore | CCarnivore.

Definition pyclass_eqb (c d : pyclass) : bool :=
  match c, d with
  | COrganism, COrganism | CPlant, CPlant | CAnimal, CAnimal
  | CHerbivore, CHerbivore | CCarnivore, CCarnivore => true
  | _, _ => false
  end.

(** Direct base class: [Plant(Organism)], [Animal(Organism)],
    [Herbivore(Animal)], [Carnivore(Animal)]. *)
Definition base (c : pyclass) : option pyclass :=
  match c with
  | COrganism => None
  | CPlant | CAnimal => Some COrganism
  | CHerbivore | CCarnivore => Some CAnimal
  end.

Definition issubclass (c d : pyclass) : bool :=
  pyclass_eqb c d
  || match base c with
     | Some b => pyclass_eqb b d
                 || match base b with Some b' => pyclass_eqb b' d | None => false end
     | None => false
     end.

(** Attributes added by [Animal.__init__]. *)
Record animal : Type := mk_animal {
  _speed : Q;
  _diet_type : string;
  _food_eaten : nat
}.

(** Attributes a subclass adds to the base [Organism] ones. *)
Inductive extension : Type :=
| OrganismOnly
| PlantPart (_growth_rate : Q)
| AnimalPart (a : animal)
| HerbivorePart (a : animal) (_plant_preference : string)
| CarnivorePart (a : animal) (_hunting_efficiency : Q).

Record organism : Type := mk_organism {
  _id : string;
  _species_name : string;
  _energy : Q;
  _is_alive : bool;
  ext : extension
}.

Definition class_of (o : organism) : pyclass :=
  match ext o with
  | OrganismOnly => COrganism
  | PlantPart _ => CPlant
  | AnimalPart _ => CAnimal
  | HerbivorePart _ _ => CHerbivore
  | CarnivorePart _ _ => CCarnivore
  end.

Definition isinstance (o : organism) (c : pyclass) : bool := issubclass (class_of o) c.

Definition animal_of (o : organism) : option animal :=
  match ext o with
  | AnimalPart a | HerbivorePart a _ | CarnivorePart a _ => Some a
  | _ => None
  end.

Definition with_energy (o : organism) (e : Q) : organism :=
  mk_organism (_id o) (_species_name o) e (_is_alive o) (ext o).

Definition with_is_alive (o : organism) (b : bool) : organism :=
  mk_organism (_id o) (_species_name o) (_energy o) b (ext o).

Definition with_ext (o : organism) (x : extension) : organism :=
  mk_organism (_id o) (_species_name o) (_energy o) (_is_alive o) x.

(** The [energy] setter, as a transformer of the object:
    [self._energy = max(0, value)], then [_is_alive = False] when the stored
    energy is [<= 0]. *)
Definition store_energy (value : Q) (o : organism) : organism :=
  let o1 := with_energy o (py_max 0 value) in
  if Qle_bool (_energy o1) 0 then with_is_alive o1 false else o1.

(** [self._food_eaten += 1] *)
Definition fed (a : animal) : animal :=
  mk_animal (_speed a) (_diet_type a) (S (_food_eaten a)).

Definition feed (o : organism) : organism :=
  match ext o with
  | AnimalPart a => with_ext o (AnimalPart (fed a))
  | HerbivorePart a p => with_ext o (HerbivorePart (fed a) p)
  | CarnivorePart a h => with_ext o (CarnivorePart (fed a) h)
  | _ => o
  end.

(** ** The store *)

Definition ref : Type := nat.

(** The [random] module: the values its successive calls return. *)
Record rng : Type := mk_rng {
  rand_float : nat -> Q;    (* what the n-th call returns when it is random.random() *)
  rand_index : nat -> nat;  (* what the n-th call draws when it is random.choice(seq) *)
  drawn : nat               (* number of calls made so far *)
}.

Record Environment : Type := mk_Environment {
  __name : string;
  __weather_condition : string;
  __organisms : list ref;
  __day_count : nat;
  __next_id : nat
}.

(** The objects, the class variable, the generator and the built-in
    [str.lower]. The case mapping of [str.lower] is the interpreter's own
    (the Unicode tables); the store carries it as a function, the methods
    read it and none replaces it, so what is proved holds whatever that
    mapping is. *)
Record world : Type := mk_world {
  heap : ref -> organism;
  environments : ref -> Environment;
  gen : rng;
  organism_count : Z;       (* the class variable Organism.organism_count *)
  next_ref : ref;           (* where the next object is allocated *)
  str_lower : string -> string  (* str.lower, as the interpreter implements it *)
}.

Definition set_heap (w : world) (h : ref -> organism) : world :=
  mk_world h (environments w) (gen w) (organism_count w) (next_ref w) (str_lower w).

Definition set_environments (w : world) (h : ref -> Environment) : world :=
  mk_world (heap w) h (gen w) (organism_count w) (next_ref w) (str_lower w).

Definition set_gen (w : world) (g : rng) : world :=
  mk_world (heap w) (environments w) g (organism_count w) (next_ref w) (str_lower w).

Definition store {A : Type} (h : ref -> A) (r : ref) (a : A) : ref -> A :=
  fun r' => if Nat.eqb r' r then a else h r'.

(** ** The monad of methods: state and exceptions *)

Inductive exn : Type :=
| InvalidInputException
| OrganismNotFoundException
| ZeroDivisionError
| IndexError
| AttributeError.

Inductive outcome (A : Type) : Type :=
| Return (a : A)
| Raise (e : exn).
Arguments Return {A} a.
Arguments Raise {A} e.

Definition M (A : Type) : Type := world -> outcome A * world.

Definition ret {A : Type} (a : A) : M A := fun w => (Return a, w).

Definition raise {A : Type} (e : exn) : M A := fun w => (Raise e, w).

Definition bind {A B : Type} (m : M A) (f : A -> M B) : M B :=
  fun w =>
    match m w with
    | (Return a, w') => f a w'
    | (Raise e, w') => (Raise e, w')
    end.

Notation "x <- m ;; k" := (bind m (fun x => k))
  (at level 61, m at next level, right associativity).
Notation "m ;; k" := (bind m (fun _ => k))
  (at level 61, right associativity).

(** [for x in l: body(x)] *)
Fixpoint for_each {A : Type} (l : list A) (body : A -> M unit) : M unit :=
  match l with
  | [] => ret tt
  | x :: l' => body x ;; for_each l' body
  end.

Definition gets {A : Type} (f : world -> A) : M A := fun w => (Return (f w), w).

Definition read (r : ref) : M organism := gets (fun w => heap w r).

Definition update (r : ref) (f : organism -> organism) : M unit :=
  fun w => (Return tt, set_heap w (store (heap w) r (f (heap w r)))).

(** A list comprehension [[o for o in l if p(o)]] over object references. *)
Definition select (p : organism -> bool) (l : list ref) : M (list ref) :=
  gets (fun w => filter (fun r => p (heap w r)) l).

(** [a / b] *)
Definition py_div (a b : Q) : M Q :=
  if Qeq_bool b 0 then raise ZeroDivisionError else ret (a / b).

(** One more call made to the generator. *)
Definition advance (g : rng) : rng :=
  mk_rng (rand_float g) (rand_index g) (S (drawn g)).

(** [random.random()] *)
Definition random_random : M Q :=
  fun w => (Return (rand_float (gen w) (drawn (gen w))), set_gen w (advance (gen w))).

(** The position [random.choice] draws in a sequence of [n > 0] elements. *)
Definition drawn_position (g : rng) (n : nat) : nat :=
  Nat.modulo (rand_index g (drawn g)) n.

(** [random.choice(seq)]: the element at the drawn position; [IndexError] on
    an empty sequence. *)
Definition random_choice {A : Type} (seq : list A) : M A :=
  fun w =>
    match seq with
    | [] => (Raise IndexError, w)
    | x :: _ =>
        (Return (nth (drawn_position (gen w) (List.length seq)) seq x),
         set_gen w (advance (gen w)))
    end.

(** ** class Organism *)

Module Organism.

(** [Organism.__init__]; [x] holds the attributes the instantiated class
    adds once the base initialiser has returned. The new object is
    allocated only when validation passes. *)
Definition __init__ (x : extension) (id : pyval) (species_name : string)
           (energy : Q) (is_alive : bool) : M ref :=
  if negb (is_str id) || negb (truthy id) then raise InvalidInputException
  else
    match id with
    | PyStr s =>
        fun w =>
          let self := next_ref w in
          (Return self,
           mk_world (store (heap w) self
                           (mk_organism s species_name energy is_alive x))
                    (environments w) (gen w)
                    (organism_count w + 1)%Z (S self) (str_lower w))
    | _ => raise InvalidInputException
    end.

Definition id (self : ref) : M string := o <- read self ;; ret (_id o).

Definition species_name (self : ref) : M string :=
  o <- read self ;; ret (_species_name o).

Definition energy (self : ref) : M Q := o <- read self ;; ret (_energy o).

(** The [energy] setter. *)
Definition set_energy (self : ref) (value : Q) : M unit :=
  update self (store_energy value).

Definition is_alive (self : ref) : M bool := o <- read self ;; ret (_is_alive o).

Definition consume_energy (self : ref) (amount : Q) : M bool :=
  e <- energy self ;;
  set_energy self (e - amount) ;;
  is_alive self.

Definition interact (self other_organism : ref) : M bool := ret false.

End Organism.

(** ** class Plant(Organism) *)

Definition weather_factors : list (string * Q) :=
  [("sunny", 1.0); ("cloudy", 0.6); ("rainy", 0.3)].

(** [d.get(key, default)] *)
Fixpoint dict_get (d : list (string * Q)) (key : string) (default : Q) : Q :=
  match d with
  | [] => default
  | (k, v) :: d' => if (k =? key)%string then v else dict_get d' key default
  end.

Module Plant.

Definition __init__ (id : pyval) (species_name : string) (energy : Q)
           (is_alive : bool) (growth_rate : Q) : M ref :=
  Organism.__init__ (PlantPart growth_rate) id species_name energy is_alive.

Definition growth_rate (self : ref) : M Q :=
  o <- read self ;;
  match ext o with
  | PlantPart g => ret g
  | _ => raise AttributeError
  end.

Definition photosynthesize (self : ref) (weather_condition : string) : M Q :=
  let factor := dict_get weather_factors weather_condition 0.5 in
  g <- growth_rate self ;;
  let energy_gain := 10 * g * factor in
  e <- Organism.energy self ;;
  Organism.set_energy self (e + energy_gain) ;;
  ret energy_gain.

Definition interact (self other_organism : ref) : M bool :=
  other <- read other_organism ;;
  me <- read self ;;
  if isinstance other CHerbivore && _is_alive me then
    let energy_transfer := py_min 25 (_energy me) in
    e <- Organism.energy other_organism ;;
    Organism.set_energy other_organism (e + energy_transfer) ;;
    e' <- Organism.energy self ;;
    Organism.set_energy self (e' - energy_transfer) ;;
    ret true
  else ret false.

End Plant.

(** ** class Animal(Organism) *)

Module Animal.

Definition __init__ (sub : animal -> extension) (id : pyval) (species_name : string)
           (energy : Q) (is_alive : bool) (speed : Q) (diet_type : string) : M ref :=
  Organism.__init__ (sub (mk_animal speed diet_type 0)) id species_name energy is_alive.

Definition attributes (self : ref) : M animal :=
  o <- read self ;;
  match animal_of o with
  | Some a => ret a
  | None => raise AttributeError
  end.

Definition speed (self : ref) : M Q := a <- attributes self ;; ret (_speed a).

Definition food_eaten (self : ref) : M nat := a <- attributes self ;; ret (_food_eaten a).

(** [self._food_eaten += 1] *)
Definition count_meal (self : ref) : M unit :=
  attributes self ;; update self feed.

(** The base [hunt]: its body is [pass], so the call evaluates to [None]. *)
Definition hunt (self : ref) (prey_organisms : list ref) : M pyval := ret PyNone.

End Animal.

(** ** class Herbivore(Animal) *)

Module Herbivore.

Definition __init__ (id : pyval) (species_name : string) (energy : Q) (is_alive : bool)
           (speed : Q) (diet_type : string) (plant_preference : string) : M ref :=
  Animal.__init__ (fun a => HerbivorePart a plant_preference)
                  id species_name energy is_alive speed diet_type.

Definition plant_preference (self : ref) : M string :=
  o <- read self ;;
  match ext o with
  | HerbivorePart _ p => ret p
  | _ => raise AttributeError
  end.

Definition hunt (self : ref) (prey_organisms : list ref) : M bool :=
  alive <- Organism.is_alive self ;;
  if negb alive then ret false
  else
    available_plants <-
      select (fun org => isinstance org CPlant && _is_alive org) prey_organisms ;;
    match available_plants with
    | [] => ret false
    | _ :: _ =>
        preference <- plant_preference self ;;
        lower <- gets str_lower ;;
        preferred_plants <-
          select (fun p => (lower (_species_name p) =? lower preference)%string)
                 available_plants ;;
        target_plant <-
          match preferred_plants with
          | _ :: _ => random_choice preferred_plants
          | [] => random_choice available_plants
          end ;;
        target_energy <- Organism.energy target_plant ;;
        let energy_gain := py_min target_energy 25 in
        e <- Organism.energy self ;;
        Organism.set_energy self (e + energy_gain) ;;
        e' <- Organism.energy target_plant ;;
        Organism.set_energy target_plant (e' - energy_gain) ;;
        Animal.count_meal self ;;
        ret true
    end.

Definition interact (self other_organism : ref) : M bool :=
  other <- read other_organism ;;
  me <- read self ;;
  if isinstance other CPlant && _is_alive me && _is_alive other then
    let energy_transfer := py_min 25 (_energy other) in
    e <- Organism.energy self ;;
    Organism.set_energy self (e + energy_transfer) ;;
    e' <- Organism.energy other_organism ;;
    Organism.set_energy other_organism (e' - energy_transfer) ;;
    Animal.count_meal self ;;
    ret true
  else ret false.

End Herbivore.

(** ** class Carnivore(Animal) *)

Module Carnivore.

Definition __init__ (id : pyval) (species_name : string) (energy : Q) (is_alive : bool)
           (speed : Q) (diet_type : string) (hunting_efficiency : Q) : M ref :=
  Animal.__init__ (fun a => CarnivorePart a hunting_efficiency)
                  id species_name energy is_alive speed diet_type.

Definition hunting_efficiency (self : ref) : M Q :=
  o <- read self ;;
  match ext o with
  | CarnivorePart _ h => ret h
  | _ => raise AttributeError
  end.

Definition hunt (self : ref) (prey_organisms : list ref) : M bool :=
  alive <- Organism.is_alive self ;;
  if negb alive then ret false
  else
    available_prey <-
      select (fun org => isinstance org CHerbivore && _is_alive org) prey_organisms ;;
    match available_prey with
    | [] => ret false
    | _ :: _ =>
        target_prey <- random_choice available_prey ;;
        efficiency <- hunting_efficiency self ;;
        speed <- Animal.speed self ;;
        prey_speed <- Animal.speed target_prey ;;
        ratio <- py_div speed (prey_speed + 1) ;;
        let success_chance := efficiency * ratio in
        draw <- random_random ;;
        if Qle_bool draw success_chance then
          prey_energy <- Organism.energy target_prey ;;
          let energy_gain := py_min (prey_energy * 0.7) 50 in
          e <- Organism.energy self ;;
          Organism.set_energy self (e + energy_gain) ;;
          Organism.set_energy target_prey 0 ;;
          Animal.count_meal self ;;
          ret true
        else
          Organism.consume_energy self 5 ;;
          ret false
    end.

Definition interact (self other_organism : ref) : M bool :=
  other <- read other_organism ;;
  me <- read self ;;
  if isinstance other CHerbivore && _is_alive me && _is_alive other then
    efficiency <- hunting_efficiency self ;;
    draw <- random_random ;;
    if Qle_bool draw efficiency then
      prey_energy <- Organism.energy other_organism ;;
      let energy_transfer := py_min 40 prey_energy in
      e <- Organism.energy self ;;
      Organism.set_energy self (e + energy_transfer) ;;
      Organism.set_energy other_organism 0 ;;
      Animal.count_meal self ;;
      ret true
    else ret false
  else ret false.

End Carnivore.

(** ** Method resolution

    [o.hunt(...)] and [o.interact(...)] run the method of the class [o] was
    created from. *)

Definition hunt (self : ref) (prey_organisms : list ref) : M pyval :=
  o <- read self ;;
  match class_of o with
  | CHerbivore => b <- Herbivore.hunt self prey_organisms ;; ret (PyBool b)
  | CCarnivore => b <- Carnivore.hunt self prey_organisms ;; ret (PyBool b)
  | CAnimal => Animal.hunt self prey_organisms
  | COrganism | CPlant => raise AttributeError
  end.

Definition interact (self other_organism : ref) : M bool :=
  o <- read self ;;
  match class_of o with
  | COrganism | CAnimal => Organism.interact self other_organism
  | CPlant => Plant.interact self other_organism
  | CHerbivore => Herbivore.interact self other_organism
  | CCarnivore => Carnivore.interact self other_organism
  end.

(** ** class Environment *)

Definition with_weather (e : Environment) (c : string) : Environment :=
  mk_Environment (__name e) c (__organisms e) (__day_count e) (__next_id e).

Definition with_organisms (e : Environment) (l : list ref) : Environment :=
  mk_Environment (__name e) (__weather_condition e) l (__day_count e) (__next_id e).

Definition with_day_count (e : Environment) (n : nat) : Environment :=
  mk_Environment (__name e) (__weather_condition e) (__organisms e) n (__next_id e).

Definition with_next_id (e : Environment) (n : nat) : Environment :=
  mk_Environment (__name e) (__weather_condition e) (__organisms e) (__day_count e) n.

(** [x in l] for a list of strings *)
Definition str_in (x : string) (l : list string) : bool :=
  existsb (fun y => (y =? x)%string) l.

Module Environment.

Definition attributes (self : ref) : M Environment :=
  gets (fun w => environments w self).

Definition assign (self : ref) (f : Environment -> Environment) : M unit :=
  fun w =>
    (Return tt,
     set_environments w (store (environments w) self (f (environments w self)))).

Definition __init__ (name weather_condition : string) : M ref :=
  fun w =>
    let self := next_ref w in
    (Return self,
     mk_world (heap w)
              (store (environments w) self
                     (mk_Environment name weather_condition [] 0 1))
              (gen w) (organism_count w) (S self) (str_lower w)).

Definition name (self : ref) : M string := e <- attributes self ;; ret (__name e).

Definition weather_condition (self : ref) : M string :=
  e <- attributes self ;; ret (__weather_condition e).

(** The [weather_condition] setter. *)
Definition set_weather_condition (self : ref) (condition : string) : M unit :=
  let valid_conditions := ["sunny"; "cloudy"; "rainy"] in
  if str_in condition valid_conditions
  then assign self (fun e => with_weather e condition)
  else ret tt.

(** The [organisms] property: a copy of the list. *)
Definition organisms (self : ref) : M (list ref) :=
  e <- attributes self ;; ret (__organisms e).

Definition day_count (self : ref) : M nat := e <- attributes self ;; ret (__day_count e).

Definition get_next_id (self : ref) : M nat :=
  e <- attributes self ;;
  let id_val := __next_id e in
  assign self (fun e => with_next_id e (S (__next_id e))) ;;
  ret id_val.

Definition add_organism (self organism : ref) : M bool :=
  e <- attributes self ;;
  new_id <- Organism.id organism ;;
  present <- gets (fun w =>
               existsb (fun org => (_id (heap w org) =? new_id)%string)
                       (__organisms e)) ;;
  if present then ret false
  else
    assign self (fun e => with_organisms e (__organisms e ++ [organism])) ;;
    ret true.

(** The references left once the first one whose object carries
    [organism_id] is popped, if there is one. *)
Fixpoint pop_first (h : ref -> organism) (organism_id : string) (l : list ref)
  : option (list ref) :=
  match l with
  | [] => None
  | r :: l' =>
      if (_id (h r) =? organism_id)%string then Some l'
      else
        match pop_first h organism_id l' with
        | Some l'' => Some (r :: l'')
        | None => None
        end
  end.

Definition remove_organism (self : ref) (organism_id : string) : M bool :=
  e <- attributes self ;;
  popped <- gets (fun w => pop_first (heap w) organism_id (__organisms e)) ;;
  match popped with
  | Some l => assign self (fun e => with_organisms e l) ;; ret true
  | None => ret false
  end.

Definition find_organism_by_id (self : ref) (organism_id : string) : M ref :=
  e <- attributes self ;;
  found <- select (fun o => (_id o =? organism_id)%string) (__organisms e) ;;
  match found with
  | r :: _ => ret r
  | [] => raise OrganismNotFoundException
  end.

Definition get_organisms_by_type (self : ref) (organism_class : pyclass) : M (list ref) :=
  e <- attributes self ;;
  select (fun org => isinstance org organism_class) (__organisms e).

Definition get_population_count (self : ref) : M (list (string * nat)) :=
  e <- attributes self ;;
  plants <- select (fun o => isinstance o CPlant && _is_alive o) (__organisms e) ;;
  herbivores <- select (fun o => isinstance o CHerbivore && _is_alive o) (__organisms e) ;;
  carnivores <- select (fun o => isinstance o CCarnivore && _is_alive o) (__organisms e) ;;
  ret [("Plant", List.length plants);
       ("Herbivore", List.length herbivores);
       ("Carnivore", List.length carnivores)].

(** Body of the photosynthesis loop. *)
Definition grow (self organism : ref) : M unit :=
  o <- read organism ;;
  if isinstance o CPlant && _is_alive o then
    weather <- weather_condition self ;;
    Plant.photosynthesize organism weather ;;
    ret tt
  else ret tt.

(** Body of both hunting loops. *)
Definition send_hunting (prey : list ref) (hunter : ref) : M unit :=
  alive <- Organism.is_alive hunter ;;
  if alive then hunt hunter prey ;; ret tt else ret tt.

(** Body of the daily-consumption loop. *)
Definition upkeep (organism : ref) : M unit :=
  o <- read organism ;;
  if _is_alive o then
    if isinstance o CPlant then
      Organism.consume_energy organism 1 ;; ret tt
    else if isinstance o CAnimal then
      speed <- Animal.speed organism ;;
      Organism.consume_energy organism (2 + speed * 0.1) ;; ret tt
    else ret tt
  else ret tt.

Definition simulate_day (self : ref) : M nat :=
  assign self (fun e => with_day_count e (S (__day_count e))) ;;
  draw <- random_random ;;
  (if Qlt_bool draw 0.3 then
     let weather_options := ["sunny"; "cloudy"; "rainy"] in
     weather <- random_choice weather_options ;;
     assign self (fun e => with_weather e weather)
   else ret tt) ;;
  members <- organisms self ;;
  for_each members (grow self) ;;
  carnivores <- get_organisms_by_type self CCarnivore ;;
  herbivores <- get_organisms_by_type self CHerbivore ;;
  for_each carnivores (send_hunting herbivores) ;;
  herbivores <- select _is_alive herbivores ;;
  plants <- get_organisms_by_type self CPlant ;;
  for_each herbivores (send_hunting plants) ;;
  members <- organisms self ;;
  for_each members upkeep ;;
  day_count self.

End Environment.

(** ** Running a method *)

Definition result {A : Type} (m : M A) (w : world) : outcome A := fst (m w).

Definition after {A : Type} (m : M A) (w : world) : world := snd (m w).

(** An interpreter that has just started: no object yet, all memory blank. *)
Definition blank_organism : organism := mk_organism "" "" 0 false OrganismOnly.

Definition blank_environment : Environment := mk_Environment "" "" [] 0 1.

Definition boot (g : rng) : world :=
  mk_world (fun _ => blank_organism) (fun _ => blank_environment) g 0%Z 0%nat latin_lower.

(** A generator whose floats are all [u] and whose drawn positions are all [k]. *)
Definition constant_rng (u : Q) (k : nat) : rng := mk_rng (fun _ => u) (fun _ => k) 0.

(** ** Notions used in the statements *)

Definition nonempty_str (v : pyval) : Prop := exists s, v = PyStr s /\ s <> "".

Definition id_present (w : world) (self organism : ref) : Prop :=
  exists r, In r (__organisms (environments w self))
            /\ _id (heap w r) = _id (heap w organism).

(** The comprehension [[org for org in l if isinstance(org, c) and org.is_alive]]
    evaluated in [w]. *)
Definition living (c : pyclass) (w : world) (l : list ref) : list ref :=
  filter (fun r => isinstance (heap w r) c && _is_alive (heap w r)) l.

(** The plants a herbivore picks from: the living plants whose species
    name and its preference have the same [str.lower()], or all living
    plants when there is none. *)
Definition preferred (w : world) (preference : string) (available : list ref) : list ref :=
  filter (fun r => (str_lower w (_species_name (heap w r)) =? str_lower w preference)%string)
         available.

Definition forage_pool (w : world) (preference : string) (prey : list ref) : list ref :=
  match preferred w preference (living CPlant w prey) with
  | _ :: _ => preferred w preference (living CPlant w prey)
  | [] => living CPlant w prey
  end.

(** The public operations that act on organisms, as a caller issues them. *)
Inductive operation : Type :=
| AssignEnergy (organism : ref) (value : Q)
| ConsumeEnergy (organism : ref) (amount : Q)
| Photosynthesize (plant : ref) (weather_condition : string)
| Hunt (animal : ref) (prey_organisms : list ref)
| Interact (organism other_organism : ref)
| SimulateDay (environment : ref)
| AddOrganism (environment organism : ref)
| RemoveOrganism (environment : ref) (organism_id : string)
| SetWeather (environment : ref) (condition : string).

Definition perform (op : operation) : M unit :=
  match op with
  | AssignEnergy o v => Organism.set_energy o v
  | ConsumeEnergy o amount => Organism.consume_energy o amount ;; ret tt
  | Photosynthesize p weather => Plant.photosynthesize p weather ;; ret tt
  | Hunt a prey => hunt a prey ;; ret tt
  | Interact o other => interact o other ;; ret tt
  | SimulateDay e => Environment.simulate_day e ;; ret tt
  | AddOrganism e o => Environment.add_organism e o ;; ret tt
  | RemoveOrganism e i => Environment.remove_organism e i ;; ret tt
  | SetWeather e c => Environment.set_weather_condition e c
  end.

(** The store after a sequence of calls; a call that raises leaves the store
    as it was when the exception left it, and the caller goes on. *)
Fixpoint perform_all (ops : list operation) (w : world) : world :=
  match ops with
  | [] => w
  | op :: ops' => perform_all ops' (after (perform op) w)
  end.

Definition dead_stay_dead (w w' : world) : Prop :=
  forall r, _is_alive (heap w r) = false -> _is_alive (heap w' r) = false.

Definition same_days (w w' : world) : Prop :=
  forall s, __day_count (environments w' s) = __day_count (environments w s).

Definition ends_with {A : Type} (m : M A) (q : A -> world -> Prop) : Prop :=
  forall w a w', m w = (Return a, w') -> q a w'.

(** No herbivore among [l] has speed [-1]. *)
Definition chaseable (w : world) (l : list ref) : Prop :=
  forall r a p, In r l -> ext (heap w r) = HerbivorePart a p -> ~ _speed a + 1 == 0.

Definition unfed (a : animal) : animal := mk_animal (_speed a) (_diet_type a) 0.

Definition shape (x : extension) : extension :=
  match x with
  | AnimalPart a => AnimalPart (unfed a)
  | HerbivorePart a p => HerbivorePart (unfed a) p
  | CarnivorePart a h => CarnivorePart (unfed a) h
  | OrganismOnly | PlantPart _ => x
  end.

Definition same_kind (w w' : world) : Prop :=
  (forall r, shape (ext (heap w' r)) = shape (ext (heap w r)))
  /\ (forall s, __organisms (environments w' s) = __organisms (environments w s)).

(** The store after [n] successive calls of [simulate_day]. *)
Definition days (self : ref) (n : nat) (w : world) : world :=
  Nat.iter n (after (Environment.simulate_day self)) w.

(** [m] respects the relation [R] between the store it starts from and the
    store it leaves, whether it returns or raises. *)
Definition keeps (R : world -> world -> Prop) {A : Type} (m : M A) : Prop :=
  forall w, R w (after m w).

(** ** Example worlds *)

(** A world holding one plain [Animal], at reference [0]. *)
Definition lone_animal_world : world :=
  after (Animal.__init__ AnimalPart (PyStr "A001") "Lizard" 50 true 2 "omnivore")
        (boot (constant_rng 0 0)).

(** The objects of the repository's test of interactions with dead
    organisms: a living oak (reference [0], energy [100]) and a dead herbivore
    (reference [1], energy [0]). *)
Definition plant_and_dead_herbivore : world :=
  after (Plant.__init__ (PyStr "P001") "Oak" 100 true 0.2 ;;
         Herbivore.__init__ (PyStr "DH") "Dead Herbivore" 0 false 3 "herbivore" "grass")
        (boot (constant_rng 0 0)).

(** An environment (reference [0]) holding the plant "P001" (reference [1]);
    a herbivore that also claims "P001" sits at reference [2]. *)
Definition forest_with_one_plant : world :=
  after (forest <- Environment.__init__ "Forest" "sunny" ;;
         oak <- Plant.__init__ (PyStr "P001") "Oak Tree" 100 true 0.2 ;;
         Herbivore.__init__ (PyStr "P001") "Rabbit" 70 true 3 "herbivore" "grass" ;;
         Environment.add_organism forest oak)
        (boot (constant_rng 0 0)).

(** The scenario of the specification: a wolf (efficiency [0.7], speed [5],
    reference [0]) and a rabbit (speed [3], reference [1]); [random.random()]
    always returns [u]. *)
Definition wolf_and_rabbit (u : Q) : world :=
  after (Carnivore.__init__ (PyStr "C001") "Wolf" 80 true 5 "carnivore" 0.7 ;;
         Herbivore.__init__ (PyStr "H001") "Rabbit" 70 true 3 "herbivore" "grass")
        (boot (constant_rng u 0)).

(** The same wolf with a rabbit of energy [100], where [0.7 * 100] exceeds
    the cap of [50]. *)
Definition wolf_and_big_rabbit (u : Q) : world :=
  after (Carnivore.__init__ (PyStr "C001") "Wolf" 80 true 5 "carnivore" 0.7 ;;
         Herbivore.__init__ (PyStr "H001") "Rabbit" 100 true 3 "herbivore" "grass")
        (boot (constant_rng u 0)).

(** A rabbit (reference [0], preference "grass") offered an oak (reference
    [1]) and some "Grass" (reference [2], energy [50]): it eats the grass,
    [25] units. *)
Definition rabbit_oak_grass : world :=
  after (Herbivore.__init__ (PyStr "H001") "Rabbit" 70 true 3 "herbivore" "grass" ;;
         Plant.__init__ (PyStr "P001") "Oak Tree" 100 true 0.2 ;;
         Plant.__init__ (PyStr "P003") "Grass" 50 true 0.3)
        (boot (constant_rng 0 0)).

(** The same rabbit offered an oak and a tuft of "GRASS" of energy [10],
    less than the cap of [25]. *)
Definition rabbit_oak_tuft : world :=
  after (Herbivore.__init__ (PyStr "H001") "Rabbit" 70 true 3 "herbivore" "grass" ;;
         Plant.__init__ (PyStr "P001") "Oak Tree" 100 true 0.2 ;;
         Plant.__init__ (PyStr "P003") "GRASS" 10 true 0.3)
        (boot (constant_rng 0 0)).

(** A rabbit that prefers "épine", offered an oak (reference [1]) and some
    "ÉPINE" (reference [2], energy [50]). *)
Definition rabbit_oak_epine : world :=
  after (Herbivore.__init__ (PyStr "H001") "Rabbit" 70 true 3 "herbivore" "épine" ;;
         Plant.__init__ (PyStr "P001") "Oak Tree" 100 true 0.2 ;;
         Plant.__init__ (PyStr "P004") "ÉPINE" 50 true 0.3)
        (boot (constant_rng 0 0)).

(** A rabbit that is dead from the start, in a forest with grass and a wolf:
    environment [0], grass [1], rabbit [2], wolf [3]. *)
Definition forest_with_dead_rabbit : world :=
  after (forest <- Environment.__init__ "Forest" "sunny" ;;
         grass <- Plant.__init__ (PyStr "P003") "Grass" 50 true 0.3 ;;
         rabbit <- Herbivore.__init__ (PyStr "H001") "Rabbit" 0 false 3 "herbivore" "grass" ;;
         wolf <- Carnivore.__init__ (PyStr "C001") "Wolf" 80 true 5 "carnivore" 0.7 ;;
         Environment.add_organism forest grass ;;
         Environment.add_organism forest rabbit ;;
         Environment.add_organism forest wolf)
        (boot (constant_rng 0 0)).

(** The forest of [main]: environment [0]; oak [1], pine [2], grass [3],
    rabbit [4], wolf [5]. *)
Definition forest (g : rng) : world :=
  after (forest <- Environment.__init__ "Forest Ecosystem" "sunny" ;;
         oak <- Plant.__init__ (PyStr "P001") "Oak Tree" 100 true 0.2 ;;
         pine <- Plant.__init__ (PyStr "P002") "Pine Tree" 90 true 0.15 ;;
         grass <- Plant.__init__ (PyStr "P003") "Grass" 50 true 0.3 ;;
         rabbit <- Herbivore.__init__ (PyStr "H001") "Rabbit" 70 true 3 "herbivore" "grass" ;;
         wolf <- Carnivore.__init__ (PyStr "C001") "Wolf" 80 true 5 "carnivore" 0.7 ;;
         Environment.add_organism forest oak ;;
         Environment.add_organism forest pine ;;
         Environment.add_organism forest grass ;;
         Environment.add_organism forest rabbit ;;
         Environment.add_organism forest wolf)
        (boot g).

(** The same forest with a rabbit of speed [-1]. *)
Definition forest_with_backward_rabbit : world :=
  after (forest <- Environment.__init__ "Forest Ecosystem" "sunny" ;;
         rabbit <- Herbivore.__init__ (PyStr "H001") "Rabbit" 70 true (-1) "herbivore" "grass" ;;
         wolf <- Carnivore.__init__ (PyStr "C001") "Wolf" 80 true 5 "carnivore" 0.7 ;;
         Environment.add_organism forest rabbit ;;
         Environment.add_organism forest wolf)
        (boot (constant_rng 0.5 0)).

(** ** Notions used in the further properties *)

(** The pairs (class of [self], class of the other organism) for which some
    [interact] method has an effect. *)
Definition food_chain (c d : pyclass) : bool :=
  match c, d with
  | CPlant, CHerbivore | CHerbivore, CPlant | CCarnivore, CHerbivore => true
  | _, _ => false
  end.

(** An energy that is not negative, and positive while the organism lives. *)
Definition sane (o : organism) : Prop :=
  0 <= _energy o /\ (_is_alive o = true -> 0 < _energy o).

(** The members of an environment, and their identifiers in order. *)
Definition roster (w : world) (self : ref) : list ref :=
  __organisms (environments w self).

Definition member_ids (w : world) (self : ref) : list string :=
  map (fun r => _id (heap w r)) (roster w self).

Definition unique_ids (w : world) (self : ref) : Prop := NoDup (member_ids w self).

(** No member of the environment carries [organism_id]. *)
Definition id_absent (w : world) (self : ref) (organism_id : string) : Prop :=
  forall r, In r (roster w self) -> _id (heap w r) <> organism_id.

(** The operations that edit the collection of an environment. *)
Definition changes_roster (op : operation) : bool :=
  match op with
  | AddOrganism _ _ | RemoveOrganism _ _ => true
  | _ => false
  end.

(** What an organism is, as opposed to the state it is in. *)
Definition same_organism (o o' : organism) : Prop :=
  _id o' = _id o /\ _species_name o' = _species_name o /\ shape (ext o') = shape (ext o).

(** The feeding counter, [0] for what is not an animal. *)
Definition meals (o : organism) : nat :=
  match animal_of o with
  | Some a => _food_eaten a
  | None => 0
  end.

Definition steady (w w' : world) : Prop :=
  forall r, same_organism (heap w r) (heap w' r) /\ (meals (heap w r) <= meals (heap w' r))%nat.

Definition stay_sane (w w' : world) : Prop :=
  forall r, sane (heap w r) -> sane (heap w' r).

(** The number [get_population_count] reports for class [c]. *)
Definition population (c : pyclass) (w : world) (self : ref) : nat :=
  List.length (living c w (roster w self)).

Definition never_more (w w' : world) : Prop :=
  forall c self, (population c w' self <= population c w self)%nat.

Definition adds (op : operation) : bool :=
  match op with
  | AddOrganism _ _ => true
  | _ => false
  end.

Definition same_members (w w' : world) : Prop :=
  (forall r, _id (heap w' r) = _id (heap w r))
  /\ (forall s, roster w' s = roster w s).

Definition same_environments (w w' : world) : Prop := environments w' = environments w.

Definition same_sequence (w w' : world) : Prop :=
  forall s, __next_id (environments w' s) = __next_id (environments w s)
            /\ __name (environments w' s) = __name (environments w s).

(** The conditions the weather setter accepts. *)
Definition valid_weather (c : string) : Prop :=
  str_in c ["sunny"; "cloudy"; "rainy"] = true.

(** The operations that are methods of organisms. *)
Definition on_organisms (op : operation) : bool :=
  match op with
  | AssignEnergy _ _ | ConsumeEnergy _ _ | Photosynthesize _ _ | Hunt _ _ | Interact _ _ => true
  | _ => false
  end.

(** [simulate_day] in two parts: the statements that concern the
    environment itself (day counter, weather), and the four loops over the
    organisms with the final [return]. *)
Definition start_day (self : ref) : M unit :=
  Environment.assign self (fun e => with_day_count e (S (__day_count e))) ;;
  draw <- random_random ;;
  if Qlt_bool draw 0.3 then
    weather <- random_choice ["sunny"; "cloudy"; "rainy"] ;;
    Environment.assign self (fun e => with_weather e weather)
  else ret tt.

Definition run_day (self : ref) : M nat :=
  members <- Environment.organisms self ;;
  for_each members (Environment.grow self) ;;
  carnivores <- Environment.get_organisms_by_type self CCarnivore ;;
  herbivores <- Environment.get_organisms_by_type self CHerbivore ;;
  for_each carnivores (Environment.send_hunting herbivores) ;;
  herbivores <- select _is_alive herbivores ;;
  plants <- Environment.get_organisms_by_type self CPlant ;;
  for_each herbivores (Environment.send_hunting plants) ;;
  members <- Environment.organisms self ;;
  for_each members Environment.upkeep ;;
  Environment.day_count self.

(** The weather [simulate_day] leaves when it starts from generator [g] and
    weather [c]: resampled at the position of the second draw when the first
    draw is below [0.3]. *)
Definition weather_after_draw (g : rng) (c : string) : string :=
  if Qlt_bool (rand_float g (drawn g)) 0.3
  then nth (drawn_position (advance g) 3) ["sunny"; "cloudy"; "rainy"] "sunny"
  else c.

(** Between [w] and [w'], no organism outside [S] and no organism that is
    dead in [w] has changed. *)
Definition spared (S : list ref) (w w' : world) : Prop :=
  forall r, ~ In r S \/ _is_alive (heap w r) = false -> heap w' r = heap w r.

(** Started in a world where the collection of [self] is [S], the
    computation [m] spares what [S] requires, keeps the collection, and
    returns only values satisfying [Q]. *)
Definition guarded (S : list ref) (self : ref) {A : Type} (m : M A) (Q : A -> Prop) : Prop :=
  forall w, roster w self = S ->
            spared S w (after m w)
            /\ roster (after m w) self = S
            /\ (forall a, result m w = Return a -> Q a).

(** * Properties *)

(** ** Arithmetic of [max], [min] and comparisons *)

Lemma Qlt_bool_iff (a b : Q) : Qlt_bool a b = true <-> a < b.
Proof.
  unfold Qlt_bool. rewrite negb_true_iff.
  split; intro H.
  - apply Qnot_le_lt. intro Hle. apply Qle_bool_iff in Hle. congruence.
  - destruct (Qle_bool b a) eqn:E; [|reflexivity].
    apply Qle_bool_iff in E. lra.
Qed.

Lemma Qlt_bool_false_iff (a b : Q) : Qlt_bool a b = false <-> b <= a.
Proof.
  unfold Qlt_bool. rewrite negb_false_iff. apply Qle_bool_iff.
Qed.

Lemma Qle_bool_false_iff (a b : Q) : Qle_bool a b = false <-> ~ a <= b.
Proof.
  rewrite <- Qle_bool_iff. destruct (Qle_bool a b); split; congruence.
Qed.

Lemma py_max_0_nonneg (v : Q) : 0 <= py_max 0 v.
Proof.
  unfold py_max. destruct (Qlt_bool 0 v) eqn:E.
  - apply Qlt_bool_iff in E. lra.
  - lra.
Qed.

Lemma py_max_0_nonpos (v : Q) : v <= 0 -> py_max 0 v = 0.
Proof.
  intro H. unfold py_max.
  destruct (Qlt_bool 0 v) eqn:E; [|reflexivity].
  apply Qlt_bool_iff in E. lra.
Qed.

Lemma py_max_0_of_nonneg (v : Q) : 0 <= v -> py_max 0 v == v.
Proof.
  intro H. unfold py_max.
  destruct (Qlt_bool 0 v) eqn:E; [reflexivity|].
  apply Qlt_bool_false_iff in E. lra.
Qed.

Lemma py_min_le_l (a b : Q) : py_min a b <= a.
Proof.
  unfold py_min. destruct (Qlt_bool b a) eqn:E.
  - apply Qlt_bool_iff in E. lra.
  - lra.
Qed.

Lemma py_min_le_r (a b : Q) : py_min a b <= b.
Proof.
  unfold py_min. destruct (Qlt_bool b a) eqn:E.
  - lra.
  - apply Qlt_bool_false_iff in E. lra.
Qed.

Lemma py_min_nonneg (a b : Q) : 0 <= a -> 0 <= b -> 0 <= py_min a b.
Proof.
  intros Ha Hb. unfold py_min. destruct (Qlt_bool b a); assumption.
Qed.

Lemma py_min_first (a b : Q) : a <= b -> py_min a b = a.
Proof.
  intro H. unfold py_min. destruct (Qlt_bool b a) eqn:E; [|reflexivity].
  apply Qlt_bool_iff in E. lra.
Qed.

Lemma py_min_second (a b : Q) : b < a -> py_min a b = b.
Proof.
  intro H. unfold py_min. apply Qlt_bool_iff in H. now rewrite H.
Qed.

(** ** The energy setter on one object *)

Lemma store_energy_energy (v : Q) (o : organism) :
  _energy (store_energy v o) = py_max 0 v.
Proof.
  unfold store_energy. cbn. destruct (Qle_bool (py_max 0 v) 0); reflexivity.
Qed.

Lemma store_energy_alive (v : Q) (o : organism) :
  _is_alive (store_energy v o) = if Qlt_bool 0 v then _is_alive o else false.
Proof.
  unfold store_energy, py_max. cbn.
  destruct (Qlt_bool 0 v) eqn:E.
  - apply Qlt_bool_iff in E.
    destruct (Qle_bool v 0) eqn:E'; [|reflexivity].
    apply Qle_bool_iff in E'. lra.
  - reflexivity.
Qed.

Lemma store_energy_ext (v : Q) (o : organism) : ext (store_energy v o) = ext o.
Proof.
  unfold store_energy. cbn. destruct (Qle_bool (py_max 0 v) 0); reflexivity.
Qed.

Lemma store_energy_id (v : Q) (o : organism) : _id (store_energy v o) = _id o.
Proof.
  unfold store_energy. cbn. destruct (Qle_bool (py_max 0 v) 0); reflexivity.
Qed.

Lemma store_energy_species (v : Q) (o : organism) :
  _species_name (store_energy v o) = _species_name o.
Proof.
  unfold store_energy. cbn. destruct (Qle_bool (py_max 0 v) 0); reflexivity.
Qed.

Lemma store_same {A : Type} (h : ref -> A) (r : ref) (a : A) : store h r a r = a.
Proof. unfold store. now rewrite Nat.eqb_refl. Qed.

Lemma store_other {A : Type} (h : ref -> A) (r r' : ref) (a : A) :
  r' <> r -> store h r a r' = h r'.
Proof.
  intro H. unfold store. apply Nat.eqb_neq in H. now rewrite H.
Qed.

Lemma set_energy_run (self : ref) (v : Q) (w : world) :
  Organism.set_energy self v w
  = (Return tt, set_heap w (store (heap w) self (store_energy v (heap w self)))).
Proof. reflexivity. Qed.

Lemma consume_energy_run (self : ref) (amount : Q) (w : world) :
  Organism.consume_energy self amount w
  = (Return (_is_alive (store_energy (_energy (heap w self) - amount) (heap w self))),
     set_heap w (store (heap w) self
                       (store_energy (_energy (heap w self) - amount) (heap w self)))).
Proof.
  unfold Organism.consume_energy, Organism.energy, Organism.is_alive, read, gets, bind, ret.
  cbn. now rewrite store_same.
Qed.

(** C4. For an organism whose energy is non-negative, the energy stored by
    the setter or by [consume_energy] is never negative (the proof does not
    need the assumption on the energy held before); a value [<= 0] stores
    exactly [0] and clears [is_alive]; and [Organism("P1", "Test", 50, True)]
    followed by [energy = -10] has energy [0] and is dead. *)
Theorem energy_never_negative (w : world) (self : ref) :
  0 <= _energy (heap w self) ->
  (forall value,
      let w' := after (Organism.set_energy self value) w in
      0 <= _energy (heap w' self)
      /\ (value <= 0 -> _energy (heap w' self) = 0 /\ _is_alive (heap w' self) = false))
  /\ (forall amount,
         let w' := after (Organism.consume_energy self amount) w in
         0 <= _energy (heap w' self)
         /\ result (Organism.consume_energy self amount) w
            = Return (_is_alive (heap w' self)))
  /\ (forall x w0,
         result (p <- Organism.__init__ x (PyStr "P1") "Test" 50 true ;;
                 Organism.set_energy p (-10) ;;
                 read p) w0
         = Return (mk_organism "P1" "Test" 0 false x)).
Proof.
  intros _. split; [|split].
  - intros value w'. subst w'. unfold after. rewrite set_energy_run. cbn.
    rewrite store_same, store_energy_energy, store_energy_alive. split.
    + apply py_max_0_nonneg.
    + intro Hv. split.
      * now apply py_max_0_nonpos.
      * destruct (Qlt_bool 0 value) eqn:E; [|reflexivity].
        apply Qlt_bool_iff in E. lra.
  - intros amount w'. subst w'. unfold after, result.
    rewrite consume_energy_run. cbn. rewrite store_same, store_energy_energy.
    split; [apply py_max_0_nonneg | reflexivity].
  - intros x w0. unfold result, bind, Organism.__init__, Organism.set_energy, update, read, gets.
    cbn. now rewrite !store_same.
Qed.

Lemma energy_never_negative_witness :
  0 <= _energy (heap (boot (constant_rng 0 0)) 0%nat)
  /\ 0 <= _energy (heap (after (Organism.set_energy 0%nat (-10)) (boot (constant_rng 0 0))) 0%nat).
Proof.
  assert (H : 0 <= _energy (heap (boot (constant_rng 0 0)) 0%nat)) by (cbn; lra).
  split; [exact H|].
  exact (proj1 (proj1 (energy_never_negative (boot (constant_rng 0 0)) 0%nat H) (-10))).
Defined.

(** ** The constructor *)

(** C10. [Organism.__init__] raises [InvalidInputException] exactly when
    [id] is not a non-empty string, and then creates nothing; with a valid
    [id] it allocates an object holding the species name, energy and alive
    flag exactly as passed, whatever they are. *)
Theorem organism_init_validation (x : extension) (id : pyval) (species_name : string)
        (energy : Q) (is_alive : bool) (w : world) :
  let call := Organism.__init__ x id species_name energy is_alive in
  (result call w = Raise InvalidInputException <-> ~ nonempty_str id)
  /\ (~ nonempty_str id -> after call w = w)
  /\ (forall s, id = PyStr s -> s <> "" ->
        result call w = Return (next_ref w)
        /\ heap (after call w) (next_ref w) = mk_organism s species_name energy is_alive x
        /\ organism_count (after call w) = (organism_count w + 1)%Z).
Proof.
  intro call. subst call. unfold result, after, Organism.__init__, nonempty_str.
  destruct id as [ | b | z | q | s]; cbn;
    try (split; [split; [intros _ (s & H & _); discriminate | reflexivity]
                | split; [reflexivity | intros s H; discriminate]]).
  destruct (String.eqb_spec s "") as [-> | Hne]; cbn.
  - split; [|split].
    + split; [intros _ (s & H & Hs); inversion H; subst; now apply Hs | reflexivity].
    + reflexivity.
    + intros s H Hs. inversion H; subst. now contradiction Hs.
  - split; [|split].
    + split; [discriminate | intro H; exfalso; apply H; now exists s].
    + intro H. exfalso. apply H. now exists s.
    + intros s' H _. inversion H; subst. now rewrite store_same.
Qed.

(** An organism with negative energy, and one alive with energy [0], are
    both constructed. *)
Lemma organism_init_validation_witness :
  heap (after (Organism.__init__ OrganismOnly (PyStr "N1") "Moss" (-5) true)
              (boot (constant_rng 0 0))) 0%nat
  = mk_organism "N1" "Moss" (-5) true OrganismOnly
  /\ heap (after (Organism.__init__ OrganismOnly (PyStr "Z1") "Moss" 0 true)
                 (boot (constant_rng 0 0))) 0%nat
     = mk_organism "Z1" "Moss" 0 true OrganismOnly.
Proof.
  split.
  - refine (proj1 (proj2 (proj2 (proj2
      (organism_init_validation OrganismOnly (PyStr "N1") "Moss" (-5) true
                                (boot (constant_rng 0 0)))) "N1" eq_refl _))).
    discriminate.
  - refine (proj1 (proj2 (proj2 (proj2
      (organism_init_validation OrganismOnly (PyStr "Z1") "Moss" 0 true
                                (boot (constant_rng 0 0)))) "Z1" eq_refl _))).
    discriminate.
Defined.

(** ** Photosynthesis *)

Lemma weather_factor_cases (c : string) :
  dict_get weather_factors c 0.5
  = if ("sunny" =? c)%string then 1.0
    else if ("cloudy" =? c)%string then 0.6
    else if ("rainy" =? c)%string then 0.3
    else 0.5.
Proof. reflexivity. Qed.

Lemma photosynthesize_run (self : ref) (weather : string) (g : Q) (w : world) :
  ext (heap w self) = PlantPart g ->
  let y := 10 * g * dict_get weather_factors weather 0.5 in
  Plant.photosynthesize self weather w
  = (Return y,
     set_heap w (store (heap w) self (store_energy (_energy (heap w self) + y) (heap w self)))).
Proof.
  intros Hg y.
  unfold Plant.photosynthesize, Plant.growth_rate, Organism.energy, Organism.set_energy,
    update, read, gets, bind, ret.
  cbn. rewrite Hg. reflexivity.
Qed.

(** C3. For a Plant of growth rate [g], [photosynthesize(w)] returns
    [10 * g * f(w)] with [f] as tabulated and [0.5] for any other weather,
    and the setter receives the old energy plus that yield: the energy
    becomes exactly their sum whenever the sum is not negative (always so
    for a non-negative energy and growth rate). Growth rate [0.2] under
    ["sunny"] yields [2]; for one positive growth rate the yields are
    ordered sunny > cloudy > rainy. *)
Theorem photosynthesize_yield (w : world) (self : ref) (g : Q) (weather : string) :
  ext (heap w self) = PlantPart g ->
  let f := fun c => dict_get weather_factors c 0.5 in
  let y := 10 * g * f weather in
  let e := _energy (heap w self) in
  let w' := after (Plant.photosynthesize self weather) w in
  result (Plant.photosynthesize self weather) w = Return y
  /\ _energy (heap w' self) = py_max 0 (e + y)
  /\ (0 <= e + y -> _energy (heap w' self) == e + y)
  /\ (0 <= e -> 0 <= g -> _energy (heap w' self) == e + y)
  /\ (f "sunny" = 1.0 /\ f "cloudy" = 0.6 /\ f "rainy" = 0.3)
  /\ (weather <> "sunny" -> weather <> "cloudy" -> weather <> "rainy" -> f weather = 0.5)
  /\ (g == 0.2 -> weather = "sunny" -> y == 2)
  /\ (0 < g -> 10 * g * f "cloudy" < 10 * g * f "sunny"
               /\ 10 * g * f "rainy" < 10 * g * f "cloudy").
Proof.
  intros Hg f y e w'. subst w'. unfold result, after.
  rewrite (photosynthesize_run self weather g w Hg). cbn [fst snd].
  assert (Hother : weather <> "sunny" -> weather <> "cloudy" -> weather <> "rainy" ->
                   f weather = 0.5).
  { intros H1 H2 H3. subst f. cbv beta. rewrite weather_factor_cases.
    destruct (String.eqb_spec "sunny" weather); [congruence|].
    destruct (String.eqb_spec "cloudy" weather); [congruence|].
    destruct (String.eqb_spec "rainy" weather); [congruence|].
    reflexivity. }
  assert (Hnn : 0 <= f weather).
  { subst f. cbv beta. rewrite weather_factor_cases.
    destruct (String.eqb "sunny" weather); [lra|].
    destruct (String.eqb "cloudy" weather); [lra|].
    destruct (String.eqb "rainy" weather); lra. }
  assert (Hsum : 0 <= e + y -> _energy (heap (set_heap w (store (heap w) self
                   (store_energy (e + y) (heap w self)))) self) == e + y).
  { intro H. cbn. rewrite store_same, store_energy_energy. now apply py_max_0_of_nonneg. }
  repeat split.
  - cbn. now rewrite store_same, store_energy_energy.
  - exact Hsum.
  - intros He Hg0. apply Hsum. subst y. nra.
  - exact Hother.
  - intros Hg2 ->. subst y f. cbn. rewrite Hg2. reflexivity.
  - subst f. cbn. lra.
  - subst f. cbn. lra.
Qed.

Lemma photosynthesize_yield_witness :
  result (p <- Plant.__init__ (PyStr "P001") "Oak Tree" 100 true 0.2 ;;
          Plant.photosynthesize p "sunny") (boot (constant_rng 0 0))
  = Return (10 * 0.2 * 1.0)
  /\ 10 * 0.2 * 1.0 == 2.
Proof.
  pose (w := after (Plant.__init__ (PyStr "P001") "Oak Tree" 100 true 0.2)
                   (boot (constant_rng 0 0))).
  assert (Hp : ext (heap w 0%nat) = PlantPart 0.2) by reflexivity.
  pose proof (photosynthesize_yield w 0%nat 0.2 "sunny" Hp) as H. cbn zeta in H.
  destruct H as (Hres & _ & _ & _ & _ & _ & Hy & _).
  split.
  - exact Hres.
  - apply Hy; reflexivity.
Defined.

(** ** The base [hunt] *)

(** C9, as stated, fails: on a plain [Animal] the call does not evaluate to
    the boolean [False]. *)
Lemma base_hunt_result_is_not_False :
  class_of (heap lone_animal_world 0%nat) = CAnimal
  /\ result (hunt 0%nat [0%nat]) lone_animal_world <> Return (PyBool false).
Proof.
  split; [reflexivity|]. cbv. discriminate.
Qed.

(** C9, amended. On an object whose class is [Animal] itself, [hunt] leaves
    the whole store as it was (no energy, alive flag or feeding counter
    moves) and evaluates to [None], which is falsy but is not [False]. *)
Theorem base_hunt_does_nothing (w : world) (self : ref) (prey_organisms : list ref) :
  class_of (heap w self) = CAnimal ->
  hunt self prey_organisms w = (Return PyNone, w)
  /\ Animal.hunt self prey_organisms w = (Return PyNone, w)
  /\ truthy PyNone = false
  /\ PyNone <> PyBool false.
Proof.
  intro Hc. repeat split; try discriminate.
  unfold hunt, read, gets, bind. cbn. now rewrite Hc.
Qed.

Lemma base_hunt_does_nothing_witness :
  hunt 0%nat [0%nat] lone_animal_world = (Return PyNone, lone_animal_world).
Proof.
  exact (proj1 (base_hunt_does_nothing lone_animal_world 0%nat [0%nat] eq_refl)).
Defined.

(** ** [Plant.interact] *)

(** C8 on the code: a living plant interacting with a dead herbivore
    reports success and moves [25] units of energy to it (the plant goes from
    [100] to [75], the herbivore from [0] to [25]); the herbivore stays
    dead. *)
Theorem plant_interact_feeds_dead_herbivore :
  let w := plant_and_dead_herbivore in
  let w' := after (Plant.interact 0%nat 1%nat) w in
  isinstance (heap w 1%nat) CHerbivore = true
  /\ _is_alive (heap w 1%nat) = false
  /\ _is_alive (heap w 0%nat) = true
  /\ result (Plant.interact 0%nat 1%nat) w = Return true
  /\ _energy (heap w' 0%nat) == 75
  /\ _energy (heap w' 1%nat) == 25
  /\ _is_alive (heap w' 1%nat) = false.
Proof.
  cbv zeta. repeat split; vm_compute; reflexivity.
Qed.

(** What the guard of [Plant.interact] does refuse: a target that is not a
    Herbivore, or a dead plant. *)
Lemma plant_interact_refuses (w : world) (self other : ref) :
  isinstance (heap w other) CHerbivore = false \/ _is_alive (heap w self) = false ->
  Plant.interact self other w = (Return false, w).
Proof.
  intros [H | H]; unfold Plant.interact, read, gets, bind; cbn; rewrite H.
  - reflexivity.
  - now rewrite andb_false_r.
Qed.

(** ** [Environment.add_organism] *)

Lemma add_organism_run (self organism : ref) (w : world) :
  Environment.add_organism self organism w
  = if existsb (fun org => (_id (heap w org) =? _id (heap w organism))%string)
               (__organisms (environments w self))
    then (Return false, w)
    else (Return true,
          set_environments w
            (store (environments w) self
               (with_organisms (environments w self)
                  (__organisms (environments w self) ++ [organism])))).
Proof.
  unfold Environment.add_organism, Environment.attributes, Organism.id, read, gets, bind.
  cbn.
  destruct (existsb _ _); reflexivity.
Qed.

Lemma id_present_existsb (w : world) (self organism : ref) :
  existsb (fun org => (_id (heap w org) =? _id (heap w organism))%string)
          (__organisms (environments w self)) = true
  <-> id_present w self organism.
Proof.
  unfold id_present. rewrite existsb_exists.
  split; intros (r & Hin & Hid); exists r; split; auto.
  - now apply String.eqb_eq.
  - now apply String.eqb_eq.
Qed.

(** C7. [add_organism(o)] returns [False] and changes nothing when an
    organism with [o]'s identifier is already in the collection; otherwise
    it appends [o] and returns [True]. Hence a second organism with the same
    identifier is always rejected: the collection and the population counts
    after the second call are those after the first. *)
Theorem add_organism_rejects_duplicates (w : world) (self organism : ref) :
  let add := Environment.add_organism self in
  (id_present w self organism -> add organism w = (Return false, w))
  /\ (~ id_present w self organism ->
      result (add organism) w = Return true
      /\ __organisms (environments (after (add organism) w) self)
         = __organisms (environments w self) ++ [organism]
      /\ heap (after (add organism) w) = heap w)
  /\ (forall second,
         _id (heap w second) = _id (heap w organism) ->
         let w1 := after (add organism) w in
         let w2 := after (add second) w1 in
         result (add second) w1 = Return false
         /\ w2 = w1
         /\ List.length (__organisms (environments w2 self))
            = List.length (__organisms (environments w1 self))
         /\ result (Environment.get_population_count self) w2
            = result (Environment.get_population_count self) w1).
Proof.
  intro add. subst add.
  assert (Hdup : forall w0 o, id_present w0 self o ->
                   Environment.add_organism self o w0 = (Return false, w0)).
  { intros w0 o H. rewrite add_organism_run.
    apply id_present_existsb in H. now rewrite H. }
  split; [apply Hdup | split].
  - intro Hno. unfold result, after. rewrite add_organism_run.
    destruct (existsb _ _) eqn:E.
    + exfalso. apply Hno. now apply id_present_existsb.
    + cbn. now rewrite store_same.
  - intros second Hid w1 w2.
    assert (Hpresent : id_present w1 self second).
    { subst w1. unfold after. rewrite add_organism_run.
      destruct (existsb _ _) eqn:E.
      - apply id_present_existsb in E. destruct E as (r & Hin & Hr).
        exists r. cbn. split; [exact Hin | congruence].
      - exists organism. cbn. rewrite store_same. cbn. split; [|congruence].
        apply in_or_app. right. now left. }
    assert (Hw : w2 = w1).
    { subst w2. unfold after. now rewrite (Hdup w1 second Hpresent). }
    repeat split.
    + unfold result. now rewrite (Hdup w1 second Hpresent).
    + exact Hw.
    + now rewrite Hw.
    + now rewrite Hw.
Qed.

Lemma add_organism_rejects_duplicates_witness :
  id_present forest_with_one_plant 0%nat 2%nat
  /\ Environment.add_organism 0%nat 2%nat forest_with_one_plant
     = (Return false, forest_with_one_plant).
Proof.
  assert (H : id_present forest_with_one_plant 0%nat 2%nat).
  { exists 1%nat. split; [now left | reflexivity]. }
  split; [exact H|].
  exact (proj1 (add_organism_rejects_duplicates forest_with_one_plant 0%nat 2%nat) H).
Defined.

(** ** Hunting *)

Lemma living_In (c : pyclass) (w : world) (l : list ref) (r : ref) :
  In r (living c w l) ->
  In r l /\ isinstance (heap w r) c = true /\ _is_alive (heap w r) = true.
Proof.
  unfold living. rewrite filter_In, andb_true_iff. tauto.
Qed.

Lemma bind_run {A B : Type} (m : M A) (f : A -> M B) (w w1 : world) (a : A) :
  m w = (Return a, w1) -> bind m f w = f a w1.
Proof. intro H. unfold bind. now rewrite H. Qed.

Lemma bind_raise {A B : Type} (m : M A) (f : A -> M B) (w w1 : world) (e : exn) :
  m w = (Raise e, w1) -> bind m f w = (Raise e, w1).
Proof. intro H. unfold bind. now rewrite H. Qed.

Lemma random_choice_run {A : Type} (seq : list A) (w : world) :
  seq <> [] ->
  exists x,
    nth_error seq (drawn_position (gen w) (List.length seq)) = Some x
    /\ random_choice seq w = (Return x, set_gen w (advance (gen w))).
Proof.
  intro Hne. destruct seq as [|x0 seq']; [congruence|].
  exists (nth (drawn_position (gen w) (List.length (x0 :: seq'))) (x0 :: seq') x0).
  split; [|reflexivity].
  apply nth_error_nth'. unfold drawn_position.
  apply Nat.mod_upper_bound. discriminate.
Qed.

Lemma isinstance_herbivore (o : organism) :
  isinstance o CHerbivore = true -> exists a p, ext o = HerbivorePart a p.
Proof.
  unfold isinstance, class_of. destruct (ext o) eqn:E; cbn; try discriminate.
  intros _. eauto.
Qed.

Lemma isinstance_plant (o : organism) :
  isinstance o CPlant = true -> exists g, ext o = PlantPart g.
Proof.
  unfold isinstance, class_of. destruct (ext o) eqn:E; cbn; try discriminate.
  intros _. eauto.
Qed.

Lemma ext_differs (w : world) (r r' : ref) (x x' : extension) :
  ext (heap w r) = x -> ext (heap w r') = x' -> class_of (heap w r) <> class_of (heap w r') ->
  r <> r'.
Proof. intros H H' Hc ->. now apply Hc. Qed.

(** What the accessors and primitive statements evaluate to. *)

Lemma is_alive_run (r : ref) (w : world) :
  Organism.is_alive r w = (Return (_is_alive (heap w r)), w).
Proof. reflexivity. Qed.

Lemma energy_run (r : ref) (w : world) :
  Organism.energy r w = (Return (_energy (heap w r)), w).
Proof. reflexivity. Qed.

Lemma select_run (p : organism -> bool) (l : list ref) (w : world) :
  select p l w = (Return (filter (fun r => p (heap w r)) l), w).
Proof. reflexivity. Qed.

Lemma attributes_run (r : ref) (a : animal) (w : world) :
  animal_of (heap w r) = Some a -> Animal.attributes r w = (Return a, w).
Proof.
  intro H. unfold Animal.attributes, read, gets, bind. cbn. now rewrite H.
Qed.

Lemma speed_run (r : ref) (a : animal) (w : world) :
  animal_of (heap w r) = Some a -> Animal.speed r w = (Return (_speed a), w).
Proof.
  intro H. unfold Animal.speed. now rewrite (bind_run _ _ _ _ _ (attributes_run r a w H)).
Qed.

Lemma count_meal_run (r : ref) (a : animal) (w : world) :
  animal_of (heap w r) = Some a ->
  Animal.count_meal r w = (Return tt, set_heap w (store (heap w) r (feed (heap w r)))).
Proof.
  intro H. unfold Animal.count_meal.
  now rewrite (bind_run _ _ _ _ _ (attributes_run r a w H)).
Qed.

Lemma hunting_efficiency_run (r : ref) (a : animal) (h : Q) (w : world) :
  ext (heap w r) = CarnivorePart a h -> Carnivore.hunting_efficiency r w = (Return h, w).
Proof.
  intro H. unfold Carnivore.hunting_efficiency, read, gets, bind. cbn. now rewrite H.
Qed.

Lemma plant_preference_run (r : ref) (a : animal) (p : string) (w : world) :
  ext (heap w r) = HerbivorePart a p -> Herbivore.plant_preference r w = (Return p, w).
Proof.
  intro H. unfold Herbivore.plant_preference, read, gets, bind. cbn. now rewrite H.
Qed.

Lemma random_random_run (w : world) :
  random_random w = (Return (rand_float (gen w) (drawn (gen w))), set_gen w (advance (gen w))).
Proof. reflexivity. Qed.

Ltac run_with H := rewrite (bind_run _ _ _ _ _ H); cbv beta.

Lemma carnivore_hunt_run (w : world) (self target : ref) (prey : list ref)
      (a ta : animal) (eff : Q) (tp : string) :
  ext (heap w self) = CarnivorePart a eff ->
  _is_alive (heap w self) = true ->
  nth_error (living CHerbivore w prey)
            (drawn_position (gen w) (List.length (living CHerbivore w prey))) = Some target ->
  ext (heap w target) = HerbivorePart ta tp ->
  let me := heap w self in
  let w2 := set_gen w (advance (advance (gen w))) in
  let gain := py_min (_energy (heap w target) * 0.7) 50 in
  Carnivore.hunt self prey w
  = if Qeq_bool (_speed ta + 1) 0 then (Raise ZeroDivisionError, set_gen w (advance (gen w)))
    else if Qle_bool (rand_float (gen w) (S (drawn (gen w))))
                     (eff * (_speed a / (_speed ta + 1)))
    then (Return true,
          set_heap w2
            (store (store (store (heap w) self (store_energy (_energy me + gain) me))
                          target (store_energy 0 (heap w target)))
                   self (feed (store_energy (_energy me + gain) me))))
    else (Return false,
          set_heap w2 (store (heap w) self (store_energy (_energy me - 5) me))).
Proof.
  intros Hc Halive Hnth Ht me w2 gain.
  assert (Hneq : target <> self).
  { intros ->. rewrite Hc in Ht. discriminate. }
  assert (Hne : living CHerbivore w prey <> []).
  { intro E. rewrite E in Hnth. now destruct (drawn_position _ _). }
  destruct (random_choice_run (living CHerbivore w prey) w Hne) as (x & Hx & Hchoice).
  rewrite Hnth in Hx. injection Hx as <-.
  assert (Ha : animal_of (heap w self) = Some a) by (unfold animal_of; now rewrite Hc).
  assert (Hta : animal_of (heap w target) = Some ta) by (unfold animal_of; now rewrite Ht).
  unfold Carnivore.hunt.
  run_with (is_alive_run self w). rewrite Halive. cbn [negb].
  run_with (select_run (fun org => isinstance org CHerbivore && _is_alive org) prey w).
  fold (living CHerbivore w prey).
  destruct (living CHerbivore w prey) as [|t0 rest] eqn:El; [congruence|].
  run_with Hchoice.
  set (w1 := set_gen w (advance (gen w))).
  run_with (hunting_efficiency_run self a eff w1 Hc).
  run_with (speed_run self a w1 Ha).
  run_with (speed_run target ta w1 Hta).
  unfold py_div. destruct (Qeq_bool (_speed ta + 1) 0); [reflexivity|].
  unfold ret at 1. unfold bind at 1.
  run_with (random_random_run w1).
  change (rand_float (gen w1) (drawn (gen w1))) with (rand_float (gen w) (S (drawn (gen w)))).
  change (set_gen w1 (advance (gen w1))) with w2.
  assert (Hw2 : heap w2 = heap w) by reflexivity.
  destruct (Qle_bool _ _).
  - run_with (energy_run target w2).
    run_with (energy_run self w2).
    run_with (set_energy_run self (_energy (heap w2 self)
                                   + py_min (_energy (heap w2 target) * 0.7) 50) w2).
    match goal with |- bind _ _ ?w3 = _ => set (w3' := w3) end.
    run_with (set_energy_run target 0 w3').
    match goal with |- bind _ _ ?w4 = _ => set (w4' := w4) end.
    assert (Ha4 : animal_of (heap w4' self) = Some a).
    { subst w4' w3'. cbn [heap set_heap]. rewrite (store_other _ target self) by congruence.
      rewrite store_same. unfold animal_of. now rewrite store_energy_ext, Hw2, Hc. }
    run_with (count_meal_run self a w4' Ha4).
    unfold ret. subst w4' w3'. cbn [heap set_heap].
    rewrite (store_other _ target self) by congruence.
    rewrite (store_other _ self target) by congruence.
    rewrite !store_same, !Hw2. reflexivity.
  - run_with (consume_energy_run self 5 w2). rewrite !Hw2. reflexivity.
Qed.

Lemma carnivore_hunt_refuses (w : world) (self : ref) (prey : list ref) :
  _is_alive (heap w self) = false \/ living CHerbivore w prey = [] ->
  Carnivore.hunt self prey w = (Return false, w).
Proof.
  intro H. unfold Carnivore.hunt.
  run_with (is_alive_run self w).
  destruct (_is_alive (heap w self)); cbn [negb]; [|reflexivity].
  run_with (select_run (fun org => isinstance org CHerbivore && _is_alive org) prey w).
  fold (living CHerbivore w prey).
  destruct H as [H | H]; [discriminate|]. now rewrite H.
Qed.

(** C1. A dead carnivore, or one offered no living Herbivore, gets [False]
    and nothing changes. Otherwise the target is the living herbivore at the
    position the generator draws, and with [r] the next value of
    [random.random()]: if [r <= hunting_efficiency * (speed / (target.speed + 1))]
    the carnivore's energy is set to its energy plus
    [min(0.7 * target energy, 50)] (exactly the sum for non-negative
    energies: plus [0.7 * target energy] while that is at most [50], plus
    [50] above), the target's energy becomes [0] and it dies, the feeding
    counter [_food_eaten] becomes its successor while speed and diet stay,
    and the result is [True]; otherwise [consume_energy(5)] runs on the
    carnivore, the counter stays and the result is [False]. The quotient
    exists unless the target's speed is [-1], where the call raises
    [ZeroDivisionError]. *)
Theorem carnivore_hunt_spec (w : world) (self : ref) (prey : list ref)
        (a : animal) (eff : Q) :
  ext (heap w self) = CarnivorePart a eff ->
  let me := heap w self in
  let available := living CHerbivore w prey in
  let run := Carnivore.hunt self prey in
  (_is_alive me = false \/ available = [] -> run w = (Return false, w))
  /\ (_is_alive me = true -> available <> [] ->
      exists target ta tp,
        nth_error available (drawn_position (gen w) (List.length available)) = Some target
        /\ In target prey
        /\ ext (heap w target) = HerbivorePart ta tp
        /\ _is_alive (heap w target) = true
        /\ (_speed ta + 1 == 0 -> result run w = Raise ZeroDivisionError)
        /\ (~ _speed ta + 1 == 0 ->
            let r := rand_float (gen w) (S (drawn (gen w))) in
            let chance := eff * (_speed a / (_speed ta + 1)) in
            let gain := py_min (_energy (heap w target) * 0.7) 50 in
            let w' := after run w in
            (r <= chance ->
               result run w = Return true
               /\ _energy (heap w' self) = py_max 0 (_energy me + gain)
               /\ (0 <= _energy me -> 0 <= _energy (heap w target) ->
                   _energy (heap w' self) == _energy me + gain)
               /\ (_energy (heap w target) * 0.7 <= 50 ->
                   gain = _energy (heap w target) * 0.7)
               /\ (50 < _energy (heap w target) * 0.7 -> gain = 50)
               /\ (0 <= _energy me -> 0 <= _energy (heap w target) ->
                   _energy (heap w target) * 0.7 <= 50 ->
                   _energy (heap w' self) == _energy me + _energy (heap w target) * 0.7)
               /\ (0 <= _energy me -> 50 < _energy (heap w target) * 0.7 ->
                   _energy (heap w' self) == _energy me + 50)
               /\ _energy (heap w' target) = 0
               /\ _is_alive (heap w' target) = false
               /\ animal_of (heap w' self)
                  = Some (mk_animal (_speed a) (_diet_type a) (S (_food_eaten a)))
               /\ (forall r', r' <> self -> r' <> target -> heap w' r' = heap w r'))
            /\ (~ r <= chance ->
                result run w = Return false
                /\ heap w' self = store_energy (_energy me - 5) me
                /\ _energy (heap w' self) = py_max 0 (_energy me - 5)
                /\ animal_of (heap w' self) = Some a
                /\ (forall r', r' <> self -> heap w' r' = heap w r')))).
Proof.
  intros Hc me available run. split.
  - apply carnivore_hunt_refuses.
  - intros Halive Hne.
    destruct (random_choice_run available w Hne) as (target & Hnth & _).
    assert (Hin : In target available) by (eapply nth_error_In; eauto).
    apply living_In in Hin. destruct Hin as (Hprey & Hinst & Htalive).
    destruct (isinstance_herbivore _ Hinst) as (ta & tp & Ht).
    exists target, ta, tp.
    assert (Hneq : target <> self).
    { intros ->. rewrite Hc in Ht. discriminate. }
    pose proof (carnivore_hunt_run w self target prey a ta eff tp Hc Halive Hnth Ht) as Hrun.
    cbv zeta in Hrun. fold run in Hrun. fold me in Hrun.
    repeat (split; [assumption|]).
    split.
    + intro Hz. apply Qeq_bool_iff in Hz. unfold result. rewrite Hrun, Hz. reflexivity.
    + intros Hnz r chance gain w'.
      assert (Hz : Qeq_bool (_speed ta + 1) 0 = false).
      { destruct (Qeq_bool (_speed ta + 1) 0) eqn:E; [|reflexivity].
        apply Qeq_bool_iff in E. contradiction. }
      rewrite Hz in Hrun. fold r chance gain in Hrun.
      split.
      * intro Hle. apply Qle_bool_iff in Hle. rewrite Hle in Hrun.
        subst w'. unfold result, after. rewrite Hrun. cbn [fst snd heap set_heap].
        assert (Henergy : _energy (feed (store_energy (_energy me + gain) me))
                          = py_max 0 (_energy me + gain)).
        { unfold feed. rewrite store_energy_ext. subst me. rewrite Hc. cbn.
          apply store_energy_energy. }
        assert (Hsum : 0 <= _energy me -> 0 <= gain ->
                       _energy (store (store (store (heap w) self
                                  (store_energy (_energy me + gain) me)) target
                                  (store_energy 0 (heap w target))) self
                                  (feed (store_energy (_energy me + gain) me)) self)
                       == _energy me + gain).
        { intros Hme Hg. rewrite store_same, Henergy. apply py_max_0_of_nonneg. lra. }
        repeat split.
        -- now rewrite store_same.
        -- intros Hme Hprey0. apply Hsum; [exact Hme|].
           subst gain; apply py_min_nonneg; lra.
        -- intro Hcap. subst gain. now apply py_min_first.
        -- intro Hcap. subst gain. now apply py_min_second.
        -- intros Hme Hprey0 Hcap. rewrite Hsum; [|exact Hme|].
           ++ subst gain. rewrite py_min_first by exact Hcap. reflexivity.
           ++ subst gain. apply py_min_nonneg; lra.
        -- intros Hme Hcap. rewrite Hsum; [|exact Hme|].
           ++ subst gain. rewrite py_min_second by exact Hcap. reflexivity.
           ++ subst gain. rewrite py_min_second by exact Hcap. lra.
        -- rewrite (store_other _ self target) by congruence.
           rewrite store_same. now rewrite store_energy_energy.
        -- rewrite (store_other _ self target) by congruence.
           rewrite store_same. now rewrite store_energy_alive.
        -- rewrite store_same. unfold feed, animal_of. rewrite store_energy_ext.
           subst me. rewrite Hc. cbn. reflexivity.
        -- intros r' H1 H2. now rewrite !store_other by assumption.
      * intro Hnle. apply Qle_bool_false_iff in Hnle. rewrite Hnle in Hrun.
        subst w'. unfold result, after. rewrite Hrun. cbn [fst snd heap set_heap].
        repeat split.
        -- now rewrite store_same.
        -- rewrite store_same. apply store_energy_energy.
        -- rewrite store_same. unfold animal_of. rewrite store_energy_ext.
           subst me. now rewrite Hc.
        -- intros r' H1. now rewrite store_other by assumption.
Qed.

(** With a draw equal to the success chance [0.7 * (5 / 4)], the hunt
    succeeds: from a rabbit of energy [70] the wolf gains
    [min(0.7 * 70, 50) = 49], from one of energy [100] it gains the cap,
    [50]; either way its counter goes from [0] to [1]. *)
Lemma carnivore_hunt_spec_witness :
  let w := wolf_and_rabbit (0.7 * (5 / (3 + 1))) in
  let big := wolf_and_big_rabbit (0.7 * (5 / (3 + 1))) in
  (result (Carnivore.hunt 0%nat [1%nat]) w = Return true
   /\ _energy (heap (after (Carnivore.hunt 0%nat [1%nat]) w) 0%nat) == 80 + 49)
  /\ animal_of (heap (after (Carnivore.hunt 0%nat [1%nat]) w) 0%nat)
     = Some (mk_animal 5 "carnivore" 1)
  /\ result (Carnivore.hunt 0%nat [1%nat]) big = Return true
  /\ _energy (heap (after (Carnivore.hunt 0%nat [1%nat]) big) 0%nat) == 80 + 50
  /\ animal_of (heap (after (Carnivore.hunt 0%nat [1%nat]) big) 0%nat)
     = Some (mk_animal 5 "carnivore" 1).
Proof.
  intros w big.
  assert (Hnz : ~ 3 + 1 == 0) by (intro E; vm_compute in E; discriminate).
  split; [|split].
  - pose proof (carnivore_hunt_spec w 0%nat [1%nat] (mk_animal 5 "carnivore" 0) 0.7 eq_refl)
      as [_ H].
    destruct (H eq_refl ltac:(discriminate))
      as (target & ta & tp & Hnth & _ & Ht & _ & _ & Hgo).
    vm_compute in Hnth. injection Hnth as <-.
    vm_compute in Ht. injection Ht as <- <-.
    destruct (Hgo Hnz) as [Hyes _].
    assert (Hdraw : rand_float (gen w) (S (drawn (gen w))) <= 0.7 * (5 / (3 + 1))).
    { vm_compute. discriminate. }
    destruct (Hyes Hdraw) as (Hres & _ & Hsum & _).
    split; [exact Hres|].
    rewrite Hsum.
    + vm_compute. reflexivity.
    + vm_compute. discriminate.
    + vm_compute. discriminate.
  - pose proof (carnivore_hunt_spec w 0%nat [1%nat] (mk_animal 5 "carnivore" 0) 0.7 eq_refl)
      as [_ H].
    destruct (H eq_refl ltac:(discriminate))
      as (target & ta & tp & Hnth & _ & Ht & _ & _ & Hgo).
    vm_compute in Hnth. injection Hnth as <-.
    vm_compute in Ht. injection Ht as <- <-.
    destruct (Hgo Hnz) as [Hyes _].
    assert (Hdraw : rand_float (gen w) (S (drawn (gen w))) <= 0.7 * (5 / (3 + 1))).
    { vm_compute. discriminate. }
    destruct (Hyes Hdraw) as (_ & _ & _ & _ & _ & _ & _ & _ & _ & Hfed & _).
    exact Hfed.
  - pose proof (carnivore_hunt_spec big 0%nat [1%nat] (mk_animal 5 "carnivore" 0) 0.7 eq_refl)
      as [_ H].
    destruct (H eq_refl ltac:(discriminate))
      as (target & ta & tp & Hnth & _ & Ht & _ & _ & Hgo).
    vm_compute in Hnth. injection Hnth as <-.
    vm_compute in Ht. injection Ht as <- <-.
    destruct (Hgo Hnz) as [Hyes _].
    assert (Hdraw : rand_float (gen big) (S (drawn (gen big))) <= 0.7 * (5 / (3 + 1))).
    { vm_compute. discriminate. }
    destruct (Hyes Hdraw) as (Hres & _ & _ & _ & _ & _ & Hcap & _ & _ & Hfed & _).
    split; [exact Hres|]. split; [|exact Hfed].
    rewrite Hcap.
    + vm_compute. reflexivity.
    + vm_compute. discriminate.
    + vm_compute. reflexivity.
Defined.

(** ** Foraging *)

Lemma herbivore_hunt_refuses (w : world) (self : ref) (prey : list ref) :
  _is_alive (heap w self) = false \/ living CPlant w prey = [] ->
  Herbivore.hunt self prey w = (Return false, w).
Proof.
  intro H. unfold Herbivore.hunt.
  run_with (is_alive_run self w).
  destruct (_is_alive (heap w self)); cbn [negb]; [|reflexivity].
  run_with (select_run (fun org => isinstance org CPlant && _is_alive org) prey w).
  fold (living CPlant w prey).
  destruct H as [H | H]; [discriminate|]. now rewrite H.
Qed.

Lemma herbivore_hunt_run (w : world) (self target : ref) (prey : list ref)
      (a : animal) (preference : string) (g : Q) :
  ext (heap w self) = HerbivorePart a preference ->
  _is_alive (heap w self) = true ->
  living CPlant w prey <> [] ->
  nth_error (forage_pool w preference prey)
            (drawn_position (gen w) (List.length (forage_pool w preference prey)))
  = Some target ->
  ext (heap w target) = PlantPart g ->
  let me := heap w self in
  let gain := py_min (_energy (heap w target)) 25 in
  Herbivore.hunt self prey w
  = (Return true,
     set_heap (set_gen w (advance (gen w)))
       (store (store (store (heap w) self (store_energy (_energy me + gain) me))
                     target (store_energy (_energy (heap w target) - gain) (heap w target)))
              self (feed (store_energy (_energy me + gain) me)))).
Proof.
  intros Hh Halive Hav Hnth Ht me gain.
  assert (Hneq : target <> self).
  { intros ->. rewrite Hh in Ht. discriminate. }
  assert (Ha : animal_of (heap w self) = Some a) by (unfold animal_of; now rewrite Hh).
  assert (Hne : forage_pool w preference prey <> []).
  { intro E. rewrite E in Hnth. now destruct (drawn_position _ _). }
  destruct (random_choice_run (forage_pool w preference prey) w Hne) as (x & Hx & Hchoice).
  rewrite Hnth in Hx. injection Hx as <-.
  unfold Herbivore.hunt.
  run_with (is_alive_run self w). rewrite Halive. cbn [negb].
  run_with (select_run (fun org => isinstance org CPlant && _is_alive org) prey w).
  fold (living CPlant w prey).
  destruct (living CPlant w prey) as [|p0 rest] eqn:El; [congruence|]. rewrite <- El.
  run_with (plant_preference_run self a preference w Hh).
  run_with (eq_refl : gets str_lower w = (Return (str_lower w), w)).
  run_with (select_run (fun p => (str_lower w (_species_name p)
                                  =? str_lower w preference)%string)
                       (living CPlant w prey) w).
  fold (preferred w preference (living CPlant w prey)).
  assert (Hpick :
            match preferred w preference (living CPlant w prey) with
            | [] => random_choice (living CPlant w prey)
            | _ :: _ => random_choice (preferred w preference (living CPlant w prey))
            end w = (Return target, set_gen w (advance (gen w)))).
  { unfold forage_pool in Hchoice.
    destruct (preferred w preference (living CPlant w prey)); exact Hchoice. }
  run_with Hpick.
  set (w1 := set_gen w (advance (gen w))).
  assert (Hw1 : heap w1 = heap w) by reflexivity.
  run_with (energy_run target w1).
  run_with (energy_run self w1).
  run_with (set_energy_run self (_energy (heap w1 self) + py_min (_energy (heap w1 target)) 25) w1).
  match goal with |- bind _ _ ?w3 = _ => set (w3' := w3) end.
  run_with (energy_run target w3').
  run_with (set_energy_run target (_energy (heap w3' target)
                                   - py_min (_energy (heap w1 target)) 25) w3').
  match goal with |- bind _ _ ?w4 = _ => set (w4' := w4) end.
  assert (Ha4 : animal_of (heap w4' self) = Some a).
  { subst w4' w3'. cbn [heap set_heap]. rewrite (store_other _ target self) by congruence.
    rewrite store_same. unfold animal_of. now rewrite store_energy_ext, Hw1, Hh. }
  run_with (count_meal_run self a w4' Ha4).
  unfold ret. subst w4' w3'. cbn [heap set_heap].
  rewrite (store_other _ target self) by congruence.
  rewrite !(store_other _ self target) by congruence.
  rewrite !store_same, !Hw1. reflexivity.
Qed.

(** C2. A dead herbivore, or one offered no living Plant, gets [False] and
    nothing changes. Otherwise the target is drawn among the living plants
    whose species name and the preference have the same [str.lower()] when
    there is one, else among all living plants; [min(target energy, 25)]
    goes through the setters from the plant to the herbivore (exact amounts
    for non-negative energies: the whole energy of a plant holding at most
    [25], which is left with [0], and [25] from a richer one), the feeding
    counter [_food_eaten] becomes its successor while speed and diet stay,
    and the result is [True]. *)
Theorem herbivore_hunt_spec (w : world) (self : ref) (prey : list ref)
        (a : animal) (preference : string) :
  ext (heap w self) = HerbivorePart a preference ->
  let me := heap w self in
  let available := living CPlant w prey in
  let favourites := preferred w preference available in
  let pool := forage_pool w preference prey in
  let run := Herbivore.hunt self prey in
  let w' := after run w in
  (_is_alive me = false \/ available = [] -> run w = (Return false, w))
  /\ (favourites <> [] -> pool = favourites)
  /\ (favourites = [] -> pool = available)
  /\ (forall p, In p favourites
                <-> In p available
                    /\ str_lower w (_species_name (heap w p)) = str_lower w preference)
  /\ (_is_alive me = true -> available <> [] ->
      exists target g,
        nth_error pool (drawn_position (gen w) (List.length pool)) = Some target
        /\ In target prey
        /\ ext (heap w target) = PlantPart g
        /\ _is_alive (heap w target) = true
        /\ (favourites <> [] ->
            str_lower w (_species_name (heap w target)) = str_lower w preference)
        /\ result run w = Return true
        /\ (let gain := py_min (_energy (heap w target)) 25 in
            _energy (heap w' self) = py_max 0 (_energy me + gain)
            /\ _energy (heap w' target) = py_max 0 (_energy (heap w target) - gain)
            /\ (0 <= _energy me -> 0 <= _energy (heap w target) ->
                _energy (heap w' self) == _energy me + gain
                /\ _energy (heap w' target) == _energy (heap w target) - gain)
            /\ (_energy (heap w target) <= 25 -> gain = _energy (heap w target))
            /\ (25 < _energy (heap w target) -> gain = 25)
            /\ (0 <= _energy me -> 0 <= _energy (heap w target) ->
                _energy (heap w target) <= 25 ->
                _energy (heap w' self) == _energy me + _energy (heap w target)
                /\ _energy (heap w' target) == 0)
            /\ (0 <= _energy me -> 25 < _energy (heap w target) ->
                _energy (heap w' self) == _energy me + 25
                /\ _energy (heap w' target) == _energy (heap w target) - 25))
        /\ animal_of (heap w' self)
           = Some (mk_animal (_speed a) (_diet_type a) (S (_food_eaten a)))
        /\ (forall r', r' <> self -> r' <> target -> heap w' r' = heap w r')).
Proof.
  intros Hh me available favourites pool run w'.
  assert (Hpool1 : favourites <> [] -> pool = favourites).
  { intro H. subst pool. unfold forage_pool. fold available. fold favourites.
    destruct favourites; [congruence | reflexivity]. }
  assert (Hpool2 : favourites = [] -> pool = available).
  { intro H. subst pool. unfold forage_pool. fold available. fold favourites.
    now rewrite H. }
  split; [apply herbivore_hunt_refuses|].
  split; [exact Hpool1|]. split; [exact Hpool2|].
  split.
  { intro p. unfold favourites, preferred. rewrite filter_In, String.eqb_eq. reflexivity. }
  intros Halive Hne.
  assert (Hsub : forall r, In r pool -> In r available).
  { intros r Hr. destruct favourites as [|f fs] eqn:Ef.
    - now rewrite Hpool2 in Hr.
    - rewrite Hpool1 in Hr by discriminate.
      unfold favourites, preferred in Ef. rewrite <- Ef in Hr.
      now apply filter_In in Hr. }
  assert (Hpne : pool <> []).
  { destruct favourites as [|f fs] eqn:Ef.
    - now rewrite Hpool2.
    - rewrite Hpool1; discriminate. }
  destruct (random_choice_run pool w Hpne) as (target & Hnth & _).
  assert (Hin : In target pool) by (eapply nth_error_In; eauto).
  pose proof (Hsub _ Hin) as Hav. apply living_In in Hav.
  destruct Hav as (Hprey & Hinst & Htalive).
  destruct (isinstance_plant _ Hinst) as (g & Ht).
  exists target, g.
  assert (Hneq : target <> self).
  { intros ->. rewrite Hh in Ht. discriminate. }
  pose proof (herbivore_hunt_run w self target prey a preference g
                                 Hh Halive Hne Hnth Ht) as Hrun.
  cbv zeta in Hrun. fold run in Hrun. fold me in Hrun.
  assert (Henergy : forall v, _energy (feed (store_energy v me)) = py_max 0 v).
  { intro v. unfold feed. rewrite store_energy_ext. subst me. rewrite Hh. cbn.
    apply store_energy_energy. }
  assert (Hself : _energy (heap w' self)
                  = py_max 0 (_energy me + py_min (_energy (heap w target)) 25)).
  { subst w'. unfold after. rewrite Hrun. cbn [snd heap set_heap].
    now rewrite store_same, Henergy. }
  assert (Htarget : _energy (heap w' target)
                    = py_max 0 (_energy (heap w target)
                                - py_min (_energy (heap w target)) 25)).
  { subst w'. unfold after. rewrite Hrun. cbn [snd heap set_heap].
    rewrite (store_other _ self target) by congruence.
    now rewrite store_same, store_energy_energy. }
  repeat (split; [assumption|]).
  split.
  { intro Hf. rewrite (Hpool1 Hf) in Hin. unfold favourites, preferred in Hin.
    apply filter_In in Hin. destruct Hin as [_ Hin]. now apply String.eqb_eq. }
  split.
  { unfold result. now rewrite Hrun. }
  split.
  { cbv zeta. split; [exact Hself | split; [exact Htarget|]].
    split.
    { intros Hme Hte. rewrite Hself, Htarget.
      pose proof (py_min_le_l (_energy (heap w target)) 25).
      assert (0 <= py_min (_energy (heap w target)) 25) by (apply py_min_nonneg; lra).
      split; apply py_max_0_of_nonneg; lra. }
    split; [intro Hcap; now apply py_min_first|].
    split; [intro Hcap; now apply py_min_second|].
    split.
    - intros Hme Hte Hcap. rewrite Hself, Htarget, (py_min_first _ _ Hcap).
      split.
      + apply py_max_0_of_nonneg. lra.
      + rewrite py_max_0_of_nonneg by lra. lra.
    - intros Hme Hcap. rewrite Hself, Htarget, (py_min_second _ _ Hcap).
      split; apply py_max_0_of_nonneg; lra. }
  split.
  { subst w'. unfold after. rewrite Hrun. cbn [snd heap set_heap].
    rewrite store_same. unfold feed, animal_of. rewrite store_energy_ext.
    subst me. rewrite Hh. reflexivity. }
  intros r' H1 H2. subst w'. unfold after. rewrite Hrun. cbn [snd heap set_heap].
  now rewrite !store_other by assumption.
Qed.

(** The rabbit that prefers "grass" passes the oak by. From "Grass" of
    energy [50] it takes the cap, [25]; from "GRASS" of energy [10] it takes
    all [10]; either way its counter goes from [0] to [1]. *)
Lemma herbivore_hunt_spec_witness :
  let w := rabbit_oak_grass in
  let w' := after (Herbivore.hunt 0%nat [1%nat; 2%nat]) w in
  let v := rabbit_oak_tuft in
  let v' := after (Herbivore.hunt 0%nat [1%nat; 2%nat]) v in
  (result (Herbivore.hunt 0%nat [1%nat; 2%nat]) w = Return true
   /\ _energy (heap w' 0%nat) == 70 + 25
   /\ _energy (heap w' 2%nat) == 50 - 25)
  /\ animal_of (heap w' 0%nat) = Some (mk_animal 3 "herbivore" 1)
  /\ result (Herbivore.hunt 0%nat [1%nat; 2%nat]) v = Return true
  /\ _energy (heap v' 0%nat) == 70 + 10
  /\ _energy (heap v' 2%nat) == 0
  /\ animal_of (heap v' 0%nat) = Some (mk_animal 3 "herbivore" 1).
Proof.
  intros w w' v v'.
  split; [|split].
  - pose proof (herbivore_hunt_spec w 0%nat [1%nat; 2%nat]
                  (mk_animal 3 "herbivore" 0) "grass" eq_refl) as H.
    cbv zeta in H. destruct H as (_ & _ & _ & _ & H).
    destruct (H eq_refl ltac:(discriminate))
      as (target & g & Hnth & _ & _ & _ & _ & Hres & Hmove & _).
    vm_compute in Hnth. injection Hnth as <-.
    destruct Hmove as (_ & _ & Hexact & _).
    destruct Hexact as [Hs Ht].
    + vm_compute. discriminate.
    + vm_compute. discriminate.
    + split; [exact Hres|]. subst w'. split.
      * rewrite Hs. vm_compute. reflexivity.
      * rewrite Ht. vm_compute. reflexivity.
  - pose proof (herbivore_hunt_spec w 0%nat [1%nat; 2%nat]
                  (mk_animal 3 "herbivore" 0) "grass" eq_refl) as H.
    cbv zeta in H. destruct H as (_ & _ & _ & _ & H).
    destruct (H eq_refl ltac:(discriminate))
      as (target & g & _ & _ & _ & _ & _ & _ & _ & Hfed & _).
    exact Hfed.
  - pose proof (herbivore_hunt_spec v 0%nat [1%nat; 2%nat]
                  (mk_animal 3 "herbivore" 0) "grass" eq_refl) as H.
    cbv zeta in H. destruct H as (_ & _ & _ & _ & H).
    destruct (H eq_refl ltac:(discriminate))
      as (target & g & Hnth & _ & _ & _ & _ & Hres & Hmove & Hfed & _).
    vm_compute in Hnth. injection Hnth as <-.
    destruct Hmove as (_ & _ & _ & _ & _ & Hall & _).
    destruct Hall as [Hs Ht].
    + vm_compute. discriminate.
    + vm_compute. discriminate.
    + vm_compute. discriminate.
    + split; [exact Hres|]. subst v'. split; [|split].
      * rewrite Hs. vm_compute. reflexivity.
      * exact Ht.
      * exact Hfed.
Defined.

(** The preference is matched through [str.lower()], accented capitals
    included: the rabbit that prefers "épine" takes its [25] units from the
    "ÉPINE" and leaves the oak, which comes first in the list, alone. *)
Lemma herbivore_hunt_folds_accents :
  let w := rabbit_oak_epine in
  let w' := after (Herbivore.hunt 0%nat [1%nat; 2%nat]) w in
  str_lower w "ÉPINE" = "épine"
  /\ preferred w "épine" [1%nat; 2%nat] = [2%nat]
  /\ result (Herbivore.hunt 0%nat [1%nat; 2%nat]) w = Return true
  /\ heap w' 1%nat = heap w 1%nat
  /\ _energy (heap w' 2%nat) == 50 - 25
  /\ _energy (heap w' 0%nat) == 70 + 25.
Proof. repeat split; vm_compute; reflexivity. Qed.

(** ** Relations every method respects

    [R] relates a world to a later one. When it is a preorder that the four
    elementary effects on organisms respect (storing an energy through the
    setter, counting a meal, drawing from the generator, changing the
    weather), every method respects it, whether it returns or raises. *)

Section Preservation.

Variable R : world -> world -> Prop.
Hypothesis R_refl : forall w, R w w.
Hypothesis R_trans : forall w1 w2 w3, R w1 w2 -> R w2 w3 -> R w1 w3.
Hypothesis R_energy :
  forall r v w, R w (set_heap w (store (heap w) r (store_energy v (heap w r)))).
Hypothesis R_feed :
  forall r w, R w (set_heap w (store (heap w) r (feed (heap w r)))).
Hypothesis R_gen : forall g w, R w (set_gen w g).
Hypothesis R_weather :
  forall self c w,
    R w (set_environments w
           (store (environments w) self (with_weather (environments w self) c))).

Lemma keeps_ret {A : Type} (a : A) : keeps R (ret a).
Proof. intro w. apply R_refl. Qed.

Lemma keeps_raise {A : Type} (e : exn) : keeps R (@raise A e).
Proof. intro w. apply R_refl. Qed.

Lemma keeps_gets {A : Type} (f : world -> A) : keeps R (gets f).
Proof. intro w. apply R_refl. Qed.

Lemma keeps_bind {A B : Type} (m : M A) (f : A -> M B) :
  keeps R m -> (forall a, keeps R (f a)) -> keeps R (bind m f).
Proof.
  intros Hm Hf w. specialize (Hm w). unfold after, bind in *.
  destruct (m w) as [[a | e] w1]; cbn in *.
  - eapply R_trans; [exact Hm | apply Hf].
  - exact Hm.
Qed.

Lemma keeps_for_each {A : Type} (l : list A) (body : A -> M unit) :
  (forall x, keeps R (body x)) -> keeps R (for_each l body).
Proof.
  intro Hbody. induction l as [|x l IH]; cbn [for_each].
  - apply keeps_ret.
  - apply keeps_bind; [apply Hbody | intros _; exact IH].
Qed.

Lemma keeps_set_energy (self : ref) (v : Q) : keeps R (Organism.set_energy self v).
Proof. intro w. apply R_energy. Qed.

Lemma keeps_feed (self : ref) : keeps R (update self feed).
Proof. intro w. apply R_feed. Qed.

Lemma keeps_random_random : keeps R random_random.
Proof. intro w. apply R_gen. Qed.

Lemma keeps_random_choice {A : Type} (seq : list A) : keeps R (random_choice seq).
Proof.
  intro w. unfold after, random_choice. destruct seq; cbn; [apply R_refl | apply R_gen].
Qed.

Lemma keeps_set_weather (self : ref) (c : string) :
  keeps R (Environment.assign self (fun e => with_weather e c)).
Proof. intro w. apply R_weather. Qed.

Ltac keeps_step :=
  match goal with
  | |- keeps R (bind _ _) => apply keeps_bind; [|intro]
  | |- keeps R (ret _) => apply keeps_ret
  | |- keeps R (raise _) => apply keeps_raise
  | |- keeps R (gets _) => apply keeps_gets
  | |- keeps R (read _) => apply keeps_gets
  | |- keeps R (select _ _) => apply keeps_gets
  | |- keeps R (Environment.attributes _) => apply keeps_gets
  | |- keeps R (Organism.set_energy _ _) => apply keeps_set_energy
  | |- keeps R (update _ feed) => apply keeps_feed
  | |- keeps R random_random => apply keeps_random_random
  | |- keeps R (random_choice _) => apply keeps_random_choice
  | |- keeps R (for_each _ _) => apply keeps_for_each; intro
  | |- keeps R (if ?b then _ else _) => destruct b
  | |- keeps R (match ?x with _ => _ end) => destruct x
  | |- keeps R _ => assumption
  end.

Ltac keeps_all := repeat keeps_step.

Lemma keeps_energy (self : ref) : keeps R (Organism.energy self).
Proof. unfold Organism.energy. keeps_all. Qed.

Lemma keeps_is_alive (self : ref) : keeps R (Organism.is_alive self).
Proof. unfold Organism.is_alive. keeps_all. Qed.

Lemma keeps_id (self : ref) : keeps R (Organism.id self).
Proof. unfold Organism.id. keeps_all. Qed.

Lemma keeps_consume_energy (self : ref) (amount : Q) :
  keeps R (Organism.consume_energy self amount).
Proof.
  unfold Organism.consume_energy.
  pose proof keeps_energy. pose proof keeps_is_alive.
  apply keeps_bind; [apply keeps_energy | intro].
  apply keeps_bind; [apply keeps_set_energy | intro]. apply keeps_is_alive.
Qed.

Lemma keeps_attributes (self : ref) : keeps R (Animal.attributes self).
Proof. unfold Animal.attributes. keeps_all. Qed.

Lemma keeps_speed (self : ref) : keeps R (Animal.speed self).
Proof.
  unfold Animal.speed. apply keeps_bind; [apply keeps_attributes | intro; apply keeps_ret].
Qed.

Lemma keeps_count_meal (self : ref) : keeps R (Animal.count_meal self).
Proof.
  unfold Animal.count_meal.
  apply keeps_bind; [apply keeps_attributes | intro; apply keeps_feed].
Qed.

Lemma keeps_py_div (a b : Q) : keeps R (py_div a b).
Proof. unfold py_div. keeps_all. Qed.

Lemma keeps_photosynthesize (self : ref) (weather : string) :
  keeps R (Plant.photosynthesize self weather).
Proof.
  unfold Plant.photosynthesize, Plant.growth_rate.
  apply keeps_bind; [keeps_all | intro].
  apply keeps_bind; [apply keeps_energy | intro]. keeps_all.
Qed.

Lemma keeps_move (a b : ref) (x y : Q) (tail : M bool) :
  keeps R tail ->
  keeps R (e <- Organism.energy a ;; Organism.set_energy a (e + x) ;;
         e' <- Organism.energy b ;; Organism.set_energy b (e' - y) ;; tail).
Proof.
  intro Ht.
  apply keeps_bind; [apply keeps_energy | intro].
  apply keeps_bind; [apply keeps_set_energy | intro].
  apply keeps_bind; [apply keeps_energy | intro].
  apply keeps_bind; [apply keeps_set_energy | intro]. exact Ht.
Qed.

Lemma keeps_plant_interact (self other : ref) : keeps R (Plant.interact self other).
Proof.
  unfold Plant.interact.
  apply keeps_bind; [keeps_all | intro]. apply keeps_bind; [keeps_all | intro].
  destruct (_ && _); [|apply keeps_ret].
  apply keeps_move. apply keeps_ret.
Qed.

Lemma keeps_herbivore_interact (self other : ref) : keeps R (Herbivore.interact self other).
Proof.
  unfold Herbivore.interact.
  apply keeps_bind; [keeps_all | intro]. apply keeps_bind; [keeps_all | intro].
  destruct (_ && _); [|apply keeps_ret].
  apply keeps_move.
  apply keeps_bind; [apply keeps_count_meal | intro; apply keeps_ret].
Qed.

Lemma keeps_herbivore_hunt (self : ref) (prey : list ref) : keeps R (Herbivore.hunt self prey).
Proof.
  unfold Herbivore.hunt, Herbivore.plant_preference.
  apply keeps_bind; [apply keeps_is_alive | intro alive].
  destruct (negb alive); [apply keeps_ret|].
  apply keeps_bind; [keeps_all | intros [|p0 rest]]; [apply keeps_ret|].
  apply keeps_bind; [keeps_all | intro].
  apply keeps_bind; [keeps_all | intro].
  apply keeps_bind; [keeps_all | intro].
  apply keeps_bind; [keeps_all | intro].
  apply keeps_bind; [apply keeps_energy | intro].
  apply keeps_move.
  apply keeps_bind; [apply keeps_count_meal | intro; apply keeps_ret].
Qed.

Lemma keeps_kill (self prey : ref) (x : Q) :
  keeps R (e <- Organism.energy self ;; Organism.set_energy self (e + x) ;;
         Organism.set_energy prey 0 ;; Animal.count_meal self ;; ret true).
Proof.
  apply keeps_bind; [apply keeps_energy | intro].
  apply keeps_bind; [apply keeps_set_energy | intro].
  apply keeps_bind; [apply keeps_set_energy | intro].
  apply keeps_bind; [apply keeps_count_meal | intro; apply keeps_ret].
Qed.

Lemma keeps_hunting_efficiency (self : ref) : keeps R (Carnivore.hunting_efficiency self).
Proof. unfold Carnivore.hunting_efficiency. keeps_all. Qed.

Lemma keeps_carnivore_hunt (self : ref) (prey : list ref) : keeps R (Carnivore.hunt self prey).
Proof.
  unfold Carnivore.hunt.
  apply keeps_bind; [apply keeps_is_alive | intro alive].
  destruct (negb alive); [apply keeps_ret|].
  apply keeps_bind; [keeps_all | intros [|p0 rest]]; [apply keeps_ret|].
  apply keeps_bind; [keeps_all | intro].
  apply keeps_bind; [apply keeps_hunting_efficiency | intro].
  apply keeps_bind; [apply keeps_speed | intro].
  apply keeps_bind; [apply keeps_speed | intro].
  apply keeps_bind; [apply keeps_py_div | intro].
  apply keeps_bind; [apply keeps_random_random | intro].
  destruct (Qle_bool _ _).
  - apply keeps_bind; [apply keeps_energy | intro]. apply keeps_kill.
  - apply keeps_bind; [apply keeps_consume_energy | intro; apply keeps_ret].
Qed.

Lemma keeps_carnivore_interact (self other : ref) : keeps R (Carnivore.interact self other).
Proof.
  unfold Carnivore.interact.
  apply keeps_bind; [keeps_all | intro]. apply keeps_bind; [keeps_all | intro].
  destruct (_ && _); [|apply keeps_ret].
  apply keeps_bind; [apply keeps_hunting_efficiency | intro].
  apply keeps_bind; [apply keeps_random_random | intro].
  destruct (Qle_bool _ _); [|apply keeps_ret].
  apply keeps_bind; [apply keeps_energy | intro]. apply keeps_kill.
Qed.

Lemma keeps_hunt (self : ref) (prey : list ref) : keeps R (hunt self prey).
Proof.
  unfold hunt, Animal.hunt.
  apply keeps_bind; [keeps_all | intro o].
  destruct (class_of o); try apply keeps_raise; try apply keeps_ret.
  - apply keeps_bind; [apply keeps_herbivore_hunt | intro; apply keeps_ret].
  - apply keeps_bind; [apply keeps_carnivore_hunt | intro; apply keeps_ret].
Qed.

Lemma keeps_interact (self other : ref) : keeps R (interact self other).
Proof.
  unfold interact, Organism.interact.
  apply keeps_bind; [keeps_all | intro o].
  destruct (class_of o); try apply keeps_ret.
  - apply keeps_plant_interact.
  - apply keeps_herbivore_interact.
  - apply keeps_carnivore_interact.
Qed.

Lemma keeps_grow (self organism : ref) : keeps R (Environment.grow self organism).
Proof.
  unfold Environment.grow, Environment.weather_condition.
  apply keeps_bind; [keeps_all | intro o].
  destruct (_ && _); [|apply keeps_ret].
  apply keeps_bind; [keeps_all | intro].
  apply keeps_bind; [apply keeps_photosynthesize | intro; apply keeps_ret].
Qed.

Lemma keeps_send_hunting (prey : list ref) (hunter : ref) :
  keeps R (Environment.send_hunting prey hunter).
Proof.
  unfold Environment.send_hunting.
  apply keeps_bind; [apply keeps_is_alive | intros [|]]; [|apply keeps_ret].
  apply keeps_bind; [apply keeps_hunt | intro; apply keeps_ret].
Qed.

Lemma keeps_upkeep (organism : ref) : keeps R (Environment.upkeep organism).
Proof.
  unfold Environment.upkeep.
  apply keeps_bind; [keeps_all | intro o].
  destruct (_is_alive o); [|apply keeps_ret].
  destruct (isinstance o CPlant).
  - apply keeps_bind; [apply keeps_consume_energy | intro; apply keeps_ret].
  - destruct (isinstance o CAnimal); [|apply keeps_ret].
    apply keeps_bind; [apply keeps_speed | intro].
    apply keeps_bind; [apply keeps_consume_energy | intro; apply keeps_ret].
Qed.

Lemma keeps_get_organisms_by_type (self : ref) (c : pyclass) :
  keeps R (Environment.get_organisms_by_type self c).
Proof. unfold Environment.get_organisms_by_type. keeps_all. Qed.

(** [simulate_day], from the statement after the increment of the day
    counter on. *)
Lemma keeps_simulate_day_after_increment (self : ref) (w : world) :
  R (after (Environment.assign self (fun e => with_day_count e (S (__day_count e)))) w)
    (after (Environment.simulate_day self) w).
Proof.
  unfold Environment.simulate_day. unfold after at 2. unfold bind at 1.
  cbn [Environment.assign fst snd after].
  match goal with |- R ?w1 (snd (?m ?w1)) => change (R w1 (after m w1)); generalize w1 end.
  change (keeps R
    (draw <- random_random ;;
     (if Qlt_bool draw 0.3
      then weather <- random_choice ["sunny"; "cloudy"; "rainy"] ;;
           Environment.assign self (fun e => with_weather e weather)
      else ret tt) ;;
     members <- Environment.organisms self ;;
     for_each members (Environment.grow self) ;;
     carnivores <- Environment.get_organisms_by_type self CCarnivore ;;
     herbivores <- Environment.get_organisms_by_type self CHerbivore ;;
     for_each carnivores (Environment.send_hunting herbivores) ;;
     herbivores <- select _is_alive herbivores ;;
     plants <- Environment.get_organisms_by_type self CPlant ;;
     for_each herbivores (Environment.send_hunting plants) ;;
     members <- Environment.organisms self ;;
     for_each members Environment.upkeep ;;
     Environment.day_count self)).
  unfold Environment.organisms, Environment.day_count.
  apply keeps_bind; [apply keeps_random_random | intro draw].
  apply keeps_bind.
  { destruct (Qlt_bool draw 0.3); [|apply keeps_ret].
    apply keeps_bind; [apply keeps_random_choice | intro; apply keeps_set_weather]. }
  intro.
  apply keeps_bind; [keeps_all | intro].
  apply keeps_bind; [apply keeps_for_each; intro; apply keeps_grow | intro].
  apply keeps_bind; [apply keeps_get_organisms_by_type | intro].
  apply keeps_bind; [apply keeps_get_organisms_by_type | intro].
  apply keeps_bind; [apply keeps_for_each; intro; apply keeps_send_hunting | intro].
  apply keeps_bind; [keeps_all | intro].
  apply keeps_bind; [apply keeps_get_organisms_by_type | intro].
  apply keeps_bind; [apply keeps_for_each; intro; apply keeps_send_hunting | intro].
  apply keeps_bind; [keeps_all | intro].
  apply keeps_bind; [apply keeps_for_each; intro; apply keeps_upkeep | intro].
  keeps_all.
Qed.

End Preservation.

(** ** Death is permanent *)

Lemma dead_stay_dead_refl (w : world) : dead_stay_dead w w.
Proof. intros r H. exact H. Qed.

Lemma dead_stay_dead_trans (w1 w2 w3 : world) :
  dead_stay_dead w1 w2 -> dead_stay_dead w2 w3 -> dead_stay_dead w1 w3.
Proof. intros H12 H23 r H. apply H23, H12, H. Qed.

Lemma feed_alive (o : organism) : _is_alive (feed o) = _is_alive o.
Proof. unfold feed. destruct (ext o); reflexivity. Qed.

Lemma dead_stay_dead_energy (r : ref) (v : Q) (w : world) :
  dead_stay_dead w (set_heap w (store (heap w) r (store_energy v (heap w r)))).
Proof.
  intros r' H. cbn. unfold store. destruct (Nat.eqb_spec r' r) as [-> | Hne]; [|exact H].
  rewrite store_energy_alive, H. now destruct (Qlt_bool 0 v).
Qed.

Lemma dead_stay_dead_feed (r : ref) (w : world) :
  dead_stay_dead w (set_heap w (store (heap w) r (feed (heap w r)))).
Proof.
  intros r' H. cbn. unfold store. destruct (Nat.eqb_spec r' r) as [-> | Hne]; [|exact H].
  now rewrite feed_alive.
Qed.

Lemma dead_stay_dead_same_heap (w w' : world) : heap w' = heap w -> dead_stay_dead w w'.
Proof. intros E r H. now rewrite E. Qed.

Lemma dead_stay_dead_perform (op : operation) (w : world) :
  dead_stay_dead w (after (perform op) w).
Proof.
  pose proof dead_stay_dead_refl as Hr. pose proof dead_stay_dead_trans as Ht.
  pose proof dead_stay_dead_energy as He. pose proof dead_stay_dead_feed as Hf.
  assert (Hg : forall g w0, dead_stay_dead w0 (set_gen w0 g))
    by (intros; now apply dead_stay_dead_same_heap).
  assert (Hw : forall self c w0,
             dead_stay_dead w0 (set_environments w0
               (store (environments w0) self (with_weather (environments w0 self) c))))
    by (intros; now apply dead_stay_dead_same_heap).
  assert (Hfinish : forall A (m : M A), keeps dead_stay_dead m ->
                                        keeps dead_stay_dead (m ;; ret tt)).
  { intros A m Hm. apply keeps_bind; auto. }
  revert w. change (keeps dead_stay_dead (perform op)).
  destruct op; cbn [perform].
  - now apply keeps_set_energy.
  - apply Hfinish. now apply keeps_consume_energy.
  - apply Hfinish. now apply keeps_photosynthesize.
  - apply Hfinish. now apply keeps_hunt.
  - apply Hfinish. now apply keeps_interact.
  - apply Hfinish. intro w.
    eapply dead_stay_dead_trans;
      [| now apply (keeps_simulate_day_after_increment dead_stay_dead)].
    now apply dead_stay_dead_same_heap.
  - apply Hfinish. intro w. apply dead_stay_dead_same_heap.
    unfold after. rewrite add_organism_run. now destruct (existsb _ _).
  - apply Hfinish. intro w. apply dead_stay_dead_same_heap.
    unfold after, Environment.remove_organism, Environment.attributes, gets, bind. cbn.
    now destruct (Environment.pop_first _ _ _).
  - intro w. apply dead_stay_dead_same_heap.
    unfold after, Environment.set_weather_condition.
    now destruct (str_in _ _).
Qed.

(** C5. Once [is_alive] is false, no sequence of energy assignments,
    [consume_energy], [photosynthesize], [hunt], [interact] and
    [simulate_day] calls (nor of additions, removals and weather changes)
    makes it true again; in particular assigning a positive energy to a dead
    organism stores that energy and leaves it dead. *)
Theorem death_is_permanent (ops : list operation) (w : world) (r : ref) :
  _is_alive (heap w r) = false ->
  _is_alive (heap (perform_all ops w) r) = false
  /\ (forall value,
         0 < value ->
         let w' := after (Organism.set_energy r value) w in
         _energy (heap w' r) = value /\ _is_alive (heap w' r) = false).
Proof.
  intro Hdead. split.
  - revert w Hdead. induction ops as [|op ops IH]; intros w Hdead; cbn [perform_all].
    + exact Hdead.
    + apply IH. now apply (dead_stay_dead_perform op w).
  - intros value Hpos w'. subst w'. unfold after. rewrite set_energy_run. cbn.
    rewrite store_same, store_energy_energy, store_energy_alive, Hdead.
    apply Qlt_bool_iff in Hpos. unfold py_max. now rewrite Hpos.
Qed.

Lemma death_is_permanent_witness :
  _is_alive (heap forest_with_dead_rabbit 2%nat) = false
  /\ _is_alive
       (heap (perform_all [AssignEnergy 2%nat 40; Interact 1%nat 2%nat;
                           Hunt 2%nat [1%nat]; SimulateDay 0%nat]
                          forest_with_dead_rabbit) 2%nat) = false.
Proof.
  split; [reflexivity|].
  exact (proj1 (death_is_permanent
                  [AssignEnergy 2%nat 40; Interact 1%nat 2%nat;
                   Hunt 2%nat [1%nat]; SimulateDay 0%nat]
                  forest_with_dead_rabbit 2%nat eq_refl)).
Defined.

(** ** The daily tick *)

(** *** The day counter moves only at the first statement *)

Lemma same_days_same_environments (w w' : world) :
  environments w' = environments w -> same_days w w'.
Proof. intros E s. now rewrite E. Qed.

Lemma simulate_day_counts_one (self : ref) (w : world) :
  __day_count (environments (after (Environment.simulate_day self) w) self)
  = S (__day_count (environments w self)).
Proof.
  assert (H : same_days
                (after (Environment.assign self
                          (fun e => with_day_count e (S (__day_count e)))) w)
                (after (Environment.simulate_day self) w)).
  { apply keeps_simulate_day_after_increment.
    - intros w0 s. reflexivity.
    - intros w1 w2 w3 H12 H23 s. now rewrite H23, H12.
    - intros. now apply same_days_same_environments.
    - intros. now apply same_days_same_environments.
    - intros. now apply same_days_same_environments.
    - intros s c w0 s'. cbn. unfold store.
      now destruct (Nat.eqb_spec s' s) as [-> | _]. }
  rewrite (H self). cbn. now rewrite store_same.
Qed.

(** *** What a returning call returns *)

Lemma ends_with_bind {A B : Type} (m : M A) (f : A -> M B) (q : B -> world -> Prop) :
  (forall a, ends_with (f a) q) -> ends_with (bind m f) q.
Proof.
  intros Hf w b w' H. unfold bind in H.
  destruct (m w) as [[a | e] w1]; [|discriminate].
  exact (Hf a w1 b w' H).
Qed.

Lemma simulate_day_returns_counter (self : ref) :
  ends_with (Environment.simulate_day self)
            (fun day w' => day = __day_count (environments w' self)).
Proof.
  unfold Environment.simulate_day.
  repeat lazymatch goal with
         | |- ends_with (bind _ _) _ => apply ends_with_bind; intro
         end.
  intros w0 d w' H.
  unfold Environment.day_count, Environment.attributes, gets, bind, ret in H.
  now inversion H.
Qed.

(** *** When the tick returns *)

Lemma isinstance_animal (o : organism) :
  isinstance o CAnimal = true -> exists a, animal_of o = Some a.
Proof.
  unfold isinstance, class_of, animal_of. destruct (ext o); cbn; try discriminate; eauto.
Qed.

Lemma grow_returns (self organism : ref) (w : world) :
  exists w', Environment.grow self organism w = (Return tt, w').
Proof.
  unfold Environment.grow, read.
  run_with (eq_refl : gets (fun w0 => heap w0 organism) w = (Return (heap w organism), w)).
  destruct (isinstance (heap w organism) CPlant) eqn:Hi; cbn [andb]; [|eexists; reflexivity].
  destruct (_is_alive (heap w organism)); [|eexists; reflexivity].
  destruct (isinstance_plant _ Hi) as [g Hg].
  run_with (eq_refl : Environment.weather_condition self w
                      = (Return (__weather_condition (environments w self)), w)).
  run_with (photosynthesize_run organism (__weather_condition (environments w self)) g w Hg).
  eexists. reflexivity.
Qed.

Lemma upkeep_returns (organism : ref) (w : world) :
  exists w', Environment.upkeep organism w = (Return tt, w').
Proof.
  unfold Environment.upkeep, read.
  run_with (eq_refl : gets (fun w0 => heap w0 organism) w = (Return (heap w organism), w)).
  destruct (_is_alive (heap w organism)); [|eexists; reflexivity].
  destruct (isinstance (heap w organism) CPlant).
  - run_with (consume_energy_run organism 1 w). eexists. reflexivity.
  - destruct (isinstance (heap w organism) CAnimal) eqn:Hi; [|eexists; reflexivity].
    destruct (isinstance_animal _ Hi) as [a Ha].
    run_with (speed_run organism a w Ha).
    run_with (consume_energy_run organism (2 + _speed a * 0.1) w).
    eexists. reflexivity.
Qed.

Lemma carnivore_hunt_returns (w : world) (self : ref) (prey : list ref)
      (a : animal) (eff : Q) :
  ext (heap w self) = CarnivorePart a eff ->
  chaseable w prey ->
  exists b w', Carnivore.hunt self prey w = (Return b, w').
Proof.
  intros Hc Hok.
  destruct (_is_alive (heap w self)) eqn:Halive;
    [|exists false, w; apply carnivore_hunt_refuses; now left].
  destruct (living CHerbivore w prey) as [|t0 rest] eqn:El;
    [exists false, w; apply carnivore_hunt_refuses; now right|].
  assert (Hne : living CHerbivore w prey <> []) by (rewrite El; discriminate).
  destruct (random_choice_run _ w Hne) as (target & Hnth & _).
  assert (Hin : In target (living CHerbivore w prey)) by (eapply nth_error_In; eauto).
  apply living_In in Hin. destruct Hin as (Hprey & Hinst & _).
  destruct (isinstance_herbivore _ Hinst) as (ta & tp & Ht).
  rewrite (carnivore_hunt_run w self target prey a ta eff tp Hc Halive Hnth Ht).
  destruct (Qeq_bool (_speed ta + 1) 0) eqn:Hz.
  - apply Qeq_bool_iff in Hz. exfalso. exact (Hok target ta tp Hprey Ht Hz).
  - destruct (Qle_bool _ _); eexists; eexists; reflexivity.
Qed.

Lemma forage_pool_draw (w : world) (preference : string) (prey : list ref) :
  living CPlant w prey <> [] ->
  exists target g,
    nth_error (forage_pool w preference prey)
              (drawn_position (gen w) (List.length (forage_pool w preference prey)))
    = Some target
    /\ In target (living CPlant w prey)
    /\ ext (heap w target) = PlantPart g.
Proof.
  intro Hne.
  assert (Hsub : forall r, In r (forage_pool w preference prey) ->
                           In r (living CPlant w prey)).
  { intros r. unfold forage_pool.
    destruct (preferred w preference (living CPlant w prey)) as [|f fs] eqn:Ef; [tauto|].
    rewrite <- Ef. unfold preferred. rewrite filter_In. tauto. }
  assert (Hpool : forage_pool w preference prey <> []).
  { unfold forage_pool.
    destruct (preferred w preference (living CPlant w prey)); [exact Hne | discriminate]. }
  destruct (random_choice_run _ w Hpool) as (target & Hnth & _).
  assert (Hin : In target (living CPlant w prey)).
  { apply Hsub. eapply nth_error_In; eauto. }
  destruct (living_In _ _ _ _ Hin) as (_ & Hinst & _).
  destruct (isinstance_plant _ Hinst) as (g & Hg).
  now exists target, g.
Qed.

Lemma herbivore_hunt_returns (w : world) (self : ref) (prey : list ref)
      (a : animal) (preference : string) :
  ext (heap w self) = HerbivorePart a preference ->
  exists b w', Herbivore.hunt self prey w = (Return b, w').
Proof.
  intros Hh.
  destruct (_is_alive (heap w self)) eqn:Halive;
    [|exists false, w; apply herbivore_hunt_refuses; now left].
  destruct (living CPlant w prey) as [|t0 rest] eqn:El;
    [exists false, w; apply herbivore_hunt_refuses; now right|].
  assert (Hne : living CPlant w prey <> []) by (rewrite El; discriminate).
  destruct (forage_pool_draw w preference prey Hne) as (target & g & Hnth & _ & Hg).
  rewrite (herbivore_hunt_run w self target prey a preference g Hh Halive Hne Hnth Hg).
  eexists. eexists. reflexivity.
Qed.

(** What no method changes: the class of each object with its fixed
    attributes, and the membership of each environment. *)

Lemma same_kind_refl (w : world) : same_kind w w.
Proof. split; reflexivity. Qed.

Lemma same_kind_trans (w1 w2 w3 : world) :
  same_kind w1 w2 -> same_kind w2 w3 -> same_kind w1 w3.
Proof.
  intros [H12 E12] [H23 E23]. split; intro x.
  - now rewrite H23, H12.
  - now rewrite E23, E12.
Qed.

Lemma same_kind_update (f : organism -> organism) (r : ref) (w : world) :
  (forall o, shape (ext (f o)) = shape (ext o)) ->
  same_kind w (set_heap w (store (heap w) r (f (heap w r)))).
Proof.
  intro Hf. split; [|reflexivity].
  intro r'. cbn. unfold store. destruct (Nat.eqb_spec r' r) as [-> | _]; [apply Hf | reflexivity].
Qed.

Lemma same_kind_energy (r : ref) (v : Q) (w : world) :
  same_kind w (set_heap w (store (heap w) r (store_energy v (heap w r)))).
Proof. apply same_kind_update. intro o. now rewrite store_energy_ext. Qed.

Lemma same_kind_feed (r : ref) (w : world) :
  same_kind w (set_heap w (store (heap w) r (feed (heap w r)))).
Proof.
  apply same_kind_update. intro o. unfold feed.
  destruct (ext o) eqn:E; cbn; rewrite ?E; reflexivity.
Qed.

Lemma same_kind_gen (g : rng) (w : world) : same_kind w (set_gen w g).
Proof. split; reflexivity. Qed.

Lemma same_kind_assign (f : Environment -> Environment) (self : ref) (w : world) :
  (forall e, __organisms (f e) = __organisms e) ->
  same_kind w (set_environments w (store (environments w) self (f (environments w self)))).
Proof.
  intro Hf. split; [reflexivity|].
  intro s. cbn. unfold store. destruct (Nat.eqb_spec s self) as [-> | _]; [apply Hf | reflexivity].
Qed.

Lemma same_kind_weather (self : ref) (c : string) (w : world) :
  same_kind w (set_environments w
                 (store (environments w) self (with_weather (environments w self) c))).
Proof. now apply (same_kind_assign (fun e => with_weather e c)). Qed.

Ltac same_kind_side :=
  first [ exact same_kind_refl | exact same_kind_trans | exact same_kind_energy
        | exact same_kind_feed | exact same_kind_gen | exact same_kind_weather ].

Lemma same_kind_grow (self organism : ref) (w : world) :
  same_kind w (after (Environment.grow self organism) w).
Proof.
  apply keeps_grow; same_kind_side.
Qed.

Lemma same_kind_send_hunting (prey : list ref) (hunter : ref) (w : world) :
  same_kind w (after (Environment.send_hunting prey hunter) w).
Proof.
  apply keeps_send_hunting; same_kind_side.
Qed.

Lemma same_kind_upkeep (organism : ref) (w : world) :
  same_kind w (after (Environment.upkeep organism) w).
Proof.
  apply keeps_upkeep; same_kind_side.
Qed.

Lemma same_kind_simulate_day (self : ref) (w : world) :
  same_kind w (after (Environment.simulate_day self) w).
Proof.
  apply same_kind_trans
    with (w2 := after (Environment.assign self
                         (fun e => with_day_count e (S (__day_count e)))) w).
  - now apply (same_kind_assign (fun e => with_day_count e (S (__day_count e)))).
  - apply (keeps_simulate_day_after_increment same_kind); same_kind_side.
Qed.

Lemma same_kind_class (w w' : world) (r : ref) :
  same_kind w w' -> class_of (heap w' r) = class_of (heap w r).
Proof.
  intros [H _]. specialize (H r). unfold class_of.
  destruct (ext (heap w' r)), (ext (heap w r)); cbn in H; congruence.
Qed.

Lemma same_kind_chaseable (w w' : world) (l : list ref) :
  same_kind w w' -> chaseable w l -> chaseable w' l.
Proof.
  intros [H _] Hok r a p Hin Hext. specialize (H r). rewrite Hext in H.
  destruct (ext (heap w r)) as [ | g | a0 | a0 p0 | a0 h0] eqn:E; cbn in H; try discriminate.
  injection H as Hs _ _. rewrite Hs. exact (Hok r a0 p0 Hin E).
Qed.

Lemma class_carnivore (o : organism) :
  isinstance o CCarnivore = true -> class_of o = CCarnivore.
Proof. unfold isinstance. now destruct (class_of o). Qed.

Lemma class_herbivore (o : organism) :
  isinstance o CHerbivore = true -> class_of o = CHerbivore.
Proof. unfold isinstance. now destruct (class_of o). Qed.

Lemma hunt_returns (prey : list ref) (hunter : ref) (w : world) :
  class_of (heap w hunter) = CHerbivore
  \/ (class_of (heap w hunter) = CCarnivore /\ chaseable w prey) ->
  exists v w', hunt hunter prey w = (Return v, w').
Proof.
  intro H. unfold hunt, read.
  run_with (eq_refl : gets (fun w0 => heap w0 hunter) w = (Return (heap w hunter), w)).
  destruct H as [Hc | [Hc Hok]]; rewrite Hc.
  - unfold class_of in Hc. destruct (ext (heap w hunter)) as [ | | | a p | ] eqn:E;
      try discriminate.
    destruct (herbivore_hunt_returns w hunter prey a p E) as (b & w' & Hrun).
    run_with Hrun. eexists. eexists. reflexivity.
  - unfold class_of in Hc. destruct (ext (heap w hunter)) as [ | | | | a h] eqn:E;
      try discriminate.
    destruct (carnivore_hunt_returns w hunter prey a h E Hok) as (b & w' & Hrun).
    run_with Hrun. eexists. eexists. reflexivity.
Qed.

Lemma send_hunting_returns (prey : list ref) (hunter : ref) (w : world) :
  class_of (heap w hunter) = CHerbivore
  \/ (class_of (heap w hunter) = CCarnivore /\ chaseable w prey) ->
  exists w', Environment.send_hunting prey hunter w = (Return tt, w').
Proof.
  intro H. unfold Environment.send_hunting.
  run_with (is_alive_run hunter w).
  destruct (_is_alive (heap w hunter)); [|eexists; reflexivity].
  destruct (hunt_returns prey hunter w H) as (v & w' & Hrun).
  run_with Hrun. eexists. reflexivity.
Qed.

(** A loop whose body returns and keeps an invariant, wherever the invariant
    holds, returns and keeps it. *)
Lemma for_each_total {A : Type} (Inv : world -> Prop) (l : list A) (body : A -> M unit) :
  (forall x w, In x l -> Inv w -> exists w', body x w = (Return tt, w') /\ Inv w') ->
  forall w, Inv w -> exists w', for_each l body w = (Return tt, w') /\ Inv w'.
Proof.
  induction l as [|x l IH]; intros Hbody w Hw; cbn [for_each].
  - exists w. split; [reflexivity | exact Hw].
  - destruct (Hbody x w (or_introl eq_refl) Hw) as (w1 & Hrun & H1).
    run_with Hrun. apply IH; [|exact H1].
    intros y w0 Hy. apply Hbody. now right.
Qed.

Lemma returns_then_after {A : Type} (m : M A) (w w' : world) (a : A) :
  m w = (Return a, w') -> after m w = w'.
Proof. intro H. unfold after. now rewrite H. Qed.

Lemma chaseable_filter (w : world) (p : ref -> bool) (l : list ref) :
  chaseable w l -> chaseable w (filter p l).
Proof.
  intros H r a q Hin. apply filter_In in Hin. destruct Hin as [Hin _]. now apply H.
Qed.

(** [simulate_day] returns as soon as no herbivore of the environment has
    speed [-1] (the only way a statement of the tick can raise). *)
Lemma simulate_day_returns (self : ref) (w : world) :
  chaseable w (__organisms (environments w self)) ->
  exists day w', Environment.simulate_day self w = (Return day, w').
Proof.
  intro Hok.
  set (L := __organisms (environments w self)) in *.
  set (Inv := fun w' : world => same_kind w w').
  assert (Hmembers : forall w', Inv w' -> __organisms (environments w' self) = L).
  { intros w' [_ H]. apply H. }
  assert (Hchase : forall w', Inv w' -> chaseable w' L).
  { intros w' H. eapply same_kind_chaseable; eauto. }
  assert (Hclass : forall w1 w2 r, Inv w1 -> Inv w2 ->
                                   class_of (heap w2 r) = class_of (heap w1 r)).
  { intros w1 w2 r H1 H2.
    now rewrite (same_kind_class w w2 r H2), (same_kind_class w w1 r H1). }
  assert (Hstep : forall (m : M unit) w1,
             Inv w1 -> (exists w2, m w1 = (Return tt, w2)) -> same_kind w1 (after m w1) ->
             exists w2, m w1 = (Return tt, w2) /\ Inv w2).
  { intros m w1 H1 (w2 & Hrun) Hk. exists w2. split; [exact Hrun|].
    rewrite (returns_then_after _ _ _ _ Hrun) in Hk.
    exact (same_kind_trans _ _ _ H1 Hk). }
  unfold Environment.simulate_day.
  unfold bind at 1. cbn [Environment.assign].
  match goal with |- exists _ _, bind _ _ ?x = _ => set (w1 := x) end.
  assert (H1 : Inv w1).
  { now apply (same_kind_assign (fun e => with_day_count e (S (__day_count e)))). }
  run_with (random_random_run w1).
  match goal with |- exists _ _, bind _ _ ?x = _ => set (w2 := x) end.
  assert (H2 : Inv w2) by exact (same_kind_trans _ _ _ H1 (same_kind_gen _ w1)).
  assert (Hweather : exists w3,
             (if Qlt_bool (rand_float (gen w1) (drawn (gen w1))) 0.3
              then weather <- random_choice ["sunny"; "cloudy"; "rainy"] ;;
                   Environment.assign self (fun e => with_weather e weather)
              else ret tt) w2 = (Return tt, w3) /\ Inv w3).
  { destruct (Qlt_bool _ _).
    - eexists. split; [reflexivity|].
      eapply same_kind_trans; [exact H2|].
      eapply same_kind_trans; [apply (same_kind_gen (advance (gen w2)))|].
      apply same_kind_weather.
    - exists w2. split; [reflexivity | exact H2]. }
  destruct Hweather as (w3 & Hrun3 & H3). run_with Hrun3.
  run_with (eq_refl : Environment.organisms self w3
                      = (Return (__organisms (environments w3 self)), w3)).
  rewrite (Hmembers w3 H3).
  destruct (for_each_total Inv L (Environment.grow self)) with (w := w3)
    as (w4 & Hrun4 & H4); [|exact H3|].
  { intros x w0 _ H0. apply Hstep; [exact H0 | apply grow_returns | apply same_kind_grow]. }
  run_with Hrun4.
  run_with (eq_refl : Environment.get_organisms_by_type self CCarnivore w4
                      = (Return (filter (fun r => isinstance (heap w4 r) CCarnivore)
                                        (__organisms (environments w4 self))), w4)).
  run_with (eq_refl : Environment.get_organisms_by_type self CHerbivore w4
                      = (Return (filter (fun r => isinstance (heap w4 r) CHerbivore)
                                        (__organisms (environments w4 self))), w4)).
  rewrite (Hmembers w4 H4).
  set (carnivores := filter (fun r => isinstance (heap w4 r) CCarnivore) L).
  set (herbivores := filter (fun r => isinstance (heap w4 r) CHerbivore) L).
  destruct (for_each_total Inv carnivores (Environment.send_hunting herbivores))
    with (w := w4) as (w5 & Hrun5 & H5); [|exact H4|].
  { intros x w0 Hx H0. apply Hstep; [exact H0 | | apply same_kind_send_hunting].
    apply send_hunting_returns. right. split.
    - rewrite (Hclass w4 w0 x H4 H0). apply class_carnivore.
      unfold carnivores in Hx. now apply filter_In in Hx.
    - apply chaseable_filter. now apply Hchase. }
  run_with Hrun5.
  run_with (select_run _is_alive herbivores w5).
  run_with (eq_refl : Environment.get_organisms_by_type self CPlant w5
                      = (Return (filter (fun r => isinstance (heap w5 r) CPlant)
                                        (__organisms (environments w5 self))), w5)).
  match goal with |- exists _ _, bind (for_each ?l ?b) _ _ = _ =>
    destruct (for_each_total Inv l b) with (w := w5) as (w6 & Hrun6 & H6); [|exact H5|]
  end.
  { intros x w0 Hx H0. apply Hstep; [exact H0 | | apply same_kind_send_hunting].
    apply send_hunting_returns. left.
    rewrite (Hclass w4 w0 x H4 H0). apply class_herbivore.
    apply filter_In in Hx. destruct Hx as [Hx _].
    unfold herbivores in Hx. now apply filter_In in Hx. }
  run_with Hrun6.
  run_with (eq_refl : Environment.organisms self w6
                      = (Return (__organisms (environments w6 self)), w6)).
  destruct (for_each_total Inv (__organisms (environments w6 self)) Environment.upkeep)
    with (w := w6) as (w7 & Hrun7 & H7); [|exact H6|].
  { intros x w0 _ H0. apply Hstep; [exact H0 | apply upkeep_returns | apply same_kind_upkeep]. }
  run_with Hrun7.
  eexists. eexists. reflexivity.
Qed.

Lemma same_kind_days (self : ref) (n : nat) (w : world) : same_kind w (days self n w).
Proof.
  induction n as [|n IH]; cbn.
  - apply same_kind_refl.
  - eapply same_kind_trans; [exact IH | apply same_kind_simulate_day].
Qed.

(** C6. Each call of [simulate_day] adds exactly one to the day counter,
    whatever the population, and a call that returns returns the updated
    counter; after [n] calls the counter has grown by [n], so it is [n] when it
    started at [0]. The call does return when the collection is empty, and
    more generally when no herbivore of the environment has speed [-1]. *)
Theorem simulate_day_counter (self : ref) (w : world) :
  let day := __day_count (environments w self) in
  let members := __organisms (environments w self) in
  let run := Environment.simulate_day self in
  __day_count (environments (after run w) self) = S day
  /\ (forall d, result run w = Return d -> d = S day)
  /\ (chaseable w members -> result run w = Return (S day))
  /\ (members = [] -> result run w = Return (S day))
  /\ (forall n, __day_count (environments (days self n w) self) = (n + day)%nat)
  /\ (forall n, day = 0%nat -> __day_count (environments (days self n w) self) = n)
  /\ (forall n, chaseable w members -> result run (days self n w) = Return (S (n + day))).
Proof.
  intros day members run.
  assert (Hvalue : forall w0 d, result run w0 = Return d ->
                                d = S (__day_count (environments w0 self))).
  { intros w0 d Hd. unfold result in Hd.
    destruct (run w0) as [o w'] eqn:E. cbn in Hd. subst o.
    rewrite (simulate_day_returns_counter self w0 d w' E).
    rewrite <- (returns_then_after _ _ _ _ E). apply simulate_day_counts_one. }
  assert (Hreturns : forall w0, chaseable w0 (__organisms (environments w0 self)) ->
                                result run w0
                                = Return (S (__day_count (environments w0 self)))).
  { intros w0 Hok. destruct (simulate_day_returns self w0 Hok) as (d & w' & E).
    assert (Hd : result run w0 = Return d) by (unfold result, run; now rewrite E).
    now rewrite Hd, (Hvalue w0 d Hd). }
  assert (Hdays : forall n, __day_count (environments (days self n w) self) = (n + day)%nat).
  { induction n as [|n IH]; [reflexivity|].
    change (days self (S n) w) with (after run (days self n w)).
    unfold run. now rewrite simulate_day_counts_one, IH. }
  split; [apply simulate_day_counts_one|].
  split; [apply Hvalue|].
  split; [apply Hreturns|].
  split.
  { intro Hempty. apply Hreturns. fold members. rewrite Hempty. intros r a p []. }
  split; [exact Hdays|].
  split.
  { intros n H0. rewrite Hdays, H0. apply Nat.add_0_r. }
  intros n Hok. rewrite <- Hdays. apply Hreturns.
  pose proof (same_kind_days self n w) as Hk.
  destruct Hk as [Hshape Hlist]. rewrite Hlist.
  apply (same_kind_chaseable w); [|exact Hok]. split; assumption.
Qed.

Lemma forest_chaseable (g : rng) :
  chaseable (forest g) (__organisms (environments (forest g) 0%nat)).
Proof.
  intros r a p Hin Hext. cbn in Hin.
  destruct Hin as [<- | [<- | [<- | [<- | [<- | []]]]]]; cbn in Hext; try discriminate.
  injection Hext as <- _. cbn. intro H. vm_compute in H. discriminate.
Qed.

Lemma simulate_day_counter_witness :
  chaseable (forest (constant_rng 0.5 0)) (__organisms (environments (forest (constant_rng 0.5 0)) 0%nat))
  /\ result (Environment.simulate_day 0%nat) (forest (constant_rng 0.5 0)) = Return 1%nat
  /\ __day_count (environments (days 0%nat 3 (forest (constant_rng 0.5 0))) 0%nat) = 3%nat.
Proof.
  pose proof (simulate_day_counter 0%nat (forest (constant_rng 0.5 0))) as H.
  cbv zeta in H. destruct H as (_ & _ & Hret & _ & _ & Hn & _).
  split; [apply forest_chaseable|].
  split.
  - exact (Hret (forest_chaseable (constant_rng 0.5 0))).
  - exact (Hn 3%nat eq_refl).
Defined.

(** Where the tick does not return: the wolf's hunt divides by
    [target.speed + 1 = 0]; the exception leaves [simulate_day] after the
    counter was incremented. *)
Lemma simulate_day_with_speed_minus_one :
  result (Environment.simulate_day 0%nat) forest_with_backward_rabbit
  = Raise ZeroDivisionError
  /\ __day_count (environments
                    (after (Environment.simulate_day 0%nat) forest_with_backward_rabbit)
                    0%nat) = 1%nat.
Proof. split; vm_compute; reflexivity. Qed.


(** * Further properties of the code *)

(** ** The [interact] methods *)

Lemma read_run (r : ref) (w : world) : read r w = (Return (heap w r), w).
Proof. reflexivity. Qed.

Lemma herbivore_interact_run (w : world) (self other : ref) (a : animal) (p : string) :
  ext (heap w self) = HerbivorePart a p ->
  let me := heap w self in
  let t := py_min 25 (_energy (heap w other)) in
  Herbivore.interact self other w
  = if isinstance (heap w other) CPlant && _is_alive me && _is_alive (heap w other)
    then (Return true,
          set_heap w
            (store (store (store (heap w) self (store_energy (_energy me + t) me))
                          other (store_energy (_energy (heap w other) - t) (heap w other)))
                   self (feed (store_energy (_energy me + t) me))))
    else (Return false, w).
Proof.
  intros Hh me t. subst me t. unfold Herbivore.interact.
  run_with (read_run other w). run_with (read_run self w).
  destruct (isinstance (heap w other) CPlant) eqn:Hi; cbn [andb]; [|reflexivity].
  destruct (_is_alive (heap w self)) eqn:Hme; cbn [andb]; [|reflexivity].
  destruct (_is_alive (heap w other)) eqn:Ho; [|reflexivity].
  destruct (isinstance_plant _ Hi) as (g & Hg).
  assert (Hneq : other <> self).
  { intros ->. rewrite Hh in Hg. discriminate. }
  run_with (energy_run self w).
  run_with (set_energy_run self (_energy (heap w self) + py_min 25 (_energy (heap w other))) w).
  match goal with |- bind _ _ ?x = _ => set (w1 := x) end.
  run_with (energy_run other w1).
  run_with (set_energy_run other (_energy (heap w1 other)
                                  - py_min 25 (_energy (heap w other))) w1).
  match goal with |- bind _ _ ?x = _ => set (w2 := x) end.
  assert (Ha : animal_of (heap w2 self) = Some a).
  { subst w2 w1. cbn [heap set_heap]. rewrite (store_other _ other self) by congruence.
    rewrite store_same. unfold animal_of. now rewrite store_energy_ext, Hh. }
  run_with (count_meal_run self a w2 Ha).
  unfold ret. subst w2 w1. cbn [heap set_heap].
  rewrite (store_other _ other self) by congruence.
  rewrite !(store_other _ self other) by congruence.
  rewrite !store_same. reflexivity.
Qed.

(** X1. [Herbivore.interact]: without a living Plant as target, or when the
    herbivore is dead, the result is [False] and nothing changes. Otherwise
    the result is [True], [min(25, plant energy)] goes through the setters
    from the plant to the herbivore, the feeding counter [_food_eaten]
    becomes its successor while speed and diet stay, and no other object
    changes; for non-negative energies the amounts are exact and the two
    energies keep their sum. The amount is the plant's energy below [25] and
    [25] from there on. *)
Theorem herbivore_interact_spec (w : world) (self other : ref) (a : animal) (p : string) :
  ext (heap w self) = HerbivorePart a p ->
  let me := heap w self in
  let plant := heap w other in
  let t := py_min 25 (_energy plant) in
  let w' := after (Herbivore.interact self other) w in
  (isinstance plant CPlant = false \/ _is_alive me = false \/ _is_alive plant = false ->
   Herbivore.interact self other w = (Return false, w))
  /\ (isinstance plant CPlant = true -> _is_alive me = true -> _is_alive plant = true ->
      result (Herbivore.interact self other) w = Return true
      /\ _energy (heap w' self) = py_max 0 (_energy me + t)
      /\ _energy (heap w' other) = py_max 0 (_energy plant - t)
      /\ animal_of (heap w' self)
         = Some (mk_animal (_speed a) (_diet_type a) (S (_food_eaten a)))
      /\ (forall r, r <> self -> r <> other -> heap w' r = heap w r)
      /\ (0 <= _energy me -> 0 <= _energy plant ->
          _energy (heap w' self) == _energy me + t
          /\ _energy (heap w' other) == _energy plant - t
          /\ _energy (heap w' self) + _energy (heap w' other)
             == _energy me + _energy plant)
      /\ (_energy plant < 25 -> t = _energy plant)
      /\ (25 <= _energy plant -> t = 25)).
Proof.
  intros Hh me plant t w'.
  pose proof (herbivore_interact_run w self other a p Hh) as Hrun. cbv zeta in Hrun.
  fold me plant t in Hrun.
  split.
  - intros [H | [H | H]]; rewrite Hrun, H; cbn [andb];
      rewrite ?andb_false_r; reflexivity.
  - intros Hi Hme Ho. rewrite Hi, Hme, Ho in Hrun. cbn [andb] in Hrun.
    assert (Hneq : other <> self).
    { intros E. destruct (isinstance_plant _ Hi) as (g & Hg). subst plant.
      rewrite E, Hh in Hg. discriminate. }
    assert (Hs : _energy (heap w' self) = py_max 0 (_energy me + t)).
    { subst w'. unfold after. rewrite Hrun. cbn [snd heap set_heap].
      rewrite store_same. unfold feed. rewrite store_energy_ext. subst me.
      rewrite Hh. cbn. apply store_energy_energy. }
    assert (Ht : _energy (heap w' other) = py_max 0 (_energy plant - t)).
    { subst w'. unfold after. rewrite Hrun. cbn [snd heap set_heap].
      rewrite (store_other _ self other) by congruence.
      now rewrite store_same, store_energy_energy. }
    split; [unfold result; now rewrite Hrun|].
    split; [exact Hs|]. split; [exact Ht|].
    split.
    { subst w'. unfold after. rewrite Hrun. cbn [snd heap set_heap].
      rewrite store_same. unfold feed, animal_of. rewrite store_energy_ext.
      subst me. now rewrite Hh. }
    split.
    { intros r H1 H2. subst w'. unfold after. rewrite Hrun. cbn [snd heap set_heap].
      now rewrite !store_other by assumption. }
    split.
    { intros H0 H1. rewrite Hs, Ht.
      pose proof (py_min_le_r 25 (_energy plant)) as Hle. fold t in Hle.
      assert (Htn : 0 <= t) by (subst t; apply py_min_nonneg; lra).
      rewrite !py_max_0_of_nonneg by lra.
      repeat split; lra. }
    split; intro Hcap; subst t; [now apply py_min_second | now apply py_min_first].
Qed.

Lemma herbivore_interact_spec_witness :
  let w := rabbit_oak_grass in
  result (Herbivore.interact 0%nat 2%nat) w = Return true
  /\ _energy (heap (after (Herbivore.interact 0%nat 2%nat) w) 0%nat) == 70 + 25
  /\ animal_of (heap (after (Herbivore.interact 0%nat 2%nat) w) 0%nat)
     = Some (mk_animal 3 "herbivore" 1).
Proof.
  intro w.
  pose proof (herbivore_interact_spec w 0%nat 2%nat (mk_animal 3 "herbivore" 0) "grass"
                                      eq_refl) as H.
  cbv zeta in H. destruct H as [_ H].
  destruct (H eq_refl eq_refl eq_refl) as (Hres & _ & _ & Hfed & _ & Hexact & _).
  split; [exact Hres|]. split; [|exact Hfed].
  destruct Hexact as (Hs & _ & _).
  - vm_compute. discriminate.
  - vm_compute. discriminate.
  - rewrite Hs. vm_compute. reflexivity.
Defined.

Lemma carnivore_interact_run (w : world) (self other : ref) (a : animal) (eff : Q) :
  ext (heap w self) = CarnivorePart a eff ->
  Carnivore.interact self other w
  = if isinstance (heap w other) CHerbivore && _is_alive (heap w self)
       && _is_alive (heap w other)
    then
      if Qle_bool (rand_float (gen w) (drawn (gen w))) eff
      then (Return true,
            set_heap (set_gen w (advance (gen w)))
              (store (store (store (heap w) self
                                   (store_energy (_energy (heap w self)
                                                  + py_min 40 (_energy (heap w other)))
                                                 (heap w self)))
                            other (store_energy 0 (heap w other)))
                     self (feed (store_energy (_energy (heap w self)
                                               + py_min 40 (_energy (heap w other)))
                                              (heap w self)))))
      else (Return false, set_gen w (advance (gen w)))
    else (Return false, w).
Proof.
  intros Hc. unfold Carnivore.interact.
  run_with (read_run other w). run_with (read_run self w).
  destruct (isinstance (heap w other) CHerbivore) eqn:Hi; cbn [andb]; [|reflexivity].
  destruct (_is_alive (heap w self)) eqn:Hme; cbn [andb]; [|reflexivity].
  destruct (_is_alive (heap w other)) eqn:Ho; [|reflexivity].
  destruct (isinstance_herbivore _ Hi) as (ta & tp & Ht).
  assert (Hneq : other <> self).
  { intros ->. rewrite Hc in Ht. discriminate. }
  run_with (hunting_efficiency_run self a eff w Hc).
  run_with (random_random_run w).
  set (w1 := set_gen w (advance (gen w))).
  assert (Hw1 : heap w1 = heap w) by reflexivity.
  destruct (Qle_bool _ _); [|reflexivity].
  run_with (energy_run other w1).
  run_with (energy_run self w1).
  run_with (set_energy_run self (_energy (heap w1 self)
                                 + py_min 40 (_energy (heap w1 other))) w1).
  match goal with |- bind _ _ ?x = _ => set (w2 := x) end.
  run_with (set_energy_run other 0 w2).
  match goal with |- bind _ _ ?x = _ => set (w3 := x) end.
  assert (Ha : animal_of (heap w3 self) = Some a).
  { subst w3 w2. cbn [heap set_heap]. rewrite (store_other _ other self) by congruence.
    rewrite store_same. unfold animal_of. now rewrite store_energy_ext, Hw1, Hc. }
  run_with (count_meal_run self a w3 Ha).
  unfold ret. subst w3 w2. cbn [heap set_heap].
  rewrite (store_other _ other self) by congruence.
  rewrite (store_other _ self other) by congruence.
  rewrite !store_same, !Hw1. reflexivity.
Qed.

(** X2. [Carnivore.interact]: without a living Herbivore as target, or when
    the carnivore is dead, the result is [False], nothing changes and no
    random number is drawn. Otherwise one value [r] of [random.random()] is
    drawn: if [r <= hunting_efficiency] the result is [True], the carnivore's
    setter receives its energy plus [min(40, prey energy)], the prey's energy
    (the prey's energy below [40], and [40] from there on), the prey's energy
    becomes [0] and it dies, and the feeding counter [_food_eaten] becomes
    its successor while speed and diet stay; if not, the result is [False]
    and no organism changes (a miss costs no energy, unlike a failed
    [hunt]). *)
Theorem carnivore_interact_spec (w : world) (self other : ref) (a : animal) (eff : Q) :
  ext (heap w self) = CarnivorePart a eff ->
  let me := heap w self in
  let prey := heap w other in
  let r := rand_float (gen w) (drawn (gen w)) in
  let gain := py_min 40 (_energy prey) in
  let w' := after (Carnivore.interact self other) w in
  (isinstance prey CHerbivore = false \/ _is_alive me = false \/ _is_alive prey = false ->
   Carnivore.interact self other w = (Return false, w))
  /\ (isinstance prey CHerbivore = true -> _is_alive me = true -> _is_alive prey = true ->
      (r <= eff ->
       result (Carnivore.interact self other) w = Return true
       /\ _energy (heap w' self) = py_max 0 (_energy me + gain)
       /\ (0 <= _energy me -> 0 <= _energy prey ->
           _energy (heap w' self) == _energy me + gain)
       /\ (_energy prey < 40 -> gain = _energy prey)
       /\ (40 <= _energy prey -> gain = 40)
       /\ _energy (heap w' other) = 0
       /\ _is_alive (heap w' other) = false
       /\ animal_of (heap w' self)
          = Some (mk_animal (_speed a) (_diet_type a) (S (_food_eaten a)))
       /\ (forall x, x <> self -> x <> other -> heap w' x = heap w x))
      /\ (~ r <= eff ->
          result (Carnivore.interact self other) w = Return false
          /\ heap w' = heap w)).
Proof.
  intros Hc me prey r gain w'.
  pose proof (carnivore_interact_run w self other a eff Hc) as Hrun.
  fold me prey r gain in Hrun.
  split.
  - intros [H | [H | H]]; rewrite Hrun, H; cbn [andb];
      rewrite ?andb_false_r; reflexivity.
  - intros Hi Hme Ho. rewrite Hi, Hme, Ho in Hrun. cbn [andb] in Hrun.
    assert (Hneq : other <> self).
    { intros E. destruct (isinstance_herbivore _ Hi) as (ta & tp & Ht). subst prey.
      rewrite E, Hc in Ht. discriminate. }
    split.
    + intro Hle. apply Qle_bool_iff in Hle. rewrite Hle in Hrun.
      assert (Hs : _energy (heap w' self) = py_max 0 (_energy me + gain)).
      { subst w'. unfold after. rewrite Hrun. cbn [snd heap set_heap].
        rewrite store_same. unfold feed. rewrite store_energy_ext. subst me.
        rewrite Hc. cbn. apply store_energy_energy. }
      split; [unfold result; now rewrite Hrun|].
      split; [exact Hs|].
      split.
      { intros H0 H1. rewrite Hs. apply py_max_0_of_nonneg.
        assert (0 <= gain) by (subst gain; apply py_min_nonneg; lra). lra. }
      split; [intro Hcap; subst gain; now apply py_min_second|].
      split; [intro Hcap; subst gain; now apply py_min_first|].
      subst w'. unfold after. rewrite Hrun. cbn [snd heap set_heap].
      repeat split.
      * rewrite (store_other _ self other) by congruence.
        now rewrite store_same, store_energy_energy.
      * rewrite (store_other _ self other) by congruence.
        now rewrite store_same, store_energy_alive.
      * rewrite store_same. unfold feed, animal_of. rewrite store_energy_ext.
        subst me. now rewrite Hc.
      * intros x H1 H2. now rewrite !store_other by assumption.
    + intro Hnle. apply Qle_bool_false_iff in Hnle. rewrite Hnle in Hrun.
      subst w'. unfold result, after. rewrite Hrun. split; reflexivity.
Qed.

Lemma carnivore_interact_spec_witness :
  let w := wolf_and_rabbit 0.7 in
  result (Carnivore.interact 0%nat 1%nat) w = Return true
  /\ _energy (heap (after (Carnivore.interact 0%nat 1%nat) w) 0%nat) == 80 + 40
  /\ animal_of (heap (after (Carnivore.interact 0%nat 1%nat) w) 0%nat)
     = Some (mk_animal 5 "carnivore" 1).
Proof.
  intro w.
  pose proof (carnivore_interact_spec w 0%nat 1%nat (mk_animal 5 "carnivore" 0) 0.7
                                      eq_refl) as H.
  cbv zeta in H. destruct H as [_ H].
  destruct (H eq_refl eq_refl eq_refl) as [Hyes _].
  assert (Hdraw : rand_float (gen w) (drawn (gen w)) <= 0.7) by (vm_compute; discriminate).
  destruct (Hyes Hdraw) as (Hres & _ & Hsum & _ & _ & _ & _ & Hfed & _).
  split; [exact Hres|]. split; [|exact Hfed].
  rewrite Hsum.
  - vm_compute. reflexivity.
  - vm_compute. discriminate.
  - vm_compute. discriminate.
Defined.

Lemma plant_interact_run (w : world) (self other : ref) (g : Q) :
  ext (heap w self) = PlantPart g ->
  Plant.interact self other w
  = if isinstance (heap w other) CHerbivore && _is_alive (heap w self)
    then (Return true,
          set_heap w
            (store (store (heap w) other
                          (store_energy (_energy (heap w other)
                                         + py_min 25 (_energy (heap w self)))
                                        (heap w other)))
                   self (store_energy (_energy (heap w self)
                                       - py_min 25 (_energy (heap w self)))
                                      (heap w self))))
    else (Return false, w).
Proof.
  intros Hg. unfold Plant.interact.
  run_with (read_run other w). run_with (read_run self w).
  destruct (isinstance (heap w other) CHerbivore) eqn:Hi; cbn [andb]; [|reflexivity].
  destruct (_is_alive (heap w self)) eqn:Hme; [|reflexivity].
  destruct (isinstance_herbivore _ Hi) as (ta & tp & Ht).
  assert (Hneq : self <> other).
  { intros ->. rewrite Hg in Ht. discriminate. }
  run_with (energy_run other w).
  run_with (set_energy_run other (_energy (heap w other)
                                  + py_min 25 (_energy (heap w self))) w).
  match goal with |- bind _ _ ?x = _ => set (w1 := x) end.
  run_with (energy_run self w1).
  run_with (set_energy_run self (_energy (heap w1 self)
                                 - py_min 25 (_energy (heap w self))) w1).
  unfold ret. subst w1. cbn [heap set_heap].
  rewrite !(store_other _ other self) by congruence. reflexivity.
Qed.

(** X3. [Plant.interact] on a living plant and any Herbivore, dead or alive:
    the result is [True] and [min(25, plant energy)] goes through the setters
    from the plant to the herbivore; the herbivore's feeding counter stays
    as it was and a dead herbivore stays dead, no other object changes, and
    for non-negative energies the two energies keep their sum. *)
Theorem plant_interact_spec (w : world) (self other : ref) (g : Q) :
  ext (heap w self) = PlantPart g ->
  isinstance (heap w other) CHerbivore = true ->
  _is_alive (heap w self) = true ->
  let plant := heap w self in
  let eater := heap w other in
  let t := py_min 25 (_energy plant) in
  let w' := after (Plant.interact self other) w in
  result (Plant.interact self other) w = Return true
  /\ _energy (heap w' other) = py_max 0 (_energy eater + t)
  /\ _energy (heap w' self) = py_max 0 (_energy plant - t)
  /\ ext (heap w' other) = ext eater
  /\ (_is_alive eater = false -> _is_alive (heap w' other) = false)
  /\ (forall r, r <> self -> r <> other -> heap w' r = heap w r)
  /\ (0 <= _energy plant -> 0 <= _energy eater ->
      _energy (heap w' self) + _energy (heap w' other) == _energy plant + _energy eater).
Proof.
  intros Hg Hi Halive plant eater t w'.
  pose proof (plant_interact_run w self other g Hg) as Hrun.
  rewrite Hi, Halive in Hrun. cbn [andb] in Hrun. fold plant eater t in Hrun.
  assert (Hneq : self <> other).
  { intros E. destruct (isinstance_herbivore _ Hi) as (ta & tp & Ht).
    rewrite <- E, Hg in Ht. discriminate. }
  assert (Ho : heap w' other = store_energy (_energy eater + t) eater).
  { subst w'. unfold after. rewrite Hrun. cbn [snd heap set_heap].
    rewrite (store_other _ self other) by congruence. now rewrite store_same. }
  assert (Hs : heap w' self = store_energy (_energy plant - t) plant).
  { subst w'. unfold after. rewrite Hrun. cbn [snd heap set_heap]. now rewrite store_same. }
  split; [unfold result; now rewrite Hrun|].
  split; [rewrite Ho; apply store_energy_energy|].
  split; [rewrite Hs; apply store_energy_energy|].
  split; [rewrite Ho; apply store_energy_ext|].
  split.
  { intro Hd. rewrite Ho, store_energy_alive, Hd. now destruct (Qlt_bool _ _). }
  split.
  { intros r H1 H2. subst w'. unfold after. rewrite Hrun. cbn [snd heap set_heap].
    now rewrite !store_other by assumption. }
  intros H0 H1. rewrite Ho, Hs, !store_energy_energy.
  pose proof (py_min_le_r 25 (_energy plant)) as Hle. fold t in Hle.
  assert (Htn : 0 <= t) by (subst t; apply py_min_nonneg; lra).
  rewrite !py_max_0_of_nonneg by lra. lra.
Qed.

Lemma plant_interact_spec_witness :
  let w := rabbit_oak_grass in
  result (Plant.interact 2%nat 0%nat) w = Return true
  /\ _energy (heap (after (Plant.interact 2%nat 0%nat) w) 2%nat)
     + _energy (heap (after (Plant.interact 2%nat 0%nat) w) 0%nat) == 50 + 70.
Proof.
  intro w.
  pose proof (plant_interact_spec w 2%nat 0%nat 0.3 eq_refl eq_refl eq_refl) as H.
  cbv zeta in H. destruct H as (Hres & _ & _ & _ & _ & _ & Hsum).
  split; [exact Hres|].
  apply Hsum; vm_compute; discriminate.
Defined.

(** X4. Through method resolution, [a.interact(b)] returns [False] and
    changes nothing whenever [a] is dead, or the classes of [a] and [b] are
    not one of the pairs Plant-Herbivore, Herbivore-Plant,
    Carnivore-Herbivore. *)
Theorem interact_off_the_food_chain (w : world) (self other : ref) :
  food_chain (class_of (heap w self)) (class_of (heap w other)) = false
  \/ _is_alive (heap w self) = false ->
  interact self other w = (Return false, w).
Proof.
  intro H. unfold interact. run_with (read_run self w).
  assert (Hinst : forall c, isinstance (heap w other) c = issubclass (class_of (heap w other)) c)
    by reflexivity.
  destruct (class_of (heap w self)) eqn:Hc.
  - reflexivity.
  - unfold Plant.interact. run_with (read_run other w). run_with (read_run self w).
    destruct H as [H | H].
    + rewrite Hinst. destruct (class_of (heap w other)); try discriminate; reflexivity.
    + rewrite H, andb_false_r. reflexivity.
  - reflexivity.
  - unfold Herbivore.interact. run_with (read_run other w). run_with (read_run self w).
    destruct H as [H | H].
    + rewrite Hinst. destruct (class_of (heap w other)); try discriminate; reflexivity.
    + rewrite H, andb_false_r. reflexivity.
  - unfold Carnivore.interact. run_with (read_run other w). run_with (read_run self w).
    destruct H as [H | H].
    + rewrite Hinst. destruct (class_of (heap w other)); try discriminate; reflexivity.
    + rewrite H, andb_false_r. reflexivity.
Qed.

Lemma interact_off_the_food_chain_witness :
  interact 1%nat 5%nat (forest (constant_rng 0 0)) = (Return false, forest (constant_rng 0 0)).
Proof.
  apply interact_off_the_food_chain. left. reflexivity.
Defined.

(** ** Removing and finding members *)

Lemma pop_first_none (h : ref -> organism) (organism_id : string) (l : list ref) :
  Environment.pop_first h organism_id l = None
  <-> (forall r, In r l -> _id (h r) <> organism_id).
Proof.
  induction l as [|x l IH]; cbn.
  - split; [intros _ r [] | reflexivity].
  - destruct (String.eqb_spec (_id (h x)) organism_id) as [E | E].
    + split; [discriminate | intro H; exfalso; exact (H x (or_introl eq_refl) E)].
    + destruct (Environment.pop_first h organism_id l) as [l'|].
      * split; [discriminate|]. intro H.
        assert (Hl : forall r, In r l -> _id (h r) <> organism_id) by (intros; apply H; now right).
        apply IH in Hl. discriminate.
      * split; [|reflexivity]. intros _ r [<- | Hr]; [exact E|].
        now apply (proj1 IH eq_refl).
Qed.

Lemma pop_first_some (h : ref -> organism) (organism_id : string) (l l' : list ref) :
  Environment.pop_first h organism_id l = Some l' ->
  exists l1 r l2,
    l = l1 ++ r :: l2 /\ l' = l1 ++ l2 /\ _id (h r) = organism_id
    /\ (forall x, In x l1 -> _id (h x) <> organism_id).
Proof.
  revert l'. induction l as [|x l IH]; cbn; intros l' H; [discriminate|].
  destruct (String.eqb_spec (_id (h x)) organism_id) as [E | E].
  - injection H as <-. exists [], x, l.
    split; [reflexivity|]. split; [reflexivity|]. split; [exact E|]. intros y [].
  - destruct (Environment.pop_first h organism_id l) as [l0|]; [|discriminate].
    injection H as <-.
    destruct (IH l0 eq_refl) as (l1 & r & l2 & -> & -> & Hr & Hl1).
    exists (x :: l1), r, l2.
    split; [reflexivity|]. split; [reflexivity|]. split; [exact Hr|].
    intros y [<- | Hy]; [exact E | now apply Hl1].
Qed.

Lemma remove_organism_run (self : ref) (organism_id : string) (w : world) :
  Environment.remove_organism self organism_id w
  = match Environment.pop_first (heap w) organism_id (roster w self) with
    | Some l =>
        (Return true,
         set_environments w
           (store (environments w) self (with_organisms (environments w self) l)))
    | None => (Return false, w)
    end.
Proof.
  unfold Environment.remove_organism, Environment.attributes, gets, bind, roster. cbn.
  destruct (Environment.pop_first _ _ _); reflexivity.
Qed.

(** X5. [remove_organism(id)] returns [False] and changes nothing when no
    member carries [id]. Otherwise it returns [True] and takes out of the
    collection the first member carrying [id], and only that one: the members
    before and after it keep their order, no organism is modified (the removed
    one included), and the day counter, weather and identifier sequence of
    the environment stay. *)
Theorem remove_organism_spec (w : world) (self : ref) (organism_id : string) :
  let run := Environment.remove_organism self organism_id in
  (id_absent w self organism_id -> run w = (Return false, w))
  /\ (~ id_absent w self organism_id ->
      exists before r behind,
        roster w self = before ++ r :: behind
        /\ _id (heap w r) = organism_id
        /\ (forall x, In x before -> _id (heap w x) <> organism_id)
        /\ result run w = Return true
        /\ roster (after run w) self = before ++ behind
        /\ List.length (roster (after run w) self) = pred (List.length (roster w self))
        /\ heap (after run w) = heap w
        /\ __day_count (environments (after run w) self) = __day_count (environments w self)
        /\ __weather_condition (environments (after run w) self)
           = __weather_condition (environments w self)
        /\ __next_id (environments (after run w) self) = __next_id (environments w self)).
Proof.
  intro run. subst run. split.
  - intro Habs. rewrite remove_organism_run.
    now rewrite (proj2 (pop_first_none _ _ _) Habs).
  - intro Hpres. unfold result, after. rewrite remove_organism_run.
    destruct (Environment.pop_first (heap w) organism_id (roster w self)) as [l'|] eqn:E.
    + destruct (pop_first_some _ _ _ _ E) as (l1 & r & l2 & Hl & -> & Hr & Hl1).
      exists l1, r, l2. cbn [fst snd]. unfold roster in *. cbn. rewrite store_same. cbn.
      repeat split; auto.
      rewrite Hl, !length_app. cbn. lia.
    + exfalso. apply Hpres. exact (proj1 (pop_first_none _ _ _) E).
Qed.

Lemma remove_organism_spec_witness :
  let w := forest (constant_rng 0 0) in
  ~ id_absent w 0%nat "P002"
  /\ result (Environment.remove_organism 0%nat "P002") w = Return true
  /\ List.length (roster (after (Environment.remove_organism 0%nat "P002") w) 0%nat) = 4%nat.
Proof.
  intro w.
  assert (H : ~ id_absent w 0%nat "P002").
  { intro H. exact (H 2%nat ltac:(cbn; tauto) eq_refl). }
  split; [exact H|].
  destruct (proj2 (remove_organism_spec w 0%nat "P002") H)
    as (before & r & behind & _ & _ & _ & Hres & _ & Hlen & _).
  split; [exact Hres | exact Hlen].
Defined.

Lemma filter_head {A : Type} (p : A -> bool) (l : list A) (x : A) (rest : list A) :
  filter p l = x :: rest ->
  exists l1 l2, l = l1 ++ x :: l2 /\ p x = true /\ (forall y, In y l1 -> p y = false).
Proof.
  induction l as [|a l IH]; cbn; [discriminate|].
  destruct (p a) eqn:Ea.
  - intro H. injection H as <- _. exists [], l. repeat split; auto. intros y [].
  - intro H. destruct (IH H) as (l1 & l2 & -> & Hx & Hl1).
    exists (a :: l1), l2. repeat split; auto.
    intros y [<- | Hy]; [exact Ea | now apply Hl1].
Qed.

Lemma filter_nil {A : Type} (p : A -> bool) (l : list A) :
  filter p l = [] <-> (forall y, In y l -> p y = false).
Proof.
  induction l as [|a l IH]; cbn.
  - split; [intros _ y [] | reflexivity].
  - destruct (p a) eqn:Ea.
    + split; [discriminate|]. intro H. specialize (H a (or_introl eq_refl)). congruence.
    + rewrite IH. split.
      * intros H y [<- | Hy]; [exact Ea | now apply H].
      * intros H y Hy. apply H. now right.
Qed.

Lemma find_organism_by_id_run (self : ref) (organism_id : string) (w : world) :
  Environment.find_organism_by_id self organism_id w
  = (match filter (fun r => (_id (heap w r) =? organism_id)%string) (roster w self) with
     | r :: _ => Return r
     | [] => Raise OrganismNotFoundException
     end, w).
Proof.
  unfold Environment.find_organism_by_id, Environment.attributes, select, gets, bind, roster.
  cbn. destruct (filter _ _); reflexivity.
Qed.

(** X6. [find_organism_by_id(id)] never changes anything; it raises
    [OrganismNotFoundException] exactly when no member carries [id], and
    otherwise returns the first member that does. *)
Theorem find_organism_by_id_spec (w : world) (self : ref) (organism_id : string) :
  let run := Environment.find_organism_by_id self organism_id in
  after run w = w
  /\ (result run w = Raise OrganismNotFoundException <-> id_absent w self organism_id)
  /\ (forall e, result run w = Raise e -> e = OrganismNotFoundException)
  /\ (forall r, result run w = Return r ->
        _id (heap w r) = organism_id
        /\ exists before behind,
             roster w self = before ++ r :: behind
             /\ (forall x, In x before -> _id (heap w x) <> organism_id)).
Proof.
  intro run. subst run. unfold result, after. rewrite find_organism_by_id_run. cbn [fst snd].
  split; [reflexivity|].
  destruct (filter _ (roster w self)) as [|r rest] eqn:E.
  - split; [|split].
    + split; [|reflexivity]. intros _ x Hx Hid.
      pose proof (proj1 (filter_nil _ _) E x Hx) as Hf. cbn in Hf.
      apply String.eqb_neq in Hf. contradiction.
    + intros e H. now injection H as <-.
    + intros r H. discriminate.
  - apply filter_head in E. destruct E as (l1 & l2 & Hl & Hr & Hl1).
    apply String.eqb_eq in Hr.
    split; [|split].
    + split; [discriminate|]. intro Habs. exfalso.
      apply (Habs r); [|exact Hr]. rewrite Hl. apply in_or_app. right. now left.
    + intros e H. discriminate.
    + intros r' H. injection H as <-. split; [exact Hr|].
      exists l1, l2. split; [exact Hl|].
      intros x Hx. apply String.eqb_neq. now apply Hl1.
Qed.

Lemma find_organism_by_id_spec_witness :
  id_absent (forest (constant_rng 0 0)) 0%nat "X999"
  /\ result (Environment.find_organism_by_id 0%nat "X999") (forest (constant_rng 0 0))
     = Raise OrganismNotFoundException.
Proof.
  assert (H : id_absent (forest (constant_rng 0 0)) 0%nat "X999").
  { intros r Hr. cbn in Hr.
    destruct Hr as [<- | [<- | [<- | [<- | [<- | []]]]]]; vm_compute; discriminate. }
  split; [exact H|].
  exact (proj2 (proj1 (proj2 (find_organism_by_id_spec (forest (constant_rng 0 0))
                                                       0%nat "X999"))) H).
Defined.

Lemma with_organisms_same (e : Environment) (l : list ref) :
  with_organisms (with_organisms e l) (__organisms e) = e.
Proof. now destruct e. Qed.

(** X7. Round trips through the collection: once [add_organism(o)] has
    succeeded, [find_organism_by_id] of [o]'s identifier returns [o] itself,
    and [remove_organism] of that identifier returns [True] and leaves the
    environment and every organism exactly as they were before the
    addition. *)
Theorem add_then_find_or_remove (w : world) (self o : ref) :
  result (Environment.add_organism self o) w = Return true ->
  let w1 := after (Environment.add_organism self o) w in
  let w2 := after (Environment.remove_organism self (_id (heap w o))) w1 in
  result (Environment.find_organism_by_id self (_id (heap w o))) w1 = Return o
  /\ result (Environment.remove_organism self (_id (heap w o))) w1 = Return true
  /\ environments w2 self = environments w self
  /\ heap w2 = heap w.
Proof.
  intros Hadd w1 w2.
  unfold result in Hadd. rewrite add_organism_run in Hadd.
  destruct (existsb _ _) eqn:Ex; [discriminate|].
  assert (Hfresh : forall r, In r (roster w self) ->
                             (_id (heap w r) =? _id (heap w o))%string = false).
  { intros r Hr. destruct (String.eqb _ _) eqn:E; [|reflexivity].
    assert (existsb (fun org => (_id (heap w org) =? _id (heap w o))%string)
                    (roster w self) = true) by (apply existsb_exists; eauto).
    unfold roster in *. congruence. }
  assert (Hw1 : w1 = set_environments w
                       (store (environments w) self
                          (with_organisms (environments w self) (roster w self ++ [o])))).
  { subst w1. unfold after. rewrite add_organism_run, Ex. reflexivity. }
  assert (Hroster : roster w1 self = roster w self ++ [o]).
  { rewrite Hw1. unfold roster. cbn. now rewrite store_same. }
  assert (Hheap : heap w1 = heap w) by (rewrite Hw1; reflexivity).
  assert (Hpop : Environment.pop_first (heap w1) (_id (heap w o)) (roster w1 self)
                 = Some (roster w self)).
  { rewrite Hroster, Hheap. clear - Hfresh.
    induction (roster w self) as [|x l IH]; cbn.
    - now rewrite String.eqb_refl.
    - rewrite (Hfresh x (or_introl eq_refl)). rewrite IH; [reflexivity|].
      intros r Hr. apply Hfresh. now right. }
  split.
  { unfold result. rewrite find_organism_by_id_run, Hroster, Hheap, filter_app. cbn.
    rewrite String.eqb_refl.
    rewrite (proj2 (filter_nil _ _)); [reflexivity|]. exact Hfresh. }
  subst w2. unfold result, after. rewrite remove_organism_run, Hpop. cbn [fst snd].
  split; [reflexivity|].
  split; [|exact Hheap].
  cbn. rewrite store_same. rewrite Hw1. cbn. rewrite store_same.
  apply with_organisms_same.
Qed.

Lemma add_then_find_or_remove_witness :
  let w := forest_with_one_plant in
  result (Environment.add_organism 0%nat 2%nat)
         (after (Environment.remove_organism 0%nat "P001") w) = Return true
  /\ result (Environment.find_organism_by_id 0%nat "P001")
            (after (Environment.add_organism 0%nat 2%nat)
                   (after (Environment.remove_organism 0%nat "P001") w)) = Return 2%nat.
Proof.
  intro w.
  assert (H : result (Environment.add_organism 0%nat 2%nat)
                     (after (Environment.remove_organism 0%nat "P001") w) = Return true)
    by reflexivity.
  split; [exact H|].
  exact (proj1 (add_then_find_or_remove
                  (after (Environment.remove_organism 0%nat "P001") w) 0%nat 2%nat H)).
Defined.

(** ** Relations every operation respects *)

Section Operations.

Variable R : world -> world -> Prop.
Hypothesis R_refl : forall w, R w w.
Hypothesis R_trans : forall w1 w2 w3, R w1 w2 -> R w2 w3 -> R w1 w3.
Hypothesis R_energy :
  forall r v w, R w (set_heap w (store (heap w) r (store_energy v (heap w r)))).
Hypothesis R_feed :
  forall r w, R w (set_heap w (store (heap w) r (feed (heap w r)))).
Hypothesis R_gen : forall g w, R w (set_gen w g).
Hypothesis R_weather :
  forall self c w,
    R w (set_environments w
           (store (environments w) self (with_weather (environments w self) c))).
Hypothesis R_day :
  forall self w,
    R w (set_environments w
           (store (environments w) self
              (with_day_count (environments w self) (S (__day_count (environments w self)))))).

Lemma keeps_whole_simulate_day (self : ref) : keeps R (Environment.simulate_day self).
Proof.
  intro w.
  apply R_trans
    with (w2 := after (Environment.assign self
                         (fun e => with_day_count e (S (__day_count e)))) w).
  - apply R_day.
  - apply (keeps_simulate_day_after_increment R); assumption.
Qed.

Lemma keeps_set_weather_condition (self : ref) (c : string) :
  keeps R (Environment.set_weather_condition self c).
Proof.
  unfold Environment.set_weather_condition.
  destruct (str_in c _); [apply keeps_set_weather; assumption | apply keeps_ret; assumption].
Qed.

Lemma keeps_then_unit {A : Type} (m : M A) : keeps R m -> keeps R (m ;; ret tt).
Proof.
  intro Hm. apply keeps_bind; try assumption. intro. apply keeps_ret; assumption.
Qed.

Lemma keeps_quiet_operation (op : operation) :
  changes_roster op = false -> keeps R (perform op).
Proof.
  destruct op; cbn [changes_roster perform]; intro Hq; try discriminate.
  - apply keeps_set_energy; assumption.
  - apply keeps_then_unit. apply keeps_consume_energy; assumption.
  - apply keeps_then_unit. apply keeps_photosynthesize; assumption.
  - apply keeps_then_unit. apply keeps_hunt; assumption.
  - apply keeps_then_unit. apply keeps_interact; assumption.
  - apply keeps_then_unit. apply keeps_whole_simulate_day.
  - apply keeps_set_weather_condition.
Qed.

Hypothesis R_roster :
  forall self l w,
    R w (set_environments w
           (store (environments w) self (with_organisms (environments w self) l))).

Lemma keeps_operation (op : operation) : keeps R (perform op).
Proof.
  destruct (changes_roster op) eqn:Hq; [|now apply keeps_quiet_operation].
  destruct op; try discriminate; cbn [perform]; apply keeps_then_unit; intro w.
  - unfold after. rewrite add_organism_run.
    destruct (existsb _ _); [apply R_refl | apply R_roster].
  - unfold after. rewrite remove_organism_run.
    destruct (Environment.pop_first _ _ _); [apply R_roster | apply R_refl].
Qed.

Lemma keeps_operations (ops : list operation) (w : world) : R w (perform_all ops w).
Proof.
  revert w. induction ops as [|op ops IH]; intro w; cbn [perform_all].
  - apply R_refl.
  - eapply R_trans; [apply keeps_operation | apply IH].
Qed.

End Operations.

(** ** The interpreter's [str.lower]

    No operation replaces the function the store carries for [str.lower]. *)

Lemma str_lower_is_fixed (ops : list operation) (w : world) :
  str_lower (perform_all ops w) = str_lower w.
Proof.
  apply (keeps_operations (fun w1 w2 => str_lower w2 = str_lower w1));
    try reflexivity.
  intros w1 w2 w3 H12 H23. now rewrite H23.
Qed.

(** ** What an organism keeps for life *)

Lemma steady_refl (w : world) : steady w w.
Proof. intro r. repeat split; auto. Qed.

Lemma steady_trans (w1 w2 w3 : world) : steady w1 w2 -> steady w2 w3 -> steady w1 w3.
Proof.
  intros H12 H23 r. destruct (H12 r) as ((A1 & B1 & C1) & D1).
  destruct (H23 r) as ((A2 & B2 & C2) & D2).
  repeat split; try congruence. lia.
Qed.

Lemma steady_update (f : organism -> organism) (r : ref) (w : world) :
  (forall o, same_organism o (f o) /\ (meals o <= meals (f o))%nat) ->
  steady w (set_heap w (store (heap w) r (f (heap w r)))).
Proof.
  intros Hf r'. cbn. unfold store.
  destruct (Nat.eqb_spec r' r) as [-> | _]; [apply Hf | repeat split; auto].
Qed.

Lemma steady_energy (r : ref) (v : Q) (w : world) :
  steady w (set_heap w (store (heap w) r (store_energy v (heap w r)))).
Proof.
  apply steady_update. intro o. unfold same_organism, meals, animal_of.
  rewrite store_energy_id, store_energy_species, store_energy_ext. repeat split; auto.
Qed.

Lemma steady_feed (r : ref) (w : world) :
  steady w (set_heap w (store (heap w) r (feed (heap w r)))).
Proof.
  apply steady_update. intro o. unfold same_organism, meals, animal_of, feed.
  destruct (ext o) eqn:E; cbn; rewrite ?E; repeat split; auto.
Qed.

Lemma steady_same_heap (w w' : world) : heap w' = heap w -> steady w w'.
Proof. intros E r. rewrite E. repeat split; auto. Qed.

(** X8. Whatever sequence of operations runs, an organism keeps its
    identifier, species name, class, growth rate, speed, diet, plant
    preference and hunting efficiency, and its feeding counter never
    decreases. *)
Theorem organisms_keep_their_identity (ops : list operation) (w : world) (r : ref) :
  let o := heap w r in
  let o' := heap (perform_all ops w) r in
  _id o' = _id o
  /\ _species_name o' = _species_name o
  /\ class_of o' = class_of o
  /\ (forall g, ext o = PlantPart g -> ext o' = PlantPart g)
  /\ (forall a, animal_of o = Some a ->
        exists a', animal_of o' = Some a'
                   /\ _speed a' = _speed a /\ _diet_type a' = _diet_type a
                   /\ (_food_eaten a <= _food_eaten a')%nat)
  /\ (forall a p, ext o = HerbivorePart a p -> exists a', ext o' = HerbivorePart a' p)
  /\ (forall a h, ext o = CarnivorePart a h -> exists a', ext o' = CarnivorePart a' h).
Proof.
  intros o o'.
  assert (H : steady w (perform_all ops w)).
  { apply keeps_operations;
      first [ exact steady_refl | exact steady_trans | exact steady_energy
            | exact steady_feed | intros; now apply steady_same_heap ]. }
  destruct (H r) as ((Hid & Hsp & Hshape) & Hmeals). fold o o' in Hid, Hsp, Hshape, Hmeals.
  split; [exact Hid|]. split; [exact Hsp|].
  unfold meals, animal_of, class_of in *.
  destruct (ext o) as [ | g | a | a p | a h] eqn:E,
           (ext o') as [ | g' | a' | a' p' | a' h'] eqn:E';
    cbn in Hshape; try discriminate; cbn in Hmeals.
  - repeat split; intros; discriminate.
  - injection Hshape as ->. repeat split; intros; try discriminate; congruence.
  - injection Hshape as Hs Hd.
    repeat split; try (intros; discriminate).
    intros x Hx. injection Hx as <-. exists a'. auto.
  - injection Hshape as Hs Hd ->.
    repeat split; try (intros; discriminate).
    + intros x Hx. injection Hx as <-. exists a'. auto.
    + intros x q Hx. injection Hx as <- <-. now exists a'.
  - injection Hshape as Hs Hd ->.
    repeat split; try (intros; discriminate).
    + intros x Hx. injection Hx as <-. exists a'. auto.
    + intros x q Hx. injection Hx as <- <-. now exists a'.
Qed.

Lemma organisms_keep_their_identity_witness :
  let w := forest (constant_rng 0 0) in
  exists a', animal_of (heap (perform_all [SimulateDay 0%nat; Interact 5%nat 4%nat] w) 5%nat)
             = Some a'
             /\ _speed a' = 5.
Proof.
  intro w.
  destruct (organisms_keep_their_identity [SimulateDay 0%nat; Interact 5%nat 4%nat] w 5%nat)
    as (_ & _ & _ & _ & H & _).
  destruct (H (mk_animal 5 "carnivore" 0) eq_refl) as (a' & Ha & Hs & _).
  exists a'. split; assumption.
Defined.

(** ** Energies stay sane *)

Lemma store_energy_sane (v : Q) (o : organism) : sane (store_energy v o).
Proof.
  unfold sane. rewrite store_energy_energy, store_energy_alive.
  split; [apply py_max_0_nonneg|].
  destruct (Qlt_bool 0 v) eqn:E; [|discriminate].
  intros _. unfold py_max. rewrite E. now apply Qlt_bool_iff.
Qed.

Lemma feed_energy (o : organism) : _energy (feed o) = _energy o.
Proof. unfold feed. destruct (ext o); reflexivity. Qed.

(** X9. Every energy mutation goes through the setter, so no sequence of
    operations breaks this: an organism whose energy is non-negative, and
    positive if it is alive, is still so afterwards. *)
Theorem energy_stays_sane (ops : list operation) (w : world) (r : ref) :
  sane (heap w r) -> sane (heap (perform_all ops w) r).
Proof.
  revert r. change (stay_sane w (perform_all ops w)).
  apply keeps_operations.
  - intros w0 r H. exact H.
  - intros w1 w2 w3 H12 H23 r H. apply H23, H12, H.
  - intros r v w0 r' H. cbn. unfold store.
    destruct (Nat.eqb_spec r' r) as [-> | _]; [apply store_energy_sane | exact H].
  - intros r w0 r' H. cbn. unfold store.
    destruct (Nat.eqb_spec r' r) as [-> | _]; [|exact H].
    unfold sane in *. now rewrite feed_energy, feed_alive.
  - intros g w0 r H. exact H.
  - intros self c w0 r H. exact H.
  - intros self w0 r H. exact H.
  - intros self l w0 r H. exact H.
Qed.

Lemma energy_stays_sane_witness :
  let w := forest (constant_rng 0.5 0) in
  sane (heap w 4%nat)
  /\ sane (heap (perform_all [SimulateDay 0%nat; SimulateDay 0%nat] w) 4%nat).
Proof.
  intro w.
  assert (H : sane (heap w 4%nat)).
  { split; [vm_compute; discriminate | intros _; vm_compute; reflexivity]. }
  split; [exact H|].
  exact (energy_stays_sane [SimulateDay 0%nat; SimulateDay 0%nat] w 4%nat H).
Defined.

(** ** Identifiers stay unique *)

Lemma same_members_refl (w : world) : same_members w w.
Proof. split; reflexivity. Qed.

Lemma same_members_trans (w1 w2 w3 : world) :
  same_members w1 w2 -> same_members w2 w3 -> same_members w1 w3.
Proof.
  intros [A1 B1] [A2 B2]. split; intro x; [now rewrite A2, A1 | now rewrite B2, B1].
Qed.

Lemma same_members_update (f : organism -> organism) (r : ref) (w : world) :
  (forall o, _id (f o) = _id o) ->
  same_members w (set_heap w (store (heap w) r (f (heap w r)))).
Proof.
  intro Hf. split; [|reflexivity].
  intro r'. cbn. unfold store. destruct (Nat.eqb_spec r' r) as [-> | _]; [apply Hf | reflexivity].
Qed.

Lemma feed_id (o : organism) : _id (feed o) = _id o.
Proof. unfold feed. destruct (ext o); reflexivity. Qed.

Lemma same_members_assign (f : Environment -> Environment) (self : ref) (w : world) :
  (forall e, __organisms (f e) = __organisms e) ->
  same_members w (set_environments w (store (environments w) self (f (environments w self)))).
Proof.
  intro Hf. split; [reflexivity|].
  intro s. unfold roster. cbn. unfold store.
  destruct (Nat.eqb_spec s self) as [-> | _]; [apply Hf | reflexivity].
Qed.

Lemma same_members_quiet (op : operation) (w : world) :
  changes_roster op = false -> same_members w (after (perform op) w).
Proof.
  intro Hq. revert w. change (keeps same_members (perform op)).
  apply keeps_quiet_operation; try exact Hq.
  - exact same_members_refl.
  - exact same_members_trans.
  - intros. apply same_members_update. intro. apply store_energy_id.
  - intros. apply same_members_update. apply feed_id.
  - intros. split; reflexivity.
  - intros self c w. now apply (same_members_assign (fun e => with_weather e c)).
  - intros self w.
    now apply (same_members_assign (fun e => with_day_count e (S (__day_count e)))).
Qed.

Lemma same_members_ids (w w' : world) (self : ref) :
  same_members w w' -> member_ids w' self = member_ids w self.
Proof.
  intros [Hid Hr]. unfold member_ids. rewrite Hr. apply map_ext. intro. apply Hid.
Qed.

Lemma roster_after_store (w : world) (self s : ref) (e : Environment) :
  roster (set_environments w (store (environments w) self e)) s
  = if Nat.eqb s self then __organisms e else roster w s.
Proof. unfold roster, store. cbn. now destruct (Nat.eqb s self). Qed.

(** X10. Uniqueness of identifiers within an environment is an invariant:
    if the members of an environment carry pairwise distinct identifiers,
    they still do after any sequence of operations, additions and removals
    included. *)
Theorem identifiers_stay_unique (ops : list operation) (w : world) (self : ref) :
  unique_ids w self -> unique_ids (perform_all ops w) self.
Proof.
  revert w. induction ops as [|op ops IH]; intros w H; cbn [perform_all]; [exact H|].
  apply IH. clear IH.
  destruct (changes_roster op) eqn:Hq.
  - destruct op as [ | | | | | | e o | e i | ]; try discriminate; cbn [perform].
    + assert (Hrun : after (Environment.add_organism e o ;; ret tt) w
                     = after (Environment.add_organism e o) w).
      { unfold after, bind. now destruct (Environment.add_organism _ _ w) as [[|] ?]. }
      rewrite Hrun. unfold after. rewrite add_organism_run.
      destruct (existsb _ _) eqn:Ex; [exact H|].
      unfold unique_ids, member_ids in *. cbn [snd heap set_environments].
      rewrite roster_after_store. cbn [with_organisms __organisms].
      destruct (Nat.eqb_spec self e) as [-> | _]; [|exact H].
      fold (roster w e). rewrite map_app. cbn.
      apply NoDup_app; [exact H | repeat constructor; intros [] |].
      intros x Hx [<- | []]. apply in_map_iff in Hx. destruct Hx as (r & Hr & Hin).
      assert (existsb (fun org => (_id (heap w org) =? _id (heap w o))%string)
                      (roster w e) = true).
      { apply existsb_exists. exists r. split; [exact Hin | now apply String.eqb_eq]. }
      unfold roster in *. congruence.
    + assert (Hrun : after (Environment.remove_organism e i ;; ret tt) w
                     = after (Environment.remove_organism e i) w).
      { unfold after, bind. now destruct (Environment.remove_organism _ _ w) as [[|] ?]. }
      rewrite Hrun. unfold after. rewrite remove_organism_run.
      destruct (Environment.pop_first _ _ _) as [l'|] eqn:E; [|exact H].
      destruct (pop_first_some _ _ _ _ E) as (l1 & r & l2 & Hl & -> & _).
      unfold unique_ids, member_ids in *. cbn [snd heap set_environments].
      rewrite roster_after_store. cbn [with_organisms __organisms].
      destruct (Nat.eqb_spec self e) as [-> | _]; [|exact H].
      rewrite Hl, map_app in H. cbn in H. apply NoDup_remove_1 in H.
      now rewrite map_app.
  - unfold unique_ids. now rewrite (same_members_ids _ _ self (same_members_quiet op w Hq)).
Qed.

Lemma forest_unique_ids (g : rng) : unique_ids (forest g) 0%nat.
Proof.
  unfold unique_ids. change (member_ids (forest g) 0%nat)
    with ["P001"; "P002"; "P003"; "H001"; "C001"].
  repeat constructor; cbn; intuition discriminate.
Qed.

Lemma identifiers_stay_unique_witness :
  unique_ids (perform_all [AddOrganism 0%nat 4%nat; RemoveOrganism 0%nat "P002";
                           SimulateDay 0%nat]
                          (forest (constant_rng 0 0))) 0%nat.
Proof.
  exact (identifiers_stay_unique _ _ _ (forest_unique_ids (constant_rng 0 0))).
Defined.

(** ** Populations *)

Lemma filter_length_le {A : Type} (p q : A -> bool) (l : list A) :
  (forall x, In x l -> p x = true -> q x = true) ->
  (List.length (filter p l) <= List.length (filter q l))%nat.
Proof.
  induction l as [|a l IH]; intro H; cbn; [lia|].
  assert (IH' : (List.length (filter p l) <= List.length (filter q l))%nat).
  { apply IH. intros x Hx. apply H. now right. }
  destruct (p a) eqn:Ep.
  - rewrite (H a (or_introl eq_refl) Ep). cbn. lia.
  - destruct (q a); cbn; lia.
Qed.

Lemma never_more_update (f : organism -> organism) (r : ref) (w : world) :
  (forall o, class_of (f o) = class_of o) ->
  (forall o, _is_alive (f o) = true -> _is_alive o = true) ->
  never_more w (set_heap w (store (heap w) r (f (heap w r)))).
Proof.
  intros Hc Ha c self. unfold population, living, roster. cbn.
  apply filter_length_le. intros x _. unfold store, isinstance.
  destruct (Nat.eqb_spec x r) as [-> | _]; [|auto].
  rewrite Hc, !andb_true_iff. intros [H1 H2]. split; [exact H1 | now apply Ha].
Qed.

Lemma never_more_same (w w' : world) :
  heap w' = heap w -> (forall s, roster w' s = roster w s) -> never_more w w'.
Proof.
  intros Hh Hr c self. unfold population, living. now rewrite Hh, Hr.
Qed.

Lemma never_more_refl (w : world) : never_more w w.
Proof. intros c self. lia. Qed.

Lemma never_more_trans (w1 w2 w3 : world) :
  never_more w1 w2 -> never_more w2 w3 -> never_more w1 w3.
Proof. intros H12 H23 c self. specialize (H12 c self). specialize (H23 c self). lia. Qed.

Lemma never_more_assign (f : Environment -> Environment) (self : ref) (w : world) :
  (forall e, __organisms (f e) = __organisms e) ->
  never_more w (set_environments w (store (environments w) self (f (environments w self)))).
Proof.
  intro Hf. apply never_more_same; [reflexivity|].
  intro s. rewrite roster_after_store. unfold roster.
  destruct (Nat.eqb_spec s self) as [-> | _]; [apply Hf | reflexivity].
Qed.

Lemma never_more_operation (op : operation) (w : world) :
  adds op = false -> never_more w (after (perform op) w).
Proof.
  intro Hadd. destruct (changes_roster op) eqn:Hq.
  - destruct op as [ | | | | | | e o | e i | ]; try discriminate. cbn [perform].
    assert (Hrun : after (Environment.remove_organism e i ;; ret tt) w
                   = after (Environment.remove_organism e i) w).
    { unfold after, bind. now destruct (Environment.remove_organism _ _ w) as [[|] ?]. }
    rewrite Hrun. unfold after. rewrite remove_organism_run.
    destruct (Environment.pop_first _ _ _) as [l'|] eqn:E; [|apply never_more_refl].
    destruct (pop_first_some _ _ _ _ E) as (l1 & r & l2 & Hl & -> & _).
    intros c self. unfold population. cbn [snd]. rewrite roster_after_store.
    cbn [with_organisms __organisms].
    destruct (Nat.eqb_spec self e) as [-> | _]; [|apply Nat.le_refl].
    rewrite Hl. unfold living. cbn [heap set_environments].
    rewrite !filter_app, !length_app. cbn.
    destruct (_ && _); cbn; lia.
  - revert w. change (keeps never_more (perform op)).
    apply keeps_quiet_operation; try exact Hq.
    + exact never_more_refl.
    + exact never_more_trans.
    + intros r v w. apply never_more_update.
      * intro o. unfold class_of. now rewrite store_energy_ext.
      * intro o. rewrite store_energy_alive. now destruct (Qlt_bool 0 v).
    + intros r w. apply never_more_update.
      * intro o. unfold class_of, feed. destruct (ext o) eqn:E; cbn; rewrite ?E; reflexivity.
      * intro o. now rewrite feed_alive.
    + intros g w. now apply never_more_same.
    + intros self c w. now apply (never_more_assign (fun e => with_weather e c)).
    + intros self w.
      now apply (never_more_assign (fun e => with_day_count e (S (__day_count e)))).
Qed.

Lemma get_population_count_run (self : ref) (w : world) :
  Environment.get_population_count self w
  = (Return [("Plant", population CPlant w self);
             ("Herbivore", population CHerbivore w self);
             ("Carnivore", population CCarnivore w self)], w).
Proof. reflexivity. Qed.

Lemma populations_within_roster (w : world) (l : list ref) :
  (List.length (living CPlant w l) + List.length (living CHerbivore w l)
   + List.length (living CCarnivore w l) <= List.length l)%nat.
Proof.
  unfold living. induction l as [|x l IH]; cbn [filter List.length]; [lia|].
  unfold isinstance in *. destruct (class_of (heap w x)), (_is_alive (heap w x));
    cbn [issubclass pyclass_eqb base orb andb List.length]; lia.
Qed.

(** X11. [get_population_count] changes nothing and reports, for Plant,
    Herbivore and Carnivore, the living members of that class; the three
    counts together never exceed the size of the collection, and no sequence
    of operations without [add_organism] ever raises any of them: nothing
    is born or revived. *)
Theorem populations_never_grow (ops : list operation) (w : world) (self : ref) :
  forallb (fun op => negb (adds op)) ops = true ->
  let w' := perform_all ops w in
  Environment.get_population_count self w
  = (Return [("Plant", population CPlant w self);
             ("Herbivore", population CHerbivore w self);
             ("Carnivore", population CCarnivore w self)], w)
  /\ (population CPlant w self + population CHerbivore w self
      + population CCarnivore w self <= List.length (roster w self))%nat
  /\ (forall c, population c w' self <= population c w self)%nat.
Proof.
  intros Hops w'. split; [apply get_population_count_run|].
  split; [apply populations_within_roster|].
  intro c. subst w'. revert w. induction ops as [|op ops IH]; intro w; cbn [perform_all].
  - lia.
  - cbn in Hops. apply andb_true_iff in Hops. destruct Hops as [Hop Hops].
    apply negb_true_iff in Hop.
    specialize (IH Hops (after (perform op) w)).
    pose proof (never_more_operation op w Hop c self). lia.
Qed.

Lemma populations_never_grow_witness :
  let w := forest (constant_rng 0.5 0) in
  (population CHerbivore (perform_all [SimulateDay 0%nat; RemoveOrganism 0%nat "P001"] w) 0%nat
   <= population CHerbivore w 0%nat)%nat.
Proof.
  intro w.
  exact (proj2 (proj2 (populations_never_grow
                         [SimulateDay 0%nat; RemoveOrganism 0%nat "P001"] w 0%nat eq_refl))
               CHerbivore).
Defined.

(** ** The identifier sequence *)

Lemma get_next_id_run (self : ref) (w : world) :
  Environment.get_next_id self w
  = (Return (__next_id (environments w self)),
     set_environments w
       (store (environments w) self
          (with_next_id (environments w self) (S (__next_id (environments w self)))))).
Proof. reflexivity. Qed.

Lemma same_sequence_assign (f : Environment -> Environment) (self : ref) (w : world) :
  (forall e, __next_id (f e) = __next_id e /\ __name (f e) = __name e) ->
  same_sequence w (set_environments w (store (environments w) self (f (environments w self)))).
Proof.
  intros Hf s. cbn. unfold store.
  destruct (Nat.eqb_spec s self) as [-> | _]; [apply Hf | split; reflexivity].
Qed.

(** X12. [get_next_id] returns the stored number and advances it by one,
    touching nothing else; and since no other operation moves the sequence,
    the next call returns the successor whatever ran in between. *)
Theorem next_ids_are_consecutive (ops : list operation) (w : world) (self : ref) :
  let k := __next_id (environments w self) in
  let w1 := after (Environment.get_next_id self) w in
  result (Environment.get_next_id self) w = Return k
  /\ heap w1 = heap w
  /\ roster w1 self = roster w self
  /\ __day_count (environments w1 self) = __day_count (environments w self)
  /\ __weather_condition (environments w1 self) = __weather_condition (environments w self)
  /\ result (Environment.get_next_id self) (perform_all ops w1) = Return (S k).
Proof.
  intros k w1. subst w1. unfold result, after, roster. rewrite !get_next_id_run.
  cbn [fst snd heap set_environments environments].
  rewrite !store_same. repeat split.
  set (w1 := set_environments w _).
  assert (H : same_sequence w1 (perform_all ops w1)).
  { apply keeps_operations.
    - intros w0 s. split; reflexivity.
    - intros a b c Hab Hbc s. destruct (Hab s), (Hbc s). split; congruence.
    - intros r v w0 s. split; reflexivity.
    - intros r w0 s. split; reflexivity.
    - intros g w0 s. split; reflexivity.
    - intros s c w0. now apply (same_sequence_assign (fun e => with_weather e c)).
    - intros s w0.
      now apply (same_sequence_assign (fun e => with_day_count e (S (__day_count e)))).
    - intros s l w0. now apply (same_sequence_assign (fun e => with_organisms e l)). }
  rewrite (proj1 (H self)). subst w1. cbn. now rewrite store_same.
Qed.

(** ** Organism methods and the environments *)

Lemma organism_methods_keep_environments (op : operation) (w : world) :
  on_organisms op = true ->
  environments (after (perform op) w) = environments w.
Proof.
  intro Hop. revert w. change (keeps same_environments (perform op)).
  assert (Hrefl : forall w, same_environments w w) by reflexivity.
  assert (Htrans : forall a b c, same_environments a b -> same_environments b c ->
                                 same_environments a c).
  { unfold same_environments. intros a b c Hab Hbc. congruence. }
  assert (He : forall r v w,
             same_environments w (set_heap w (store (heap w) r (store_energy v (heap w r)))))
    by reflexivity.
  assert (Hf : forall r w,
             same_environments w (set_heap w (store (heap w) r (feed (heap w r)))))
    by reflexivity.
  assert (Hg : forall g w, same_environments w (set_gen w g)) by reflexivity.
  destruct op; try discriminate; cbn [perform].
  - now apply keeps_set_energy.
  - apply keeps_bind; auto; now apply keeps_consume_energy.
  - apply keeps_bind; auto; now apply keeps_photosynthesize.
  - apply keeps_bind; auto; now apply keeps_hunt.
  - apply keeps_bind; auto; now apply keeps_interact.
Qed.

(** X13. The methods of organisms (energy assignment, [consume_energy],
    [photosynthesize], [hunt], [interact]) never touch an environment: after
    any sequence of such calls every collection, day counter, weather and
    identifier sequence is what it was, whether the calls return or raise. *)
Theorem organism_methods_leave_environments (ops : list operation) (w : world) :
  forallb on_organisms ops = true ->
  environments (perform_all ops w) = environments w.
Proof.
  revert w. induction ops as [|op ops IH]; intros w Hops; cbn [perform_all]; [reflexivity|].
  cbn in Hops. apply andb_true_iff in Hops. destruct Hops as [Hop Hops].
  rewrite (IH _ Hops). now apply organism_methods_keep_environments.
Qed.

Lemma organism_methods_leave_environments_witness :
  environments (perform_all [Hunt 5%nat [4%nat]; Interact 4%nat 3%nat; AssignEnergy 1%nat 0]
                            (forest (constant_rng 0 0)))
  = environments (forest (constant_rng 0 0)).
Proof.
  exact (organism_methods_leave_environments
           [Hunt 5%nat [4%nat]; Interact 4%nat 3%nat; AssignEnergy 1%nat 0]
           (forest (constant_rng 0 0)) eq_refl).
Defined.

(** ** What a day does to the environment *)

Lemma start_day_run (self : ref) (w : world) :
  exists w1, start_day self w = (Return tt, w1)
             /\ heap w1 = heap w
             /\ (forall s, environments w1 s
                           = if Nat.eqb s self
                             then with_weather
                                    (with_day_count (environments w self)
                                       (S (__day_count (environments w self))))
                                    (weather_after_draw (gen w)
                                       (__weather_condition (environments w self)))
                             else environments w s).
Proof.
  unfold start_day, weather_after_draw.
  unfold bind at 1. cbn [Environment.assign].
  unfold bind at 1. cbn [random_random gen set_environments].
  destruct (Qlt_bool (rand_float (gen w) (drawn (gen w))) 0.3).
  - eexists. split; [reflexivity|]. split; [reflexivity|].
    intro s. cbn. unfold store.
    destruct (Nat.eqb s self) eqn:E; [|reflexivity].
    rewrite Nat.eqb_refl. reflexivity.
  - eexists. split; [reflexivity|]. split; [reflexivity|].
    intro s. cbn. unfold store.
    destruct (Nat.eqb s self); [|reflexivity]. now destruct (environments w self).
Qed.

Lemma simulate_day_split (self : ref) (w : world) :
  Environment.simulate_day self w = run_day self (after (start_day self) w).
Proof.
  unfold Environment.simulate_day, after, start_day.
  set (incr := fun e : Environment => with_day_count e (S (__day_count e))).
  assert (H1 : Environment.assign self incr w
               = (Return tt, set_environments w
                               (store (environments w) self (incr (environments w self)))))
    by reflexivity.
  run_with H1. run_with H1.
  match type of H1 with _ = (_, ?x) => set (w1 := x) end.
  run_with (random_random_run w1). run_with (random_random_run w1).
  destruct (Qlt_bool (rand_float (gen w1) (drawn (gen w1))) 0.3); reflexivity.
Qed.

Section Loops.

Variable R : world -> world -> Prop.
Hypothesis R_refl : forall w, R w w.
Hypothesis R_trans : forall w1 w2 w3, R w1 w2 -> R w2 w3 -> R w1 w3.
Hypothesis R_energy :
  forall r v w, R w (set_heap w (store (heap w) r (store_energy v (heap w r)))).
Hypothesis R_feed :
  forall r w, R w (set_heap w (store (heap w) r (feed (heap w r)))).
Hypothesis R_gen : forall g w, R w (set_gen w g).

Lemma keeps_run_day (self : ref) : keeps R (run_day self).
Proof.
  unfold run_day, Environment.organisms, Environment.day_count, Environment.attributes.
  repeat lazymatch goal with
         | |- keeps R (bind _ _) => apply keeps_bind; [assumption | | intro]
         | |- keeps R (gets _) => apply keeps_gets; assumption
         | |- keeps R (ret _) => apply keeps_ret; assumption
         | |- keeps R (select _ _) => apply keeps_gets; assumption
         | |- keeps R (Environment.get_organisms_by_type _ _) =>
             apply keeps_get_organisms_by_type; assumption
         | |- keeps R (for_each _ (Environment.grow _)) =>
             apply keeps_for_each; try assumption; intro; apply keeps_grow; assumption
         | |- keeps R (for_each _ (Environment.send_hunting _)) =>
             apply keeps_for_each; try assumption; intro;
             apply keeps_send_hunting; assumption
         | |- keeps R (for_each _ Environment.upkeep) =>
             apply keeps_for_each; try assumption; intro; apply keeps_upkeep; assumption
         end.
Qed.

End Loops.

Lemma nth_weather_valid (k : nat) :
  valid_weather (nth k ["sunny"; "cloudy"; "rainy"] "sunny").
Proof. destruct k as [|[|[|[|k]]]]; reflexivity. Qed.

Lemma simulate_day_environments (self : ref) (w : world) (s : ref) :
  environments (after (Environment.simulate_day self) w) s
  = if Nat.eqb s self
    then with_weather
           (with_day_count (environments w self) (S (__day_count (environments w self))))
           (weather_after_draw (gen w) (__weather_condition (environments w self)))
    else environments w s.
Proof.
  destruct (start_day_run self w) as (w1 & Hrun & _ & Henv).
  rewrite <- Henv. unfold after at 1. rewrite simulate_day_split.
  rewrite (returns_then_after _ _ _ _ Hrun).
  assert (H : same_environments w1 (after (run_day self) w1)).
  { apply (keeps_run_day same_environments); try reflexivity.
    unfold same_environments. intros a b c Hab Hbc. congruence. }
  unfold same_environments, after in H. now rewrite H.
Qed.

(** X14. On its environment, [simulate_day] does exactly this, whether the
    loops over the organisms return or raise: the day counter grows by one;
    the weather is resampled, to the option at the position the generator
    draws, when the first random number is below [0.3], and kept otherwise,
    so that it is afterwards the old weather or one of sunny, cloudy, rainy;
    the collection, name and identifier sequence stay; no other environment
    changes. *)
Theorem simulate_day_on_the_environment (self : ref) (w : world) :
  let e := environments w self in
  let w' := after (Environment.simulate_day self) w in
  let e' := environments w' self in
  __day_count e' = S (__day_count e)
  /\ __weather_condition e' = weather_after_draw (gen w) (__weather_condition e)
  /\ (__weather_condition e' = __weather_condition e \/ valid_weather (__weather_condition e'))
  /\ __organisms e' = __organisms e
  /\ __name e' = __name e
  /\ __next_id e' = __next_id e
  /\ (forall s, s <> self -> environments w' s = environments w s).
Proof.
  intros e w' e'.
  assert (He' : e' = with_weather (with_day_count e (S (__day_count e)))
                       (weather_after_draw (gen w) (__weather_condition e))).
  { subst e' w'. now rewrite simulate_day_environments, Nat.eqb_refl. }
  rewrite He'. cbn.
  repeat split.
  - unfold weather_after_draw. destruct (Qlt_bool _ _); [right | now left].
    apply nth_weather_valid.
  - intros s Hs. subst w'. rewrite simulate_day_environments.
    apply Nat.eqb_neq in Hs. now rewrite Hs.
Qed.

Lemma simulate_day_on_the_environment_witness :
  environments (after (Environment.simulate_day 0%nat) (forest (constant_rng 0 0))) 7%nat
  = environments (forest (constant_rng 0 0)) 7%nat.
Proof.
  refine (proj2 (proj2 (proj2 (proj2 (proj2 (proj2
            (simulate_day_on_the_environment 0%nat (forest (constant_rng 0 0)))))))) 7%nat _).
  discriminate.
Defined.

(** ** The weather *)

Lemma operation_weather (op : operation) (w : world) (s : ref) :
  __weather_condition (environments (after (perform op) w) s)
  = __weather_condition (environments w s)
  \/ valid_weather (__weather_condition (environments (after (perform op) w) s)).
Proof.
  destruct (on_organisms op) eqn:Ho.
  - left. now rewrite organism_methods_keep_environments.
  - destruct op as [ | | | | | e | e o | e i | e c]; try discriminate; cbn [perform].
    + assert (Hrun : after (Environment.simulate_day e ;; ret tt) w
                     = after (Environment.simulate_day e) w).
      { unfold after, bind. now destruct (Environment.simulate_day e w) as [[|] ?]. }
      rewrite Hrun.
      rewrite simulate_day_environments.
      destruct (Nat.eqb_spec s e) as [-> | Hne]; [|now left].
      cbn. unfold weather_after_draw.
      destruct (Qlt_bool _ _); [right; apply nth_weather_valid | now left].
    + left. assert (Hrun : after (Environment.add_organism e o ;; ret tt) w
                           = after (Environment.add_organism e o) w).
      { unfold after, bind. now destruct (Environment.add_organism _ _ w) as [[|] ?]. }
      rewrite Hrun. unfold after. rewrite add_organism_run.
      destruct (existsb _ _); [reflexivity|]. cbn. unfold store.
      now destruct (Nat.eqb_spec s e) as [-> | _].
    + left. assert (Hrun : after (Environment.remove_organism e i ;; ret tt) w
                           = after (Environment.remove_organism e i) w).
      { unfold after, bind. now destruct (Environment.remove_organism _ _ w) as [[|] ?]. }
      rewrite Hrun. unfold after. rewrite remove_organism_run.
      destruct (Environment.pop_first _ _ _); [|reflexivity]. cbn. unfold store.
      now destruct (Nat.eqb_spec s e) as [-> | _].
    + unfold after, Environment.set_weather_condition.
      destruct (str_in c _) eqn:Hc; [|now left].
      cbn. unfold store. destruct (Nat.eqb_spec s e) as [-> | _]; [right; exact Hc | now left].
Qed.

(** X15. The weather setter stores a condition that is one of sunny,
    cloudy, rainy and ignores any other value, changing nothing; and a valid
    weather stays valid under every sequence of operations ([simulate_day]
    resamples among the three only). *)
Theorem weather_stays_valid (ops : list operation) (w : world) (self : ref) :
  (forall c, valid_weather c ->
     __weather_condition
       (environments (after (Environment.set_weather_condition self c) w) self) = c)
  /\ (forall c, ~ valid_weather c ->
        Environment.set_weather_condition self c w = (Return tt, w))
  /\ (valid_weather (__weather_condition (environments w self)) ->
      valid_weather (__weather_condition (environments (perform_all ops w) self))).
Proof.
  split; [|split].
  - intros c Hc. unfold after, Environment.set_weather_condition.
    unfold valid_weather in Hc. rewrite Hc. cbn. now rewrite store_same.
  - intros c Hc. unfold Environment.set_weather_condition.
    unfold valid_weather in Hc. destruct (str_in c _); [now contradiction Hc | reflexivity].
  - revert w. induction ops as [|op ops IH]; intros w H; cbn [perform_all]; [exact H|].
    apply IH. destruct (operation_weather op w self) as [E | E]; [now rewrite E | exact E].
Qed.

Lemma weather_stays_valid_witness :
  valid_weather
    (__weather_condition
       (environments (perform_all [SetWeather 0%nat "stormy"; SimulateDay 0%nat]
                                  (forest (constant_rng 0 0))) 0%nat)).
Proof.
  exact (proj2 (proj2 (weather_stays_valid [SetWeather 0%nat "stormy"; SimulateDay 0%nat]
                                           (forest (constant_rng 0 0)) 0%nat))
               eq_refl).
Defined.

(** ** [consume_energy] *)

(** X16. [consume_energy(amount)] stores [max(0, energy - amount)] and
    returns the alive flag it leaves: [True] exactly when the organism was
    alive and had strictly more energy than [amount]; a living organism that
    spends all it has dies. No other organism changes. *)
Theorem consume_energy_spec (w : world) (self : ref) (amount : Q) :
  let o := heap w self in
  let w' := after (Organism.consume_energy self amount) w in
  _energy (heap w' self) = py_max 0 (_energy o - amount)
  /\ result (Organism.consume_energy self amount) w = Return (_is_alive (heap w' self))
  /\ (result (Organism.consume_energy self amount) w = Return true
      <-> _is_alive o = true /\ amount < _energy o)
  /\ (_energy o <= amount -> _is_alive (heap w' self) = false /\ _energy (heap w' self) = 0)
  /\ (forall r, r <> self -> heap w' r = heap w r).
Proof.
  intros o w'. subst w'. unfold result, after. rewrite consume_energy_run.
  cbn [fst snd heap set_heap]. rewrite store_same, store_energy_energy, store_energy_alive.
  fold o.
  split; [reflexivity|]. split; [reflexivity|].
  split; [|split].
  - destruct (Qlt_bool 0 (_energy o - amount)) eqn:E.
    + apply Qlt_bool_iff in E. split.
      * intro H. injection H as H. split; [exact H | lra].
      * intros [H _]. now rewrite H.
    + apply Qlt_bool_false_iff in E. split; [discriminate | intros [_ H]; lra].
  - intro Hle. destruct (Qlt_bool 0 (_energy o - amount)) eqn:E.
    + apply Qlt_bool_iff in E. lra.
    + split; [reflexivity|]. apply py_max_0_nonpos. lra.
  - intros r Hr. now rewrite store_other.
Qed.

Lemma consume_energy_spec_witness :
  let w := wolf_and_rabbit 0 in
  _is_alive (heap (after (Organism.consume_energy 1%nat 70) w) 1%nat) = false.
Proof.
  intro w.
  refine (proj1 (proj1 (proj2 (proj2 (proj2 (consume_energy_spec w 1%nat 70)))) _)).
  vm_compute. discriminate.
Defined.

(** ** What a day leaves alone *)

Lemma spared_refl (S : list ref) (w : world) : spared S w w.
Proof. intros r _. reflexivity. Qed.

Lemma spared_trans (S : list ref) (w1 w2 w3 : world) :
  spared S w1 w2 -> spared S w2 w3 -> spared S w1 w3.
Proof.
  intros H12 H23 r Hr. rewrite <- (H12 r Hr). apply H23.
  rewrite (H12 r Hr). exact Hr.
Qed.

Lemma spared_same_heap (S : list ref) (w w' : world) : heap w' = heap w -> spared S w w'.
Proof. intros E r _. now rewrite E. Qed.

Lemma spared_two (S : list ref) (w w' : world) (x y : ref) :
  In x S -> _is_alive (heap w x) = true ->
  In y S -> _is_alive (heap w y) = true ->
  (forall r, r <> x -> r <> y -> heap w' r = heap w r) ->
  spared S w w'.
Proof.
  intros Hx Hax Hy Hay H r Hr. apply H; intros ->; destruct Hr; congruence || contradiction.
Qed.

Lemma after_then_unit {A : Type} (m : M A) (w : world) : after (m ;; ret tt) w = after m w.
Proof. unfold after, bind. now destruct (m w) as [[|] ?]. Qed.

Lemma spared_grow (S : list ref) (self x : ref) (w : world) :
  In x S -> spared S w (after (Environment.grow self x) w).
Proof.
  intro Hx. unfold after, Environment.grow.
  run_with (read_run x w).
  destruct (isinstance (heap w x) CPlant) eqn:Hi; cbn [andb]; [|apply spared_refl].
  destruct (_is_alive (heap w x)) eqn:Ha; [|apply spared_refl].
  destruct (isinstance_plant _ Hi) as [g Hg].
  run_with (eq_refl : Environment.weather_condition self w
                      = (Return (__weather_condition (environments w self)), w)).
  run_with (photosynthesize_run x (__weather_condition (environments w self)) g w Hg).
  cbn [snd ret]. apply (spared_two S _ _ x x); auto.
  intros r Hr _. cbn. now rewrite store_other.
Qed.

Lemma spared_upkeep (S : list ref) (x : ref) (w : world) :
  In x S -> spared S w (after (Environment.upkeep x) w).
Proof.
  intro Hx. unfold after, Environment.upkeep.
  run_with (read_run x w).
  destruct (_is_alive (heap w x)) eqn:Ha; [|apply spared_refl].
  assert (Hstore : forall v, spared S w (set_heap w (store (heap w) x
                                                   (store_energy v (heap w x))))).
  { intro v. apply (spared_two S _ _ x x); auto.
    intros r Hr _. cbn. now rewrite store_other. }
  destruct (isinstance (heap w x) CPlant).
  - run_with (consume_energy_run x 1 w). apply Hstore.
  - destruct (isinstance (heap w x) CAnimal) eqn:Hi; [|apply spared_refl].
    destruct (isinstance_animal _ Hi) as [a Hanimal].
    run_with (speed_run x a w Hanimal).
    run_with (consume_energy_run x (2 + _speed a * 0.1) w). apply Hstore.
Qed.

Lemma spared_hunt (S : list ref) (hunter : ref) (prey : list ref) (w : world) :
  In hunter S -> incl prey S -> _is_alive (heap w hunter) = true ->
  spared S w (after (hunt hunter prey) w).
Proof.
  intros Hh Hprey Halive. unfold after, hunt. run_with (read_run hunter w).
  unfold class_of.
  destruct (ext (heap w hunter)) as [ | g | a | a p | a eff] eqn:E;
    try apply spared_refl.
  - (* Herbivore *)
    destruct (living CPlant w prey) as [|t0 rest] eqn:El.
    + rewrite (bind_run _ _ _ _ _ (herbivore_hunt_refuses w hunter prey (or_intror El))).
      apply spared_refl.
    + assert (Hne : living CPlant w prey <> []) by (rewrite El; discriminate).
      destruct (forage_pool_draw w p prey Hne) as (target & g & Hnth & Hin & Hg).
      destruct (living_In _ _ _ _ Hin) as (Htp & _ & Hta).
      rewrite (bind_run _ _ _ _ _
                 (herbivore_hunt_run w hunter target prey a p g E Halive Hne Hnth Hg)).
      cbn [snd ret]. apply (spared_two S _ _ hunter target); auto.
      intros r H1 H2. cbn. now rewrite !store_other.
  - (* Carnivore *)
    destruct (living CHerbivore w prey) as [|t0 rest] eqn:El.
    + rewrite (bind_run _ _ _ _ _ (carnivore_hunt_refuses w hunter prey (or_intror El))).
      apply spared_refl.
    + assert (Hne : living CHerbivore w prey <> []) by (rewrite El; discriminate).
      destruct (random_choice_run _ w Hne) as (target & Hnth & _).
      assert (Hin : In target (living CHerbivore w prey)) by (eapply nth_error_In; eauto).
      destruct (living_In _ _ _ _ Hin) as (Htp & Hinst & Hta).
      destruct (isinstance_herbivore _ Hinst) as (ta & tp & Ht).
      pose proof (carnivore_hunt_run w hunter target prey a ta eff tp E Halive Hnth Ht)
        as Hrun.
      cbv zeta in Hrun. unfold bind. rewrite Hrun.
      destruct (Qeq_bool (_speed ta + 1) 0); [now apply spared_same_heap|].
      destruct (Qle_bool _ _); cbn [snd ret].
      * apply (spared_two S _ _ hunter target); auto.
        intros r H1 H2. cbn. now rewrite !store_other.
      * apply (spared_two S _ _ hunter hunter); auto.
        intros r H1 _. cbn. now rewrite store_other.
Qed.

Lemma spared_send_hunting (S : list ref) (prey : list ref) (hunter : ref) (w : world) :
  In hunter S -> incl prey S ->
  spared S w (after (Environment.send_hunting prey hunter) w).
Proof.
  intros Hh Hprey. unfold Environment.send_hunting, after at 1.
  run_with (is_alive_run hunter w).
  destruct (_is_alive (heap w hunter)) eqn:Ha; [|apply spared_refl].
  change (spared S w (after (hunt hunter prey ;; ret tt) w)).
  rewrite after_then_unit. now apply spared_hunt.
Qed.

Lemma guarded_bind (S : list ref) (self : ref) {A B : Type} (m : M A) (f : A -> M B)
      (Q : A -> Prop) (Q' : B -> Prop) :
  guarded S self m Q -> (forall a, Q a -> guarded S self (f a) Q') ->
  guarded S self (bind m f) Q'.
Proof.
  intros Hm Hf w Hw. destruct (Hm w Hw) as (H1 & H2 & H3).
  unfold after, result, bind in *.
  destruct (m w) as [[a | e] w1]; cbn [fst snd] in *.
  - destruct (Hf a (H3 a eq_refl) w1 H2) as (G1 & G2 & G3).
    split; [exact (spared_trans _ _ _ _ H1 G1) | split; assumption].
  - split; [exact H1 | split; [exact H2 | discriminate]].
Qed.

Lemma guarded_gets (S : list ref) (self : ref) {A : Type} (f : world -> A) (Q : A -> Prop) :
  (forall w, roster w self = S -> Q (f w)) -> guarded S self (gets f) Q.
Proof.
  intros H w Hw. split; [apply spared_refl | split; [exact Hw|]].
  intros a Ha. injection Ha as <-. now apply H.
Qed.

Lemma guarded_body (S : list ref) (self : ref) (m : M unit) :
  (forall w, spared S w (after m w)) -> (forall w, same_kind w (after m w)) ->
  guarded S self m (fun _ => True).
Proof.
  intros Hs Hk w Hw. split; [apply Hs | split; [|trivial]].
  unfold roster in *. now rewrite (proj2 (Hk w) self).
Qed.

Lemma guarded_for_each (S : list ref) (self : ref) {A : Type} (l : list A)
      (body : A -> M unit) :
  (forall x, In x l -> guarded S self (body x) (fun _ => True)) ->
  guarded S self (for_each l body) (fun _ => True).
Proof.
  induction l as [|x l IH]; intro H; cbn [for_each].
  - intros w Hw. split; [apply spared_refl | split; [exact Hw | trivial]].
  - apply (guarded_bind S self _ _ (fun _ => True)); [apply H; now left|].
    intros _ _. apply IH. intros y Hy. apply H. now right.
Qed.

Lemma guarded_run_day (self : ref) (S : list ref) :
  guarded S self (run_day self) (fun _ => True).
Proof.
  unfold run_day, Environment.organisms, Environment.get_organisms_by_type,
    Environment.day_count, Environment.attributes, select.
  assert (Hattr : guarded S self (gets (fun w => environments w self))
                          (fun e => __organisms e = S)).
  { apply guarded_gets. intros w Hw. exact Hw. }
  assert (Hmembers : guarded S self (e <- gets (fun w => environments w self) ;;
                                     ret (__organisms e)) (fun l => l = S)).
  { apply (guarded_bind S self _ _ _ _ Hattr). intros e He.
    apply guarded_gets. intros w _. exact He. }
  assert (Htype : forall c,
             guarded S self
               (e <- gets (fun w => environments w self) ;;
                gets (fun w => filter (fun r => isinstance (heap w r) c) (__organisms e)))
               (fun l => incl l S)).
  { intro c. apply (guarded_bind S self _ _ _ _ Hattr). intros e He.
    apply guarded_gets. intros w _ r Hr. apply filter_In in Hr. rewrite <- He. tauto. }
  apply (guarded_bind S self _ _ _ _ Hmembers). intros members ->.
  apply (guarded_bind S self _ _ (fun _ => True)).
  { apply guarded_for_each. intros x Hx.
    apply guarded_body; intro w; [now apply spared_grow | apply same_kind_grow]. }
  intros _ _.
  apply (guarded_bind S self _ _ _ _ (Htype CCarnivore)). intros carnivores Hc.
  apply (guarded_bind S self _ _ _ _ (Htype CHerbivore)). intros herbivores Hh.
  apply (guarded_bind S self _ _ (fun _ => True)).
  { apply guarded_for_each. intros x Hx.
    apply guarded_body; intro w; [apply spared_send_hunting; auto
                                 | apply same_kind_send_hunting]. }
  intros _ _.
  apply (guarded_bind S self _ _ (fun l => incl l S)).
  { apply guarded_gets. intros w _ r Hr. apply filter_In in Hr. apply Hh. tauto. }
  intros living_herbivores Hl.
  apply (guarded_bind S self _ _ _ _ (Htype CPlant)). intros plants Hp.
  apply (guarded_bind S self _ _ (fun _ => True)).
  { apply guarded_for_each. intros x Hx.
    apply guarded_body; intro w; [apply spared_send_hunting; auto
                                 | apply same_kind_send_hunting]. }
  intros _ _.
  apply (guarded_bind S self _ _ _ _ Hmembers). intros members ->.
  apply (guarded_bind S self _ _ (fun _ => True)).
  { apply guarded_for_each. intros x Hx.
    apply guarded_body; intro w; [now apply spared_upkeep | apply same_kind_upkeep]. }
  intros _ _.
  apply (guarded_bind S self _ _ (fun _ => True)); [now apply guarded_gets|].
  intros e _. now apply guarded_gets.
Qed.

(** X17. [simulate_day] changes no organism outside the collection of the
    environment, and no organism that is dead when the day starts: such an
    organism gains no energy, loses none and is never chosen as prey. This
    holds whether the call returns or raises. *)
Theorem simulate_day_spares (self : ref) (w : world) (r : ref) :
  ~ In r (roster w self) \/ _is_alive (heap w r) = false ->
  heap (after (Environment.simulate_day self) w) r = heap w r.
Proof.
  intro Hr.
  destruct (start_day_run self w) as (w1 & Hrun & Hheap & Henv).
  unfold after. rewrite simulate_day_split, (returns_then_after _ _ _ _ Hrun).
  assert (Hroster : roster w1 self = roster w self).
  { unfold roster. now rewrite Henv, Nat.eqb_refl. }
  destruct (guarded_run_day self (roster w self) w1 Hroster) as (Hs & _).
  rewrite <- Hheap. apply Hs. now rewrite Hheap.
Qed.

Lemma simulate_day_spares_witness :
  heap (after (Environment.simulate_day 0%nat) forest_with_dead_rabbit) 2%nat
  = heap forest_with_dead_rabbit 2%nat.
Proof.
  apply simulate_day_spares. right. reflexivity.
Defined.

(** ** Selecting members by class *)

Lemma get_organisms_by_type_run (self : ref) (c : pyclass) (w : world) :
  Environment.get_organisms_by_type self c w
  = (Return (filter (fun r => isinstance (heap w r) c) (roster w self)), w).
Proof. reflexivity. Qed.

Lemma filter_all {A : Type} (p : A -> bool) (l : list A) :
  (forall x, p x = true) -> filter p l = l.
Proof.
  intro H. induction l as [|a l IH]; cbn; [reflexivity|]. now rewrite H, IH.
Qed.

(** X18. [get_organisms_by_type] follows the class hierarchy and changes
    nothing: asked for [Organism] it returns the whole collection in order;
    a member is returned for [Animal] exactly when it is a Herbivore, a
    Carnivore or a plain Animal; no member is returned both for [Plant] and
    for [Animal]; and every returned reference is a member. *)
Theorem organisms_by_type_follow_hierarchy (self : ref) (w : world) :
  let by_type := fun c => filter (fun r => isinstance (heap w r) c) (roster w self) in
  (forall c, Environment.get_organisms_by_type self c w = (Return (by_type c), w))
  /\ by_type COrganism = roster w self
  /\ (forall r, In r (by_type CAnimal)
                <-> In r (by_type CHerbivore) \/ In r (by_type CCarnivore)
                    \/ (In r (roster w self) /\ class_of (heap w r) = CAnimal))
  /\ (forall r, In r (by_type CPlant) -> ~ In r (by_type CAnimal))
  /\ (forall c r, In r (by_type c) -> In r (roster w self)).
Proof.
  intro by_type. subst by_type. cbv beta.
  split; [intro c; apply get_organisms_by_type_run|].
  split.
  { apply filter_all. intro r. unfold isinstance. now destruct (class_of (heap w r)). }
  split.
  { intro r. rewrite !filter_In. unfold isinstance.
    destruct (class_of (heap w r)); cbn; intuition discriminate. }
  split.
  { intros r. rewrite !filter_In. unfold isinstance.
    destruct (class_of (heap w r)); cbn; intuition discriminate. }
  intros c r Hr. now apply filter_In in Hr.
Qed.

Lemma organisms_by_type_follow_hierarchy_witness :
  ~ In 1%nat (filter (fun r => isinstance (heap (forest (constant_rng 0 0)) r) CAnimal)
                     (roster (forest (constant_rng 0 0)) 0%nat)).
Proof.
  refine (proj1 (proj2 (proj2 (proj2
            (organisms_by_type_follow_hierarchy 0%nat (forest (constant_rng 0 0)))))) 1%nat _).
  cbn. tauto.
Defined.

(** ** Constructors *)

Lemma organism_init_run (x : extension) (id : pyval) (species_name : string)
      (energy : Q) (is_alive : bool) (w : world) :
  Organism.__init__ x id species_name energy is_alive w
  = match id with
    | PyStr s =>
        if (s =? "")%string then (Raise InvalidInputException, w)
        else (Return (next_ref w),
              mk_world (store (heap w) (next_ref w)
                              (mk_organism s species_name energy is_alive x))
                       (environments w) (gen w) (organism_count w + 1)%Z (S (next_ref w))
                       (str_lower w))
    | _ => (Raise InvalidInputException, w)
    end.
Proof.
  unfold Organism.__init__. destruct id as [ | b | z | q | s]; try reflexivity.
  cbn. now destruct (s =? "")%string.
Qed.

Lemma nonempty_str_cases (id : pyval) :
  nonempty_str id
  <-> match id with PyStr s => (s =? "")%string = false | _ => False end.
Proof.
  unfold nonempty_str. destruct id as [ | b | z | q | s];
    try (split; [intros (s & H & _); discriminate | tauto]).
  split.
  - intros (s' & H & Hs). injection H as ->. now apply String.eqb_neq.
  - intro H. exists s. split; [reflexivity | now apply String.eqb_neq].
Qed.

(** X19. The constructors of [Plant], [Herbivore] and [Carnivore] validate
    the identifier as [Organism] does (they raise [InvalidInputException]
    exactly when it is not a non-empty string, creating nothing). Otherwise
    each of the three returns a new object that has the class constructed,
    every attribute exactly as passed and, for an animal, a feeding counter
    of [0]; each makes the organism count grow by one, and changes no
    existing object and no environment. *)
Theorem subclass_constructors (id : pyval) (species_name : string) (energy : Q)
        (is_alive : bool) (growth_rate speed efficiency : Q)
        (diet_type preference : string) (w : world) :
  let plant := Plant.__init__ id species_name energy is_alive growth_rate in
  let herbivore :=
    Herbivore.__init__ id species_name energy is_alive speed diet_type preference in
  let carnivore :=
    Carnivore.__init__ id species_name energy is_alive speed diet_type efficiency in
  (result plant w = Raise InvalidInputException <-> ~ nonempty_str id)
  /\ (result herbivore w = Raise InvalidInputException <-> ~ nonempty_str id)
  /\ (result carnivore w = Raise InvalidInputException <-> ~ nonempty_str id)
  /\ (~ nonempty_str id ->
      plant w = (Raise InvalidInputException, w)
      /\ herbivore w = (Raise InvalidInputException, w)
      /\ carnivore w = (Raise InvalidInputException, w))
  /\ (forall s, id = PyStr s -> s <> "" ->
        (result plant w = Return (next_ref w)
         /\ heap (after plant w) (next_ref w)
            = mk_organism s species_name energy is_alive (PlantPart growth_rate)
         /\ organism_count (after plant w) = (organism_count w + 1)%Z
         /\ (forall r, r <> next_ref w -> heap (after plant w) r = heap w r)
         /\ environments (after plant w) = environments w)
        /\ (result herbivore w = Return (next_ref w)
            /\ heap (after herbivore w) (next_ref w)
               = mk_organism s species_name energy is_alive
                   (HerbivorePart (mk_animal speed diet_type 0) preference)
            /\ organism_count (after herbivore w) = (organism_count w + 1)%Z
            /\ (forall r, r <> next_ref w -> heap (after herbivore w) r = heap w r)
            /\ environments (after herbivore w) = environments w)
        /\ (result carnivore w = Return (next_ref w)
            /\ heap (after carnivore w) (next_ref w)
               = mk_organism s species_name energy is_alive
                   (CarnivorePart (mk_animal speed diet_type 0) efficiency)
            /\ organism_count (after carnivore w) = (organism_count w + 1)%Z
            /\ (forall r, r <> next_ref w -> heap (after carnivore w) r = heap w r)
            /\ environments (after carnivore w) = environments w)).
Proof.
  intros plant herbivore carnivore. subst plant herbivore carnivore.
  unfold Plant.__init__, Herbivore.__init__, Carnivore.__init__, Animal.__init__,
    result, after.
  rewrite !organism_init_run, nonempty_str_cases.
  destruct id as [ | b | z | q | s]; cbn [fst snd];
    try (split; [|split; [|split; [|split]]];
         [ split; [intros _ H; exact H | reflexivity]
         | split; [intros _ H; exact H | reflexivity]
         | split; [intros _ H; exact H | reflexivity]
         | intros _; repeat split
         | intros s E; discriminate E ]).
  destruct (s =? "")%string eqn:Hs; cbn [fst snd heap organism_count environments].
  - split; [|split; [|split; [|split]]];
      [ split; [intros _ H; discriminate H | reflexivity]
      | split; [intros _ H; discriminate H | reflexivity]
      | split; [intros _ H; discriminate H | reflexivity]
      | intros _; repeat split
      | intros s' E Hs'; injection E as ->; apply String.eqb_neq in Hs'; congruence ].
  - split; [|split; [|split; [|split]]];
      [ split; [discriminate | intro H; now contradiction H]
      | split; [discriminate | intro H; now contradiction H]
      | split; [discriminate | intro H; now contradiction H]
      | intro H; now contradiction H
      | ].
    intros s' E _. injection E as <-. rewrite !store_same.
    repeat split; intros r Hr; now rewrite store_other.
Qed.

(** A rabbit built in an empty world sits at reference [0] with every
    attribute as passed, and the organism count goes from [0] to [1]. *)
Lemma subclass_constructors_witness :
  let make := Herbivore.__init__ (PyStr "H001") "Rabbit" 70 true 3 "herbivore" "grass" in
  let w := boot (constant_rng 0 0) in
  heap (after make w) 0%nat
  = mk_organism "H001" "Rabbit" 70 true (HerbivorePart (mk_animal 3 "herbivore" 0) "grass")
  /\ organism_count (after make w) = 1%Z.
Proof.
  intros make w.
  destruct (subclass_constructors (PyStr "H001") "Rabbit" 70 true 0 3 0 "herbivore" "grass" w)
    as (_ & _ & _ & _ & H).
  destruct (H "H001" eq_refl ltac:(discriminate)) as (_ & (_ & Hobj & Hcount & _) & _).
  split; [exact Hobj | exact Hcount].
Defined.

(** X20. A new [Environment] starts at day [0] with an empty collection and
    identifier sequence at [1]; its constructor stores the weather as given,
    without the check of the setter, and touches no organism. Its first
    [simulate_day] returns [1] and changes no organism at all. *)
Theorem new_environment (name weather_condition : string) (w : world) :
  let self := next_ref w in
  let w1 := after (Environment.__init__ name weather_condition) w in
  result (Environment.__init__ name weather_condition) w = Return self
  /\ environments w1 self = mk_Environment name weather_condition [] 0 1
  /\ heap w1 = heap w
  /\ (forall s, s <> self -> environments w1 s = environments w s)
  /\ result (Environment.simulate_day self) w1 = Return 1%nat
  /\ (forall r, heap (after (Environment.simulate_day self) w1) r = heap w r).
Proof.
  intros self w1.
  assert (Henv : environments w1 self = mk_Environment name weather_condition [] 0 1).
  { subst w1. unfold after. cbn. now rewrite store_same. }
  split; [reflexivity|]. split; [exact Henv|]. split; [reflexivity|].
  split.
  { intros s Hs. subst w1. unfold after. cbn. now rewrite store_other. }
  assert (Hempty : roster w1 self = []) by (unfold roster; now rewrite Henv).
  split.
  - destruct (simulate_day_returns self w1) as (d & w2 & Hrun).
    { fold (roster w1 self). rewrite Hempty. intros r a p []. }
    unfold result. rewrite Hrun. cbn [fst].
    rewrite (simulate_day_returns_counter self w1 d w2 Hrun).
    rewrite <- (returns_then_after _ _ _ _ Hrun), simulate_day_counts_one.
    now rewrite Henv.
  - intro r.
    destruct (start_day_run self w1) as (w2 & Hrun & Hheap & Henv2).
    unfold after at 1. rewrite simulate_day_split, (returns_then_after _ _ _ _ Hrun).
    assert (Hroster : roster w2 self = []).
    { unfold roster. now rewrite Henv2, Nat.eqb_refl, Henv. }
    destruct (guarded_run_day self [] w2 Hroster) as (Hs & _).
    change (heap w r) with (heap w1 r). rewrite <- Hheap. apply Hs. left. intros [].
Qed.

Lemma new_environment_witness :
  environments (after (Environment.__init__ "Pond" "stormy") (forest (constant_rng 0 0))) 0%nat
  = environments (forest (constant_rng 0 0)) 0%nat.
Proof.
  refine (proj1 (proj2 (proj2 (proj2
            (new_environment "Pond" "stormy" (forest (constant_rng 0 0)))))) 0%nat _).
  vm_compute. discriminate.
Defined.
